(** * NexuralFlow market-data gateway: subscription multiplexing and broadcast

    A shallow embedding of the Go WebSocket gateway
    ([websocket-server/polygon-client.go] and the server half of
    [websocket-server/api-handlers.go]) together with the properties that
    its design document states about it.

    Conventions of the embedding.
    - A Go [int]/[int64]/[time.Duration] is a [Z] with the 64-bit
      wrap-around written out ([wrap64]).
    - A Go [map[string]T] is a [gmap string T]; a [map[K]bool] that is only
      ever assigned [true] is a [gset K].
    - A [*Client] is an address ([nat]) into a heap of client objects, so
      that the registries and the session itself share one object.
    - A run-time panic (send on a closed channel, nil dereference) is
      [None] in the option monad.
    - A run of the gateway is given at two grains. In a run by turns
      ([trace], [run]) each event is answered by its handler, which runs
      from its start to its end before the next one starts. The
      handlers of the client requests and the exit of a read loop are
      goroutines that take their locks one after the other: in a run by
      sections ([play]) each of their critical sections is a move of
      its own, and the moves come in any order, so that every
      interleaving of the handlers is among the runs by sections. A run
      by turns is a run by sections.
    - A loop over a Go map visits the keys in an order that the loop
      does not fix; where the order shows in a result it is an argument
      ([PolygonClient.visit]).
    - [time.Now()] is an explicit argument, in nanoseconds.
    - The environment is explicit too: whether a dial succeeds and which
      upstream frames arrive during the authentication wait are
      arguments of [Connect].

    Left out: the REST handlers and their mock data, the Redis
    publisher and the ping ticker of the write loop. The cache and
    database writes of [handlePolygonMessage] are given apart from the
    broadcast, as the commands and rows they issue. The write loop of a
    session is given apart from the events of a run: it only empties
    the queue of the session and closes its transport, which the read
    loop then sees as a failed read. The read deadline of a session is
    kept with the session; a read that fails, for that or for any
    other reason, is an event of its own, which may come at any time:
    nothing in a run says how much time has passed. *)

From Stdlib Require Import ZArith QArith_base Ascii String List Lia.
From stdpp Require Import base option gmap strings list sorting.
From stdpp Require Import fin_maps fin_sets pretty.

Local Open Scope string_scope.
Local Open Scope list_scope.
Local Open Scope Z_scope.

#[local] Set Warnings "-clear-no-such-hyp".

(** ** Machine integers and durations *)

Definition wrap64 (z : Z) : Z := (z + 2 ^ 63) mod 2 ^ 64 - 2 ^ 63.

Definition Nanosecond : Z := 1.
Definition Millisecond : Z := 1000000.
Definition Second : Z := 1000000000.

(** [time.Since(t)] is [now.Sub(t)], which saturates at the extreme
    durations. *)
Definition maxDuration : Z := 2 ^ 63 - 1.
Definition minDuration : Z := - 2 ^ 63.

Definition Since (now t : Z) : Z :=
  let d := now - t in
  if d <? minDuration then minDuration
  else if maxDuration <? d then maxDuration
  else d.

(** [t.UnixMilli()] *)
Definition UnixMilli (t : Z) : Z := t / Millisecond.

(** ** Messages (polygon-client.go, api-handlers.go) *)

(** [PolygonMessage]. The [float64] fields are only carried through, never
    computed on, and are held as rationals. [Raw] is not serialised
    ([json:"-"]) and is left out. *)
Record PolygonMessage := {
  EventType : string;
  Symbol : string;
  Price : Q;
  Size : Z;
  Exchange : Z;
  Timestamp : Z;
  Conditions : list Z;
  BidPrice : Q;
  BidSize : Z;
  AskPrice : Q;
  AskSize : Z;
  Open : Q;
  High : Q;
  Low : Q;
  Close : Q;
  Volume : Z;
  VWAP : Q
}.

(** A value of a [map[string]interface{}]. *)
Inductive MetaValue :=
| MString (s : string)
| MInt (z : Z).

(** [Message]: what the gateway sends to its clients. [Data] is [nil] for
    confirmations and the upstream record for market data. *)
Record Message := {
  Type_ : string;
  Channel : string;
  Data : option PolygonMessage;
  MTimestamp : Z;
  Symbols : list string;
  Metadata : list (string * MetaValue)
}.

(** [SubscriptionRequest]: a decoded client frame. *)
Record SubscriptionRequest := {
  RType : string;
  RChannel : string;
  RSymbols : list string
}.

(** [PolygonAuthMessage] and [PolygonSubscribeMessage] have the same
    shape: an action and its parameters. *)
Record PolygonFrame := {
  Action : string;
  Params : string
}.

(** One record of an upstream batch, as the two decodings see the same
    JSON object: the type tag and status fields read by [handleMessage],
    and the full record read by [handleDataMessage] ([None] when that
    second decoding fails). *)
Record PolygonRecord := {
  Ev : string;
  Status : string;
  StatusText : string;
  Decoded : option PolygonMessage
}.

(** ** The transport *)

(** A [*websocket.Conn]: whether it has been closed, and the frames
    written on it so far. A write on a closed connection returns an
    error. *)
Record Conn := {
  closed : bool;
  written : list PolygonFrame
}.

Definition WriteMessage (c : Conn) (f : PolygonFrame) : Conn * bool :=
  if closed c then (c, false)
  else ({| closed := false; written := written c ++ [f] |}, true).

Definition CloseConn (c : Conn) : Conn :=
  {| closed := true; written := written c |}.

(** ** Upstream session (polygon-client.go) *)

Module PolygonClient.

Record t := {
  apiKey : string;
  ws : option Conn;
  connected : bool;
  authenticated : bool;
  subscriptions : gset string;
  (** the pending [time.AfterFunc] timer, with its delay *)
  reconnectTimer : option Z;
  reconnectDelay : Z;
  maxRetries : Z;
  retryCount : Z;
  (** a [readMessages] goroutine is reading from [ws] *)
  reader : bool
}.

Inductive error :=
| ErrConnect
| ErrAuthenticate
| ErrNotConnectedOrAuthenticated
| ErrNotConnected
| ErrWrite.

Definition NewPolygonClient (key : string) : t :=
  {| apiKey := key; ws := None; connected := false; authenticated := false;
     subscriptions := ∅; reconnectTimer := None;
     reconnectDelay := 5 * Second; maxRetries := 10; retryCount := 0;
     reader := false |}.

Definition set_ws (pc : t) (c : option Conn) : t :=
  {| apiKey := apiKey pc; ws := c; connected := connected pc;
     authenticated := authenticated pc; subscriptions := subscriptions pc;
     reconnectTimer := reconnectTimer pc; reconnectDelay := reconnectDelay pc;
     maxRetries := maxRetries pc; retryCount := retryCount pc;
     reader := reader pc |}.

Definition set_subscriptions (pc : t) (s : gset string) : t :=
  {| apiKey := apiKey pc; ws := ws pc; connected := connected pc;
     authenticated := authenticated pc; subscriptions := s;
     reconnectTimer := reconnectTimer pc; reconnectDelay := reconnectDelay pc;
     maxRetries := maxRetries pc; retryCount := retryCount pc;
     reader := reader pc |}.

Definition set_flags (pc : t) (c a : bool) : t :=
  {| apiKey := apiKey pc; ws := ws pc; connected := c;
     authenticated := a; subscriptions := subscriptions pc;
     reconnectTimer := reconnectTimer pc; reconnectDelay := reconnectDelay pc;
     maxRetries := maxRetries pc; retryCount := retryCount pc;
     reader := reader pc |}.

Definition set_retry (pc : t) (n : Z) (timer : option Z) : t :=
  {| apiKey := apiKey pc; ws := ws pc; connected := connected pc;
     authenticated := authenticated pc; subscriptions := subscriptions pc;
     reconnectTimer := timer; reconnectDelay := reconnectDelay pc;
     maxRetries := maxRetries pc; retryCount := n;
     reader := reader pc |}.

Definition set_reader (pc : t) (r : bool) : t :=
  {| apiKey := apiKey pc; ws := ws pc; connected := connected pc;
     authenticated := authenticated pc; subscriptions := subscriptions pc;
     reconnectTimer := reconnectTimer pc; reconnectDelay := reconnectDelay pc;
     maxRetries := maxRetries pc; retryCount := retryCount pc;
     reader := r |}.

(** [pc.ws.WriteMessage(websocket.TextMessage, data)]; a nil [ws]
    panics. *)
Definition write (pc : t) (f : PolygonFrame) : option (t * bool) :=
  c ← ws pc;
  let '(c', ok) := WriteMessage c f in
  Some (set_ws pc (Some c'), ok).

(** [pc.ws.Close()] *)
Definition close (pc : t) : option t :=
  c ← ws pc; Some (set_ws pc (Some (CloseConn c))).

(** The three tokens appended per symbol by [Subscribe] and
    [Unsubscribe]. *)
Definition tokens (symbol : string) : list string :=
  ["T." +:+ symbol; "Q." +:+ symbol; "A." +:+ symbol].

(** [strings.Join(elems, sep)] *)
Fixpoint Join (elems : list string) (sep : string) : string :=
  match elems with
  | [] => ""
  | [e] => e
  | e :: rest => e +:+ sep +:+ Join rest sep
  end.

(** The loop of [Subscribe]: the parameters grow by three tokens per
    symbol and the symbol is recorded. *)
Definition subscribe_loop (symbols : list string) (pc : t)
  : list string * t :=
  fold_left
    (fun '(params, pc) symbol =>
       (params ++ tokens symbol,
        set_subscriptions pc ({[symbol]} ∪ subscriptions pc)))
    symbols ([], pc).

Definition Subscribe (pc : t) (symbols : list string)
  : option (t * option error) :=
  if negb (connected pc) || negb (authenticated pc)
  then Some (pc, Some ErrNotConnectedOrAuthenticated)
  else
    let '(params, pc) := subscribe_loop symbols pc in
    let subMsg := {| Action := "subscribe"; Params := Join params "," |} in
    '(pc, ok) ← write pc subMsg;
    Some (pc, if ok : bool then None else Some ErrWrite).

Definition unsubscribe_loop (symbols : list string) (pc : t)
  : list string * t :=
  fold_left
    (fun '(params, pc) symbol =>
       (params ++ tokens symbol,
        set_subscriptions pc (subscriptions pc ∖ {[symbol]})))
    symbols ([], pc).

Definition Unsubscribe (pc : t) (symbols : list string)
  : option (t * option error) :=
  if negb (connected pc)
  then Some (pc, Some ErrNotConnected)
  else
    let '(params, pc) := unsubscribe_loop symbols pc in
    let unsubMsg := {| Action := "unsubscribe"; Params := Join params "," |} in
    '(pc, ok) ← write pc unsubMsg;
    Some (pc, if ok : bool then None else Some ErrWrite).

Definition IsConnected (pc : t) : bool :=
  connected pc && authenticated pc.

(** [handleStatusMessage]: only the two authentication statuses change
    the state; every other status is logged. *)
Definition handleStatusMessage (pc : t) (status message : string) : t :=
  if String.eqb status "auth_success" then set_flags pc (connected pc) true
  else if String.eqb status "auth_failed" then set_flags pc (connected pc) false
  else pc.

(** [handleDataMessage]: the record is decoded a second time and handed
    to [messageHandler]; the result lists what the handler is called
    with. A record that does not decode is dropped. *)
Definition handleDataMessage (body : option PolygonMessage)
  : list PolygonMessage :=
  match body with
  | Some msg => [msg]
  | None => []
  end.

(** One record of a batch: [None] is a record whose first decoding
    fails ([continue]). *)
Definition handleRecord (acc : t * list PolygonMessage)
    (r : option PolygonRecord) : t * list PolygonMessage :=
  let '(pc, out) := acc in
  match r with
  | None => (pc, out)
  | Some msgType =>
      if negb (String.eqb (Status msgType) "")
      then (handleStatusMessage pc (Status msgType) (StatusText msgType), out)
      else if negb (String.eqb (Ev msgType) "")
      then (pc, out ++ handleDataMessage (Decoded msgType))
      else (pc, out)
  end.

(** An inbound frame: [None] when it is not a JSON array. *)
Definition Batch : Type := option (list (option PolygonRecord)).

Definition handleMessage (acc : t * list PolygonMessage) (data : Batch)
  : t * list PolygonMessage :=
  match data with
  | None => acc
  | Some messages => fold_left handleRecord messages acc
  end.

(** [scheduleReconnect] *)
Definition scheduleReconnect (pc : t) : t :=
  if maxRetries pc <=? retryCount pc then pc
  else
    let n := wrap64 (retryCount pc + 1) in
    let delay := wrap64 (reconnectDelay pc * n) in
    set_retry pc n (Some delay).

(** The [for] loop of [readMessages] over the frames that arrive before
    the read fails. *)
Definition read_loop (frames : list Batch) (pc : t)
  : t * list PolygonMessage :=
  fold_left handleMessage frames (pc, []).

(** The deferred block of [readMessages], run when the read fails. *)
Definition readMessages_exit (pc : t) : t :=
  let pc := set_flags pc false false in
  let pc := match ws pc with
            | Some c => set_ws pc (Some (CloseConn c))
            | None => pc
            end in
  scheduleReconnect (set_reader pc false).

Definition readMessages (frames : list Batch) (pc : t)
  : t * list PolygonMessage :=
  let '(pc, out) := read_loop frames pc in
  (readMessages_exit pc, out).

(** A reader blocked on a transport that has been closed gets a read
    error and leaves through its deferred block. *)
Definition reader_observes_close (pc : t) : t :=
  match ws pc with
  | Some c => if reader pc && closed c then readMessages_exit pc else pc
  | None => pc
  end.

(** [authenticate]. [arrivals] are the frames the reader goroutine
    handles during the two-second wait. *)
Definition authenticate (arrivals : list Batch) (pc : t)
  : option (t * list PolygonMessage * option error) :=
  let authMsg := {| Action := "auth"; Params := apiKey pc |} in
  '(pc, ok) ← write pc authMsg;
  if ok : bool then
    let '(pc, out) := read_loop arrivals pc in
    if negb (authenticated pc)
    then Some (pc, out, Some ErrAuthenticate)
    else Some (pc, out, None)
  else Some (pc, [], Some ErrWrite).

(** [Connect]. [dial] tells whether the dial succeeds; a successful dial
    yields a fresh open transport. *)
Definition Connect (dial : bool) (arrivals : list Batch) (pc : t)
  : option (t * list PolygonMessage * option error) :=
  if negb dial then Some (pc, [], Some ErrConnect)
  else
    let pc := set_ws pc (Some {| closed := false; written := [] |}) in
    let pc := set_flags pc true (authenticated pc) in
    let pc := set_retry pc 0 (reconnectTimer pc) in
    let pc := set_reader pc true in
    '(pc, out, err) ← authenticate arrivals pc;
    match err with
    | Some _ => pc ← close pc; Some (pc, out, Some ErrAuthenticate)
    | None => Some (pc, out, None)
    end.

(** [for symbol := range pc.subscriptions]. Go visits the keys of a map
    in an order of its choosing, which may differ from one loop to the
    next. [order] is that choice: the keys come out as [order] lists
    them, and the keys that [order] does not list follow. Every
    enumeration of the keys is [visit order m] for some [order], the
    enumeration itself for one. *)
Definition visit (order : list string) (m : gset string) : list string :=
  remove_dups (filter (.∈ m) order) ++ filter (.∉ order) (elements m).

(** The function given to [time.AfterFunc] by [scheduleReconnect].
    [order] is the order in which the loop over [pc.subscriptions]
    visits the symbols. *)
Definition reconnect (dial : bool) (arrivals : list Batch)
    (order : list string) (pc : t) : option (t * list PolygonMessage) :=
  let pc := set_retry pc (retryCount pc) None in
  '(pc, out, err) ← Connect dial arrivals pc;
  match err with
  | Some _ => Some (pc, out)
  | None =>
      let symbols := visit order (subscriptions pc) in
      if 0 <? Z.of_nat (length symbols)
      then '(pc, _) ← Subscribe pc symbols; Some (pc, out)
      else Some (pc, out)
  end.

(** Two states of the session that differ at most in the
    [authenticated] flag. *)
Definition only_auth (pc pc' : t) : Prop :=
  ∃ b, pc' = set_flags pc (connected pc) b.

(** [Disconnect] *)
Definition Disconnect (pc : t) : t :=
  let pc := set_retry pc (retryCount pc) None in
  let pc := match ws pc with
            | Some c => set_ws pc (Some (CloseConn c))
            | None => pc
            end in
  set_flags pc false false.

End PolygonClient.

(** [TransformPolygonMessage] *)
Definition TransformPolygonMessage (now : Z) (pm : PolygonMessage) : Message :=
  let channel :=
    if String.eqb (EventType pm) "T" then "trades"
    else if String.eqb (EventType pm) "Q" then "quotes"
    else if String.eqb (EventType pm) "A" then "aggregates"
    else if String.eqb (EventType pm) "AM" then "aggregates"
    else "market-data" in
  {| Type_ := "market-data";
     Channel := channel;
     Data := Some pm;
     MTimestamp := UnixMilli now;
     Symbols := [Symbol pm];
     Metadata := [("source", MString "polygon");
                  ("event_type", MString (EventType pm));
                  ("exchange", MInt (Exchange pm))] |}.

(** ** Downstream sessions (api-handlers.go) *)

Module Client.

(** [Client]. [send] is the buffered channel: its content, oldest
    first, and whether it has been closed. [conn_closed] is the state
    of the client transport and [readDeadline] the read deadline set on
    it, none as long as [SetReadDeadline] has not been called. *)
Record t := {
  conn_closed : bool;
  readDeadline : option Z;
  send : list Message;
  send_closed : bool;
  subscriptions : gset string;
  id : string;
  lastSeen : Z
}.

Definition set_send (c : t) (q : list Message) (cl : bool) : t :=
  {| conn_closed := conn_closed c; readDeadline := readDeadline c;
     send := q; send_closed := cl;
     subscriptions := subscriptions c; id := id c; lastSeen := lastSeen c |}.

Definition set_subscriptions (c : t) (k : gset string) : t :=
  {| conn_closed := conn_closed c; readDeadline := readDeadline c;
     send := send c; send_closed := send_closed c;
     subscriptions := k; id := id c; lastSeen := lastSeen c |}.

Definition set_lastSeen (c : t) (now : Z) : t :=
  {| conn_closed := conn_closed c; readDeadline := readDeadline c;
     send := send c; send_closed := send_closed c;
     subscriptions := subscriptions c; id := id c; lastSeen := now |}.

Definition set_conn_closed (c : t) : t :=
  {| conn_closed := true; readDeadline := readDeadline c;
     send := send c; send_closed := send_closed c;
     subscriptions := subscriptions c; id := id c; lastSeen := lastSeen c |}.

(** [c.conn.SetReadDeadline(t)] *)
Definition SetReadDeadline (c : t) (deadline : Z) : t :=
  {| conn_closed := conn_closed c; readDeadline := Some deadline;
     send := send c; send_closed := send_closed c;
     subscriptions := subscriptions c; id := id c; lastSeen := lastSeen c |}.


(** [make(chan []byte, 256)] *)
Definition send_capacity : Z := 256.

(** [select { case c.send <- data: default: }]. A send on a closed
    channel panics; with room in the buffer the message is appended;
    otherwise the default branch is taken and nothing changes. The
    queue holds the message itself in place of its JSON encoding. *)
Definition trySend (c : t) (data : Message) : option t :=
  if send_closed c then None
  else if Z.of_nat (length (send c)) <? send_capacity
  then Some (set_send c (send c ++ [data]) false)
  else Some c.

End Client.

(** The process-wide variables of api-handlers.go, and the heap of client
    objects they point into. *)
Record Server := {
  heap : gmap nat Client.t;
  clients : gset nat;
  broadcast : list Message;
  subscriptions : gmap string (gset nat);
  polygonSymbols : gmap string Z;
  polygonClient : option PolygonClient.t
}.

Definition set_heap (s : Server) (h : gmap nat Client.t) : Server :=
  {| heap := h; clients := clients s; broadcast := broadcast s;
     subscriptions := subscriptions s; polygonSymbols := polygonSymbols s;
     polygonClient := polygonClient s |}.

Definition set_clients (s : Server) (cs : gset nat) : Server :=
  {| heap := heap s; clients := cs; broadcast := broadcast s;
     subscriptions := subscriptions s; polygonSymbols := polygonSymbols s;
     polygonClient := polygonClient s |}.

Definition set_broadcast (s : Server) (b : list Message) : Server :=
  {| heap := heap s; clients := clients s; broadcast := b;
     subscriptions := subscriptions s; polygonSymbols := polygonSymbols s;
     polygonClient := polygonClient s |}.

Definition set_subscriptions (s : Server) (m : gmap string (gset nat)) : Server :=
  {| heap := heap s; clients := clients s; broadcast := broadcast s;
     subscriptions := m; polygonSymbols := polygonSymbols s;
     polygonClient := polygonClient s |}.

Definition set_polygon (s : Server) (m : gmap string Z)
    (pc : option PolygonClient.t) : Server :=
  {| heap := heap s; clients := clients s; broadcast := broadcast s;
     subscriptions := subscriptions s; polygonSymbols := m;
     polygonClient := pc |}.

(** The state at the start of [main]. *)
Definition initial : Server :=
  {| heap := ∅; clients := ∅; broadcast := []; subscriptions := ∅;
     polygonSymbols := ∅; polygonClient := None |}.

(** [make(chan Message, 1000)] *)
Definition broadcast_capacity : Z := 1000.

(** ** Symbol reference counts *)

(** One iteration of the loop of [subscribeToPolygon]. *)
Definition acquire (acc : gmap string Z * list string) (symbol : string)
  : gmap string Z * list string :=
  let '(counts, newSymbols) := acc in
  match counts !! symbol with
  | Some count => (<[symbol := wrap64 (count + 1)]> counts, newSymbols)
  | None => (<[symbol := 1]> counts, newSymbols ++ [symbol])
  end.

(** [subscribeToPolygon] *)
Definition subscribeToPolygon (symbols : list string) (s : Server)
  : option Server :=
  match polygonClient s with
  | None => Some s
  | Some pc =>
      if negb (PolygonClient.IsConnected pc) then Some s
      else
        let '(counts, newSymbols) :=
          fold_left acquire symbols (polygonSymbols s, []) in
        if 0 <? Z.of_nat (length newSymbols)
        then '(pc, _) ← PolygonClient.Subscribe pc newSymbols;
             Some (set_polygon s counts (Some pc))
        else Some (set_polygon s counts (Some pc))
  end.

(** One iteration of the loop of [unsubscribeFromPolygon]. *)
Definition release (acc : gmap string Z * list string) (symbol : string)
  : gmap string Z * list string :=
  let '(counts, removeSymbols) := acc in
  match counts !! symbol with
  | Some count =>
      if count <=? 1
      then (delete symbol counts, removeSymbols ++ [symbol])
      else (<[symbol := wrap64 (count - 1)]> counts, removeSymbols)
  | None => (counts, removeSymbols)
  end.

(** [unsubscribeFromPolygon] *)
Definition unsubscribeFromPolygon (symbols : list string) (s : Server)
  : option Server :=
  match polygonClient s with
  | None => Some s
  | Some pc =>
      if negb (PolygonClient.IsConnected pc) then Some s
      else
        let '(counts, removeSymbols) :=
          fold_left release symbols (polygonSymbols s, []) in
        if 0 <? Z.of_nat (length removeSymbols)
        then '(pc, _) ← PolygonClient.Unsubscribe pc removeSymbols;
             Some (set_polygon s counts (Some pc))
        else Some (set_polygon s counts (Some pc))
  end.

(** ** Client methods *)

(** [Client.sendMessage] *)
Definition sendMessage (p : nat) (msg : Message) (s : Server) : option Server :=
  c ← heap s !! p;
  c ← Client.trySend c msg;
  Some (set_heap s (<[p := c]> (heap s))).

(** The key under which [Client.subscribe] files a subscription. *)
Definition subscription_key (channel : string) (symbols : list string) : string :=
  match symbols with
  | [] => channel
  | first :: _ => channel +:+ ":" +:+ first
  end.

(** [Client.subscribe], run from its start to its end. Its critical
    sections are given one by one further down ([subscribe_keys],
    [subscribe_registry]). *)
Definition subscribe (now : Z) (p : nat) (channel : string)
    (symbols : list string) (s : Server) : option Server :=
  let key := subscription_key channel symbols in
  c ← heap s !! p;
  let c := Client.set_subscriptions c ({[key]} ∪ Client.subscriptions c) in
  let s := set_heap s (<[p := c]> (heap s)) in
  let s := set_subscriptions s
             (<[key := {[p]} ∪ default ∅ (subscriptions s !! key)]>
                (subscriptions s)) in
  s ← (if (0 <? Z.of_nat (length symbols))
          && (String.eqb channel "trades" || String.eqb channel "quotes"
              || String.eqb channel "market-data")
       then subscribeToPolygon symbols s
       else Some s);
  sendMessage p {| Type_ := "subscribed"; Channel := channel; Data := None;
                   MTimestamp := UnixMilli now; Symbols := symbols;
                   Metadata := [] |} s.

(** [Client.unsubscribe], run from its start to its end. Its critical
    sections are given one by one further down ([unsubscribe_keys],
    [unsubscribe_registry]). *)
Definition unsubscribe (now : Z) (p : nat) (channel : string) (s : Server)
  : option Server :=
  c ← heap s !! p;
  let c := Client.set_subscriptions c (Client.subscriptions c ∖ {[channel]}) in
  let s := set_heap s (<[p := c]> (heap s)) in
  let s := match subscriptions s !! channel with
           | Some subscribed =>
               set_subscriptions s
                 (<[channel := subscribed ∖ {[p]}]> (subscriptions s))
           | None => s
           end in
  sendMessage p {| Type_ := "unsubscribed"; Channel := channel; Data := None;
                   MTimestamp := UnixMilli now; Symbols := [];
                   Metadata := [] |} s.

(** [Client.handleMessage]; [None] is a frame that is not valid JSON. *)
Definition handleMessage (now : Z) (p : nat)
    (message : option SubscriptionRequest) (s : Server) : option Server :=
  match message with
  | None => Some s
  | Some req =>
      if String.eqb (RType req) "subscribe"
      then subscribe now p (RChannel req) (RSymbols req) s
      else if String.eqb (RType req) "unsubscribe"
      then unsubscribe now p (RChannel req) s
      else if String.eqb (RType req) "ping"
      then sendMessage p {| Type_ := "pong"; Channel := ""; Data := None;
                            MTimestamp := UnixMilli now; Symbols := [];
                            Metadata := [] |} s
      else Some s
  end.

(** ** Client management *)

(** [registerClient] *)
Definition registerClient (p : nat) (s : Server) : Server :=
  set_clients s ({[p]} ∪ clients s).

(** The loop of [unregisterClient] over the keys of the client. *)
Definition remove_subscriber (p : nat) (subs : gmap string (gset nat))
    (channel : string) : gmap string (gset nat) :=
  match subs !! channel with
  | Some subscribed => <[channel := subscribed ∖ {[p]}]> subs
  | None => subs
  end.

(** [unregisterClient], run from its start to its end. Closing a
    channel that is already closed panics. The part under
    [clientsLock] alone and the loop under [subscriptionsLock] are
    given one by one further down ([unregister_close],
    [unregister_registry]). *)
Definition unregisterClient (p : nat) (s : Server) : option Server :=
  if decide (p ∈ clients s) then
    c ← heap s !! p;
    if Client.send_closed c then None
    else
      let s := set_clients s (clients s ∖ {[p]}) in
      let s := set_heap s (<[p := Client.set_send c (Client.send c) true]> (heap s)) in
      Some (set_subscriptions s
              (fold_left (remove_subscriber p)
                 (elements (Client.subscriptions c)) (subscriptions s)))
  else Some s.

(** [handleWebSocket]: a new client object at a fresh address, with the
    identifier drawn by [generateClientID]. *)
Definition handleWebSocket (now : Z) (ident : string) (s : Server)
  : nat * Server :=
  let p := fresh (dom (heap s)) in
  let client := {| Client.conn_closed := false; Client.readDeadline := None;
                   Client.send := [];
                   Client.send_closed := false; Client.subscriptions := ∅;
                   Client.id := ident; Client.lastSeen := now |} in
  (p, registerClient p (set_heap s (<[p := client]> (heap s)))).

(** One iteration of the loop of [readPump]: a frame has been read, and
    the goroutine that [readPump] starts for it runs to its end. *)
Definition readPump_message (now : Z) (p : nat)
    (message : option SubscriptionRequest) (s : Server) : option Server :=
  c ← heap s !! p;
  let s := set_heap s (<[p := Client.set_lastSeen c now]> (heap s)) in
  handleMessage now p message s.

(** The start of [readPump]: the first read deadline, sixty seconds
    ahead. *)
Definition readPump_start (now : Z) (p : nat) (s : Server) : option Server :=
  c ← heap s !! p;
  Some (set_heap s
          (<[p := Client.SetReadDeadline c (now + 60 * Second)]> (heap s))).

(** The pong handler installed by [readPump]: it moves the read
    deadline sixty seconds ahead and refreshes [lastSeen]. The two
    readings of the clock in the handler are taken as one. *)
Definition pong (now : Z) (p : nat) (s : Server) : option Server :=
  c ← heap s !! p;
  Some (set_heap s
          (<[p := Client.set_lastSeen
                    (Client.SetReadDeadline c (now + 60 * Second)) now]>
             (heap s))).

(** The deferred block of [readPump], run when the read fails. *)
Definition readPump_exit (p : nat) (s : Server) : option Server :=
  s ← unregisterClient p s;
  c ← heap s !! p;
  Some (set_heap s (<[p := Client.set_conn_closed c]> (heap s))).

(** ** Broadcasting *)

(** [broadcastMessage] *)
Definition broadcastMessage (msg : Message) (s : Server) : Server :=
  if Z.of_nat (length (broadcast s)) <? broadcast_capacity
  then set_broadcast s (broadcast s ++ [msg])
  else s.

(** The inner loop of [handleMessages] over the subscribed clients. *)
Fixpoint deliver (data : Message) (targets : list nat)
    (h : gmap nat Client.t) : option (gmap nat Client.t) :=
  match targets with
  | [] => Some h
  | p :: rest =>
      c ← h !! p;
      c ← Client.trySend c data;
      deliver data rest (<[p := c]> h)
  end.

(** One iteration of [handleMessages]: the oldest broadcast message is
    taken and handed to the clients filed under its channel. *)
Definition handleMessages (s : Server) : option Server :=
  match broadcast s with
  | [] => Some s
  | msg :: rest =>
      let s := set_broadcast s rest in
      match subscriptions s !! Channel msg with
      | Some subscribedClients =>
          h ← deliver msg (elements subscribedClients) (heap s);
          Some (set_heap s h)
      | None => Some s
      end
  end.

(** [handlePolygonMessage]. The writes to the cache, the database and
    Redis are side channels of the broadcast and are left out. *)
Definition handlePolygonMessage (now : Z) (s : Server) (pm : PolygonMessage)
  : Server :=
  broadcastMessage (TransformPolygonMessage now pm) s.

(** The upstream reader handles one frame: the client state is updated
    and every data record goes through [handlePolygonMessage]. *)
Definition polygon_frame (now : Z) (data : PolygonClient.Batch) (s : Server)
  : Server :=
  match polygonClient s with
  | None => s
  | Some pc =>
      let '(pc, out) := PolygonClient.handleMessage (pc, []) data in
      fold_left (handlePolygonMessage now)
        out (set_polygon s (polygonSymbols s) (Some pc))
  end.

(** The read of the upstream reader fails: its deferred block runs on the
    upstream client. *)
Definition upstream_read_failed (s : Server) : Server :=
  match polygonClient s with
  | Some pc =>
      if PolygonClient.reader pc
      then set_polygon s (polygonSymbols s)
             (Some (PolygonClient.readMessages_exit pc))
      else s
  | None => s
  end.

(** The reconnect timer of the upstream client fires. *)
Definition reconnect_fired (now : Z) (dial : bool)
    (arrivals : list PolygonClient.Batch) (order : list string) (s : Server)
  : option Server :=
  match polygonClient s with
  | Some pc =>
      match PolygonClient.reconnectTimer pc with
      | Some _ =>
          '(pc, out) ← PolygonClient.reconnect dial arrivals order pc;
          Some (fold_left (handlePolygonMessage now) out
                  (set_polygon s (polygonSymbols s) (Some pc)))
      | None => Some s
      end
  | None => Some s
  end.

(** [initPolygon] *)
Definition defaultSymbols : list string :=
  ["SPY"; "QQQ"; "DIA"; "AAPL"; "TSLA"; "NVDA"].

Definition initPolygon (now : Z) (key : string) (dial : bool)
    (arrivals : list PolygonClient.Batch) (s : Server) : option Server :=
  if String.eqb key "" then Some s
  else
    let pc := PolygonClient.NewPolygonClient key in
    '(pc, out, err) ← PolygonClient.Connect dial arrivals pc;
    let s := fold_left (handlePolygonMessage now) out s in
    match err with
    | Some _ => Some (set_polygon s (polygonSymbols s) None)
    | None =>
        '(pc, _) ← PolygonClient.Subscribe pc defaultSymbols;
        Some (set_polygon s (polygonSymbols s) (Some pc))
    end.

(** ** Stale connections *)

Definition cleanupInterval : Z := 60 * Second.
Definition staleThreshold : Z := 120 * Second.

Definition is_stale (now : Z) (c : Client.t) : bool :=
  staleThreshold <? Since now (Client.lastSeen c).

(** One tick of [cleanupStaleConnections]: the transports of the stale
    clients are closed. *)
Definition stale_clients (now : Z) (s : Server) : list nat :=
  List.filter (fun p => match heap s !! p with
                        | Some c => is_stale now c
                        | None => false
                        end) (elements (clients s)).

Definition close_conn (h : gmap nat Client.t) (p : nat) : gmap nat Client.t :=
  match h !! p with
  | Some c => <[p := Client.set_conn_closed c]> h
  | None => h
  end.

Definition cleanupStaleConnections (now : Z) (s : Server) : Server :=
  set_heap s (fold_left close_conn (stale_clients now s) (heap s)).

(** A [readPump] blocked on a transport that has been closed gets a read
    error and leaves through its deferred block. *)
Definition readPump_observes_close (p : nat) (s : Server) : option Server :=
  match heap s !! p with
  | Some c => if Client.conn_closed c && bool_decide (p ∈ clients s)
              then readPump_exit p s else Some s
  | None => Some s
  end.

(** ** Guards and invariants *)

(** The two guards on the way from [Client.subscribe] into the loop of
    [subscribeToPolygon]: the channel is one of those forwarded upstream,
    and the upstream client exists, connected and authenticated. *)
Definition forwards_upstream (channel : string) (s : Server) : bool :=
  (String.eqb channel "trades" || String.eqb channel "quotes"
   || String.eqb channel "market-data")
  && match polygonClient s with
     | Some pc => PolygonClient.IsConnected pc
     | None => false
     end.

(** The registry only files sessions under keys that the session object
    itself holds. *)
Definition mirrored (s : Server) : Prop :=
  ∀ key subscribed p,
    subscriptions s !! key = Some subscribed →
    p ∈ subscribed →
    ∃ c, heap s !! p = Some c ∧ key ∈ Client.subscriptions c.

(** A connected upstream client has a transport. *)
Definition has_transport (s : Server) : Prop :=
  ∀ pc, polygonClient s = Some pc →
        PolygonClient.connected pc = true →
        is_Some (PolygonClient.ws pc).

(** Every session filed in the registry has its queue open. *)
Definition open_queues (s : Server) : Prop :=
  ∀ key subscribed p,
    subscriptions s !! key = Some subscribed →
    p ∈ subscribed →
    ∃ c, heap s !! p = Some c ∧ Client.send_closed c = false.

(** Every session object of [h] with an open queue is still in [h'] with
    an open queue. *)
Definition open_kept (h h' : gmap nat Client.t) : Prop :=
  ∀ p c, h !! p = Some c → Client.send_closed c = false →
         ∃ c', h' !! p = Some c' ∧ Client.send_closed c' = false.

(** No unsubscribe frame has been written to the upstream transport. *)
Definition upstream_quiet (s : Server) : Prop :=
  ∀ pc c, polygonClient s = Some pc →
          PolygonClient.ws pc = Some c →
          Forall (fun f => Action f ≠ "unsubscribe") (written c).

(** Whether a byte occurs in a string. *)
Fixpoint contains (s : string) (b : Ascii.ascii) : bool :=
  match s with
  | EmptyString => false
  | String a rest => Ascii.eqb a b || contains rest b
  end.

(** Every session object of [h] is still in [h'] and holds the same
    keys. *)
Definition keys_preserved (h h' : gmap nat Client.t) : Prop :=
  ∀ p c, h !! p = Some c →
         ∃ c', h' !! p = Some c'
               ∧ Client.subscriptions c' = Client.subscriptions c.

(** ** Events *)

(** What happens to the gateway: it starts its upstream session, a client
    connects, a client frame or a pong is read, a client read fails (at
    any time, or because the transport was closed under it), an upstream
    frame is read, the upstream read fails, the reconnect timer fires,
    another producer hands a message to [broadcastMessage], the
    broadcaster takes a message, the sweeper ticks. The one other
    producer in the file is [startRedisSubscriber], which [main] does
    not start: the gateway as it is built has no [Published] event. *)
Inductive event :=
| Started (now : Z) (key : string) (dial : bool)
    (arrivals : list PolygonClient.Batch)
| Accepted (now : Z) (ident : string)
| Received (now : Z) (p : nat) (message : option SubscriptionRequest)
| Ponged (now : Z) (p : nat)
| ReadFailed (p : nat)
| ReadClosed (p : nat)
| Upstream (now : Z) (data : PolygonClient.Batch)
| UpstreamFailed
| ReconnectFired (now : Z) (dial : bool) (arrivals : list PolygonClient.Batch)
    (order : list string)
| Published (msg : Message)
| Broadcast
| Sweep (now : Z).

Definition step (s : Server) (e : event) : option Server :=
  match e with
  | Started now key dial arrivals => initPolygon now key dial arrivals s
  | Accepted now ident => Some (snd (handleWebSocket now ident s))
  | Received now p message => readPump_message now p message s
  | Ponged now p => pong now p s
  | ReadFailed p => readPump_exit p s
  | ReadClosed p => readPump_observes_close p s
  | Upstream now data => Some (polygon_frame now data s)
  | UpstreamFailed => Some (upstream_read_failed s)
  | ReconnectFired now dial arrivals order =>
      reconnect_fired now dial arrivals order s
  | Published msg => Some (broadcastMessage msg s)
  | Broadcast => handleMessages s
  | Sweep now => Some (cleanupStaleConnections now s)
  end.

(** A run: the handlers of the events in order, stopping at a panic. *)
Definition trace (events : list event) (s : Server) : option Server :=
  fold_left (fun acc e => acc ≫= fun s => step s e) events (Some s).

(** ** Scenarios

    Concrete runs of the program, used below to evaluate it. *)

(** The queue of a session. *)
Definition queue_of (p : nat) (s : Server) : option (list Message) :=
  Client.send <$> heap s !! p.

(** The frames written to the upstream transport so far. *)
Definition upstream_frames (s : Server) : option (list PolygonFrame) :=
  pc ← polygonClient s; c ← PolygonClient.ws pc; Some (written c).

(** The sessions filed under a key, in increasing address order ([[]] when
    the key has no entry). *)
Definition subscribers (key : string) (s : Server) : list nat :=
  match subscriptions s !! key with
  | Some subscribed => merge_sort Nat.le (elements subscribed)
  | None => []
  end.

Definition t0 : Z := 1700000000 * Second.

Definition status_record (status message : string) : option PolygonRecord :=
  Some {| Ev := ""; Status := status; StatusText := message; Decoded := None |}.

Definition auth_success : PolygonClient.Batch :=
  Some [status_record "auth_success" "authenticated"].

Definition auth_failed : PolygonClient.Batch :=
  Some [status_record "auth_failed" "invalid key"].

(** The record {"ev":"T","sym":"AAPL","p":150.25,"s":100,"x":4,
    "t":1700000000000}. *)
Definition trade_AAPL : PolygonMessage :=
  {| EventType := "T"; Symbol := "AAPL"; Price := 601 # 4; Size := 100;
     Exchange := 4; Timestamp := 1700000000000; Conditions := [];
     BidPrice := 0 # 1; BidSize := 0; AskPrice := 0 # 1; AskSize := 0;
     Open := 0 # 1; High := 0 # 1; Low := 0 # 1; Close := 0 # 1;
     Volume := 0; VWAP := 0 # 1 |}.

Definition trade_frame : PolygonClient.Batch :=
  Some [Some {| Ev := "T"; Status := ""; StatusText := "";
                Decoded := Some trade_AAPL |}].

Definition subscribe_request (now : Z) (p : nat) (channel : string)
    (symbols : list string) : event :=
  Received now p
    (Some {| RType := "subscribe"; RChannel := channel; RSymbols := symbols |}).

Definition unsubscribe_request (now : Z) (p : nat) (channel : string)
    (symbols : list string) : event :=
  Received now p
    (Some {| RType := "unsubscribe"; RChannel := channel;
             RSymbols := symbols |}).

(** Start-up with a valid key: the upstream session gets connected and
    authenticated and the default symbols are subscribed. *)
Definition started : list event :=
  [Started t0 "key" true [auth_success]].

(** Scenario 1: one subscriber, one symbol, one trade. *)
Definition single_subscriber : option Server :=
  trace (started ++
         [Accepted t0 "A";
          subscribe_request (t0 + 1) 0 "trades" ["AAPL"];
          Upstream (t0 + 2) trade_frame;
          Broadcast]) initial.

(** The same run with a subscription that names no symbol. *)
Definition single_subscriber_all : option Server :=
  trace (started ++
         [Accepted t0 "A";
          subscribe_request (t0 + 1) 0 "trades" [];
          Upstream (t0 + 2) trade_frame;
          Broadcast]) initial.

(** Scenario 2: two sessions subscribe to AAPL, then both unsubscribe. *)
Definition two_subscribed : list event :=
  started ++
  [Accepted t0 "A";
   Accepted t0 "B";
   subscribe_request (t0 + 1) 0 "trades" ["AAPL"];
   subscribe_request (t0 + 2) 1 "trades" ["AAPL"]].

Definition reference_counting : option Server :=
  trace (two_subscribed ++
         [unsubscribe_request (t0 + 3) 0 "trades" ["AAPL"];
          unsubscribe_request (t0 + 4) 1 "trades" ["AAPL"]]) initial.

(** The same, with both sessions torn down as well. *)
Definition reference_counting_teardown : option Server :=
  trace (two_subscribed ++
         [unsubscribe_request (t0 + 3) 0 "trades" ["AAPL"];
          unsubscribe_request (t0 + 4) 1 "trades" ["AAPL"];
          ReadFailed 0;
          ReadFailed 1]) initial.

(** A session subscribes and is torn down. *)
Definition subscribe_then_teardown : option Server :=
  trace (started ++
         [Accepted t0 "A";
          subscribe_request (t0 + 1) 0 "trades" ["IBM"];
          ReadFailed 0]) initial.

(** Scenario 4: the upstream connection is lost, and each reconnect
    that follows dials through and is refused authentication; the
    reader that [Connect] started then sees the transport that
    [Connect] closed. [n] such rounds after the loss. *)
Definition refused_reconnects (n : nat) : option Server :=
  trace (started
         ++ [UpstreamFailed]
         ++ concat (replicate n
                      [ReconnectFired (t0 + 5 * Second) true [auth_failed] [];
                       UpstreamFailed])) initial.

(** The gateway after start-up with a valid key, with one session
    accepted. *)
Definition one_session : Server :=
  Eval vm_compute in
    default initial (trace (started ++ [Accepted t0 "A"]) initial).

(** The attempt counter and the pending timer of the upstream
    session. *)
Definition schedule (s : Server) : option (Z * option Z) :=
  (fun pc => (PolygonClient.retryCount pc, PolygonClient.reconnectTimer pc))
    <$> polygonClient s.

(** A multi-symbol subscription on the aggregates channel. *)
Definition aggregates_subscription : option Server :=
  trace (started ++
         [Accepted t0 "A";
          subscribe_request (t0 + 1) 0 "aggregates" ["AAPL"; "MSFT"]])
    initial.

(** Scenario 3: a session whose queue is full, next to one whose queue
    is empty, both filed under "trades"; and [n] trades arriving from
    upstream and broadcast to them. *)
Definition filler : Message :=
  {| Type_ := "pong"; Channel := ""; Data := None; MTimestamp := 0;
     Symbols := []; Metadata := [] |}.

Definition slow_client : Client.t :=
  {| Client.conn_closed := false;
     Client.readDeadline := Some (t0 + 60 * Second);
     Client.send := replicate 256 filler;
     Client.send_closed := false; Client.subscriptions := {["trades"]};
     Client.id := "A"; Client.lastSeen := t0 |}.

Definition fast_client : Client.t :=
  {| Client.conn_closed := false;
     Client.readDeadline := Some (t0 + 60 * Second);
     Client.send := [];
     Client.send_closed := false; Client.subscriptions := {["trades"]};
     Client.id := "B"; Client.lastSeen := t0 |}.

Definition ready_upstream : PolygonClient.t :=
  PolygonClient.set_reader
    (PolygonClient.set_flags
       (PolygonClient.set_ws (PolygonClient.NewPolygonClient "key")
          (Some {| closed := false; written := [] |})) true true) true.

Definition slow_and_fast : Server :=
  {| heap := {[ 0%nat := slow_client; 1%nat := fast_client ]};
     clients := {[ 0%nat; 1%nat ]};
     broadcast := [];
     subscriptions := {[ "trades" := {[ 0%nat; 1%nat ]} ]};
     polygonSymbols := ∅;
     polygonClient := Some ready_upstream |}.

Definition slow_consumer (n : nat) : option Server :=
  trace (concat (replicate n [Upstream (t0 + 1) trade_frame; Broadcast]))
    slow_and_fast.

(** Start-up with a key that the upstream rejects: [Connect], then the
    reader goroutine seeing the transport closed by [Connect]. *)
Definition rejected_key (arrivals : list PolygonClient.Batch)
  : option (PolygonClient.t * option PolygonClient.error) :=
  '(pc, _, err) ← PolygonClient.Connect true arrivals
                    (PolygonClient.NewPolygonClient "bad-key");
  Some (PolygonClient.reader_observes_close pc, err).

(** Start-up when the dial itself fails. *)
Definition failed_dial : option (PolygonClient.t * option PolygonClient.error) :=
  '(pc, _, err) ← PolygonClient.Connect false []
                    (PolygonClient.NewPolygonClient "key");
  Some (PolygonClient.reader_observes_close pc, err).

(** The confirmation messages of the scenarios. *)
Definition subscribed_AAPL : Message :=
  {| Type_ := "subscribed"; Channel := "trades"; Data := None;
     MTimestamp := 1700000000000; Symbols := ["AAPL"]; Metadata := [] |}.

Definition unsubscribed_trades : Message :=
  {| Type_ := "unsubscribed"; Channel := "trades"; Data := None;
     MTimestamp := 1700000000000; Symbols := []; Metadata := [] |}.

Definition market_data_AAPL : Message :=
  {| Type_ := "market-data"; Channel := "trades"; Data := Some trade_AAPL;
     MTimestamp := 1700000000000; Symbols := ["AAPL"];
     Metadata := [("source", MString "polygon");
                  ("event_type", MString "T");
                  ("exchange", MInt 4)] |}.

(** The frames written upstream by start-up with a valid key. *)
Definition startup_frames : list PolygonFrame :=
  [{| Action := "auth"; Params := "key" |};
   {| Action := "subscribe";
      Params := "T.SPY,Q.SPY,A.SPY,T.QQQ,Q.QQQ,A.QQQ,T.DIA,Q.DIA,A.DIA,"
                +:+ "T.AAPL,Q.AAPL,A.AAPL,T.TSLA,Q.TSLA,A.TSLA,"
                +:+ "T.NVDA,Q.NVDA,A.NVDA" |}].

(** ** The rest of the gateway

    The functions of the two files that the scenarios above do not
    exercise: the write loop, the monitoring readers, the configuration
    helpers, and the side channels of [handlePolygonMessage]. *)

(** [GetSubscriptions]: the subscribed symbols, each once, in one of the
    orders in which a loop over the map may visit them. *)
Definition GetSubscriptions (pc : PolygonClient.t) : list string :=
  elements (PolygonClient.subscriptions pc).

(** What one iteration of [writePump] on the queue does: it writes one
    text frame, writes the close message and returns, returns on a write
    error, or finds nothing to receive. *)
Inductive pumped :=
| Frame (messages : list Message)
| CloseFrame
| Exited
| Blocked.

(** [writePump], the receive case of its [select]. A receive on a closed
    channel still yields the buffered messages; with the buffer empty it
    yields [!ok]. [writer] tells whether [NextWriter] returns a writer
    and [flush] whether the network takes the frame; a closed transport
    takes none. The frame carries the received message and the [n]
    messages queued behind it, which are received whether or not the
    frame can be flushed. On return the deferred block closes the
    transport. *)
Definition writePump (writer flush : bool) (p : nat) (s : Server)
  : option (pumped * Server) :=
  c ← heap s !! p;
  match Client.send c with
  | [] =>
      if Client.send_closed c
      then Some (CloseFrame,
                 set_heap s (<[p := Client.set_conn_closed c]> (heap s)))
      else Some (Blocked, s)
  | message :: queued =>
      if negb writer
      then Some (Exited,
                 set_heap s
                   (<[p := Client.set_conn_closed
                             (Client.set_send c queued (Client.send_closed c))]>
                      (heap s)))
      else if flush && negb (Client.conn_closed c)
      then Some (Frame (message :: queued),
                 set_heap s
                   (<[p := Client.set_send c [] (Client.send_closed c)]>
                      (heap s)))
      else Some (Exited,
                 set_heap s
                   (<[p := Client.set_conn_closed
                             (Client.set_send c [] (Client.send_closed c))]>
                      (heap s)))
  end.

(** [getClientCount] *)
Definition getClientCount (s : Server) : Z := Z.of_nat (size (clients s)).

(** The [channelCount] that [handleStats] reports. *)
Definition channelCount (s : Server) : Z := Z.of_nat (size (subscriptions s)).

(** [os.Getenv]: the value of a variable, empty when it is not set. *)
Definition Getenv (env : gmap string string) (key : string) : string :=
  default "" (env !! key).

(** [getEnv] *)
Definition getEnv (env : gmap string string) (key fallback : string) : string :=
  let value := Getenv env key in
  if negb (String.eqb value "") then value else fallback.

(** [upgrader.CheckOrigin], on the Origin header of the request (empty
    when the header is absent). *)
Definition CheckOrigin (env : gmap string string) (origin : string) : bool :=
  let allowedOrigins := getEnv env "ALLOWED_ORIGINS" "*" in
  if String.eqb allowedOrigins "*" then true
  else String.eqb origin allowedOrigins.

(** [getStockName] *)
Definition names : gmap string string :=
  list_to_map
    [("AAPL", "Apple Inc."); ("TSLA", "Tesla Inc."); ("NVDA", "NVIDIA Corp.");
     ("MSFT", "Microsoft Corp."); ("GOOGL", "Alphabet Inc.");
     ("AMZN", "Amazon.com Inc."); ("META", "Meta Platforms");
     ("AMD", "Advanced Micro Devices")].

Definition getStockName (symbol : string) : string :=
  match names !! symbol with
  | Some name => name
  | None => symbol +:+ " Inc."
  end.

(** [randString]. Each byte is drawn by its own reading of the clock;
    [clock] lists the [n] readings of [UnixNano]. Go's [%] truncates
    towards zero, and an index below zero panics. *)
Definition letters : string := "abcdefghijklmnopqrstuvwxyz0123456789".

Fixpoint randString (clock : list Z) : option string :=
  match clock with
  | [] => Some ""
  | now :: rest =>
      let i := Z.rem now (Z.of_nat (String.length letters)) in
      if i <? 0 then None
      else
        b ← String.get (Z.to_nat i) letters;
        tail ← randString rest;
        Some (String b tail)
  end.

(** *** The side channels of [handlePolygonMessage] *)

(** A JSON value handed to the cache: a number, or an object given by its
    fields. *)
Inductive field :=
| FNumber (q : Q)
| FInteger (z : Z)
| FString (s : string).

Inductive cached :=
| VNumber (q : Q)
| VObject (fields : list (string * field)).

(** The commands that the cache functions send to the store. *)
Inductive command :=
| SET (key : string) (value : cached) (ttl : Z)
| LPUSH (key : string) (value : cached)
| LTRIM (key : string) (start stop : Z)
| EXPIRE (key : string) (ttl : Z).

Definition TTL_HOT_DATA : Z := 3600.
Definition TTL_PRICE : Z := 300.
Definition TTL_GEX : Z := 1800.
Definition TTL_FLOW : Z := 3600.
Definition TTL_GREEKS : Z := 600.
Definition TTL_METRICS : Z := 900.

(** [CacheSet] and [CacheLPush] with the store connected. *)
Definition CacheSet (key : string) (value : cached) (ttl : Z) : list command :=
  [SET key value ttl].

Definition CacheLPush (key : string) (value : cached) (maxLength : Z) (ttl : Z)
  : list command :=
  [LPUSH key value; LTRIM key 0 (wrap64 (maxLength - 1)); EXPIRE key ttl].

Definition CachePrice (symbol : string) (price : Q) : list command :=
  CacheSet ("price:" +:+ symbol) (VNumber price) (wrap64 (TTL_PRICE * Second)).

Definition CacheFlow (symbol : string) (flowData : cached) : list command :=
  CacheLPush ("flow:" +:+ symbol) flowData 100 (wrap64 (TTL_FLOW * Second)).

Definition CacheTrade (symbol : string) (trade : cached) : list command :=
  CacheSet ("trade:" +:+ symbol) trade (wrap64 (TTL_PRICE * Second)).

Definition CacheQuote (symbol : string) (quote : cached) : list command :=
  CacheSet ("quote:" +:+ symbol) quote (wrap64 (TTL_PRICE * Second)).

Definition CacheAggregate (symbol : string) (aggregate : cached)
  : list command :=
  CacheSet ("agg:1min:" +:+ symbol) aggregate (wrap64 (TTL_METRICS * Second)).

(** [x > 0] on a float field held as a rational. *)
Definition positive (q : Q) : bool := 0 <? Qnum q.

(** The first goroutine of [handlePolygonMessage]: the commands sent to
    the cache for one record. [ready] is [IsCacheReady()]. *)
Definition cache_writes (ready : bool) (pm : PolygonMessage) : list command :=
  if ready && negb (String.eqb (Symbol pm) "") then
    (if String.eqb (EventType pm) "T" && positive (Price pm) then
       CachePrice (Symbol pm) (Price pm)
       ++ CacheTrade (Symbol pm)
            (VObject [("price", FNumber (Price pm));
                      ("size", FInteger (Size pm));
                      ("timestamp", FInteger (Timestamp pm));
                      ("exchange", FInteger (Exchange pm))])
       ++ (if 0 <? Size pm then
             CacheFlow (Symbol pm)
               (VObject [("time", FInteger (Timestamp pm));
                         ("price", FNumber (Price pm));
                         ("size", FInteger (Size pm));
                         ("exchange", FInteger (Exchange pm));
                         ("symbol", FString (Symbol pm))])
           else [])
     else [])
    ++ (if String.eqb (EventType pm) "Q" then
          CacheQuote (Symbol pm)
            (VObject [("bid_price", FNumber (BidPrice pm));
                      ("bid_size", FInteger (BidSize pm));
                      ("ask_price", FNumber (AskPrice pm));
                      ("ask_size", FInteger (AskSize pm));
                      ("timestamp", FInteger (Timestamp pm))])
        else [])
    ++ (if String.eqb (EventType pm) "A" || String.eqb (EventType pm) "AM" then
          CacheAggregate (Symbol pm)
            (VObject [("open", FNumber (Open pm));
                      ("high", FNumber (High pm));
                      ("low", FNumber (Low pm));
                      ("close", FNumber (Close pm));
                      ("volume", FInteger (Volume pm));
                      ("vwap", FNumber (VWAP pm));
                      ("timestamp", FInteger (Timestamp pm))])
        else [])
  else [].

(** The calls of the second goroutine of [handlePolygonMessage] into the
    database layer, with their arguments. The time argument is the
    record's timestamp in milliseconds. *)
Inductive written_row :=
| WriteTrade (symbol : string) (price : Q) (size : Z) (exchange : string)
    (time : Z)
| WriteQuote (symbol : string) (bid ask : Q) (bidSize askSize : Z)
    (exchange : string) (time : Z)
| WriteAggregate (symbol : string) (open high low close vwap : Q)
    (volume tradeCount : Z) (time : Z).

(** [fmt.Sprintf("EX%d", pm.Exchange)] *)
Definition exchangeStr (pm : PolygonMessage) : string :=
  "EX" +:+ pretty (Exchange pm).

(** The second goroutine. [up] is [db != nil]; [tradeCount] is
    [int(pm.TradeCount)], a field that is declared with the database
    layer. *)
Definition db_writes (tradeCount : PolygonMessage → Z) (up : bool)
    (pm : PolygonMessage) : list written_row :=
  if up then
    (if String.eqb (EventType pm) "T" && negb (String.eqb (Symbol pm) "")
        && positive (Price pm)
     then [WriteTrade (Symbol pm) (Price pm) (Size pm) (exchangeStr pm)
             (Timestamp pm)]
     else [])
    ++ (if String.eqb (EventType pm) "Q" && negb (String.eqb (Symbol pm) "")
        then [WriteQuote (Symbol pm) (BidPrice pm) (AskPrice pm) (BidSize pm)
                (AskSize pm) (exchangeStr pm) (Timestamp pm)]
        else [])
    ++ (if (String.eqb (EventType pm) "A" || String.eqb (EventType pm) "AM")
           && negb (String.eqb (Symbol pm) "")
        then [WriteAggregate (Symbol pm) (Open pm) (High pm) (Low pm)
                (Close pm) (VWAP pm) (Volume pm) (tradeCount pm)
                (Timestamp pm)]
        else [])
  else [].

(** *** The browser client (lib/services/railway-websocket-client.ts) *)

(** [WebSocketMessage] as the client decodes it: an optional field is
    [None] when the frame does not carry it. *)
Record WebSocketMessage := {
  WType : string;
  WChannel : option string;
  WSymbols : option (list string)
}.

(** [Subscription], without its callback. *)
Record Subscription := {
  SubId : string;
  SubChannel : string;
  SubSymbols : list string
}.

(** How a [Message] of the gateway reaches the client: [channel] and
    [symbols] are tagged [omitempty], so an empty channel and an empty
    symbol list are not on the wire. *)
Definition on_wire (m : Message) : WebSocketMessage :=
  {| WType := Type_ m;
     WChannel := if String.eqb (Channel m) "" then None else Some (Channel m);
     WSymbols := match Symbols m with [] => None | l => Some l end |}.

(** [Array.prototype.includes] on strings. *)
Definition includes (l : list string) (x : string) : bool :=
  existsb (String.eqb x) l.

(** [messageMatchesSubscription] *)
Definition messageMatchesSubscription (message : WebSocketMessage)
    (sub : Subscription) : bool :=
  if negb (bool_decide (WChannel message = Some (SubChannel sub))) then false
  else
    match WSymbols message with
    | Some symbols =>
        if (0 <? Z.of_nat (length (SubSymbols sub)))
           && negb (existsb (includes symbols) (SubSymbols sub))
        then false
        else true
    | None => true
    end.

(** *** Predicates used below *)

(** What [PolygonClient.handleMessage] hands on from one record of a
    batch. *)
Definition forwarded (r : option PolygonRecord) : list PolygonMessage :=
  match r with
  | Some m =>
      if negb (String.eqb (Status m) "") then []
      else if negb (String.eqb (Ev m) "") then
             match Decoded m with Some pm => [pm] | None => [] end
           else []
  | None => []
  end.

(** The verdict on authentication that one record of a batch carries, if
    any. *)
Definition verdict (r : option PolygonRecord) : option bool :=
  match r with
  | Some m =>
      if String.eqb (Status m) "auth_success" then Some true
      else if String.eqb (Status m) "auth_failed" then Some false
      else None
  | None => None
  end.

(** Every registered session has a session object, and its queue is
    open. *)
Definition registered_open (s : Server) : Prop :=
  ∀ p, p ∈ clients s →
       ∃ c, heap s !! p = Some c ∧ Client.send_closed c = false.

(** What the registries see of a session object. *)
Definition filing (c : Client.t) : gset string * bool :=
  (Client.subscriptions c, Client.send_closed c).

(** Two states with the same registered sessions and the same registry,
    whose session objects hold the same keys and have the same queues
    open. *)
Definition same_sessions (s s' : Server) : Prop :=
  clients s' = clients s
  ∧ subscriptions s' = subscriptions s
  ∧ ∀ p, filing <$> heap s' !! p = filing <$> heap s !! p.

(** Two states of the upstream session that agree on the connection
    flag, the reader, the timer, the attempt counter and the
    configuration. *)
Definition same_schedule (pc pc' : PolygonClient.t) : Prop :=
  PolygonClient.connected pc' = PolygonClient.connected pc
  ∧ PolygonClient.reader pc' = PolygonClient.reader pc
  ∧ PolygonClient.reconnectTimer pc' = PolygonClient.reconnectTimer pc
  ∧ PolygonClient.retryCount pc' = PolygonClient.retryCount pc
  ∧ PolygonClient.reconnectDelay pc' = PolygonClient.reconnectDelay pc
  ∧ PolygonClient.maxRetries pc' = PolygonClient.maxRetries pc.

(** The upstream session is as [NewPolygonClient] configures it and has
    not got past a first reconnect attempt. *)
Definition first_attempt (s : Server) : Prop :=
  ∀ pc, polygonClient s = Some pc →
        PolygonClient.reconnectDelay pc = 5 * Second
        ∧ PolygonClient.maxRetries pc = 10
        ∧ (PolygonClient.reader pc = true → PolygonClient.retryCount pc = 0)
        ∧ 0 ≤ PolygonClient.retryCount pc ≤ 1
        ∧ (∀ delay, PolygonClient.reconnectTimer pc = Some delay →
                    delay = 5 * Second).

(** The upstream session is down with no reader and no timer left to
    bring it back. *)
Definition upstream_lost (s : Server) : Prop :=
  ∃ pc, polygonClient s = Some pc
        ∧ PolygonClient.connected pc = false
        ∧ PolygonClient.reconnectTimer pc = None
        ∧ PolygonClient.reader pc = false.

(** The event that runs [initPolygon]. *)
Definition starts (e : event) : bool :=
  match e with
  | Started _ _ _ _ => true
  | _ => false
  end.

(** A turn of the gateway: an event is handled, or the write loop of a
    session goes through one iteration. *)
Inductive turn :=
| Handled (e : event)
| Pumped (writer flush : bool) (p : nat).

Definition turn_step (s : Server) (t : turn) : option Server :=
  match t with
  | Handled e => step s e
  | Pumped writer flush p => snd <$> writePump writer flush p s
  end.

(** A run with the write loops: the turns in order, stopping at a
    panic. *)
Definition run (turns : list turn) (s : Server) : option Server :=
  fold_left (fun acc t => acc ≫= fun s => turn_step s t) turns (Some s).

(** The turn that runs [initPolygon]. *)
Definition restarts (t : turn) : bool :=
  match t with
  | Handled e => starts e
  | Pumped _ _ _ => false
  end.

(** [msgs] offered to a session one after the other. *)
Definition offer (p : nat) (msgs : list Message) (s : Server) : option Server :=
  fold_left (fun acc msg => acc ≫= sendMessage p msg) msgs (Some s).

(** *** The critical sections of the session handlers

    [readPump] hands every frame to a goroutine of its own
    ([go c.handleMessage(message)]), and a handler takes its locks one
    after the other. What runs without interruption is one critical
    section; the sections of different goroutines interleave. *)

(** [readPump] after a successful read: [c.lastSeen = time.Now()]. *)
Definition readPump_seen (now : Z) (p : nat) (s : Server) : option Server :=
  c ← heap s !! p;
  Some (set_heap s (<[p := Client.set_lastSeen c now]> (heap s))).

(** [Client.subscribe] under [c.mu]: the key is recorded in the
    session. *)
Definition subscribe_keys (p : nat) (key : string) (s : Server)
  : option Server :=
  c ← heap s !! p;
  Some (set_heap s
          (<[p := Client.set_subscriptions c
                    ({[key]} ∪ Client.subscriptions c)]> (heap s))).

(** [Client.subscribe] under [subscriptionsLock]: the session is filed
    under the key. *)
Definition subscribe_registry (p : nat) (key : string) (s : Server) : Server :=
  set_subscriptions s
    (<[key := {[p]} ∪ default ∅ (subscriptions s !! key)]> (subscriptions s)).

(** [Client.unsubscribe] under [c.mu]. *)
Definition unsubscribe_keys (p : nat) (channel : string) (s : Server)
  : option Server :=
  c ← heap s !! p;
  Some (set_heap s
          (<[p := Client.set_subscriptions c
                    (Client.subscriptions c ∖ {[channel]})]> (heap s))).

(** [Client.unsubscribe] under [subscriptionsLock]. *)
Definition unsubscribe_registry (p : nat) (channel : string) (s : Server)
  : Server :=
  match subscriptions s !! channel with
  | Some subscribed =>
      set_subscriptions s (<[channel := subscribed ∖ {[p]}]> (subscriptions s))
  | None => s
  end.

(** [unregisterClient] under [clientsLock] alone, up to
    [close(client.send)]: whether the session was registered, and the
    state. *)
Definition unregister_close (p : nat) (s : Server) : option (bool * Server) :=
  if decide (p ∈ clients s) then
    c ← heap s !! p;
    if Client.send_closed c then None
    else
      let s := set_clients s (clients s ∖ {[p]}) in
      Some (true,
            set_heap s
              (<[p := Client.set_send c (Client.send c) true]> (heap s)))
  else Some (false, s).

(** The loop of [unregisterClient] under [subscriptionsLock], over the
    keys that the session holds when the loop runs. The loop reads
    [client.subscriptions] without taking [c.mu]; the read is taken
    here as one look at the key set. *)
Definition unregister_registry (p : nat) (s : Server) : option Server :=
  c ← heap s !! p;
  Some (set_subscriptions s
          (fold_left (remove_subscriber p)
             (elements (Client.subscriptions c)) (subscriptions s))).

(** [c.conn.Close()] *)
Definition conn_close (p : nat) (s : Server) : option Server :=
  c ← heap s !! p;
  Some (set_heap s (<[p := Client.set_conn_closed c]> (heap s))).

(** A move of the gateway: a turn in which a handler runs from its
    start to its end, or one critical section of a handler. *)
Inductive move :=
| Turn (t : turn)
| Reading (now : Z) (p : nat)
| Seen (now : Z) (p : nat)
| KeysAdd (p : nat) (key : string)
| RegistryAdd (p : nat) (key : string)
| Acquire (symbols : list string)
| Send (p : nat) (msg : Message)
| KeysRemove (p : nat) (channel : string)
| RegistryRemove (p : nat) (channel : string)
| Unregister (p : nat)
| Unfile (p : nat)
| Hangup (p : nat).

Definition move_step (s : Server) (m : move) : option Server :=
  match m with
  | Turn t => turn_step s t
  | Reading now p => readPump_start now p s
  | Seen now p => readPump_seen now p s
  | KeysAdd p key => subscribe_keys p key s
  | RegistryAdd p key => Some (subscribe_registry p key s)
  | Acquire symbols => subscribeToPolygon symbols s
  | Send p msg => sendMessage p msg s
  | KeysRemove p channel => unsubscribe_keys p channel s
  | RegistryRemove p channel => Some (unsubscribe_registry p channel s)
  | Unregister p => snd <$> unregister_close p s
  | Unfile p => unregister_registry p s
  | Hangup p => conn_close p s
  end.

(** A run by sections: the moves in order, stopping at a panic. The
    moves may come in any order, so that every interleaving of the
    sections of the handlers is among these runs. *)
Definition play (moves : list move) (s : Server) : option Server :=
  fold_left (fun acc m => acc ≫= fun s => move_step s m) moves (Some s).

(** The confirmations of [Client.subscribe] and [Client.unsubscribe]. *)
Definition subscribedMessage (now : Z) (channel : string)
    (symbols : list string) : Message :=
  {| Type_ := "subscribed"; Channel := channel; Data := None;
     MTimestamp := UnixMilli now; Symbols := symbols; Metadata := [] |}.

Definition unsubscribedMessage (now : Z) (channel : string) : Message :=
  {| Type_ := "unsubscribed"; Channel := channel; Data := None;
     MTimestamp := UnixMilli now; Symbols := []; Metadata := [] |}.







(** The events by which records come from upstream and go out to the
    sessions. *)
Definition feeds (e : event) : bool :=
  match e with
  | Upstream _ _ | Broadcast => true
  | _ => false
  end.



(** A subscribe request and an unsubscribe request of one session for
    one channel, handled side by side: the sections of the two
    handlers, each in its program order, the unsubscribe overtaking the
    subscribe between its two sections. *)
Definition overtaken (now : Z) (p : nat) (channel : string) : list move :=
  [KeysAdd p channel;
   KeysRemove p channel;
   RegistryRemove p channel;
   Send p (unsubscribedMessage now channel);
   RegistryAdd p channel;
   Send p (subscribedMessage now channel [])].



(** * Properties *)

(** ** Record updates *)

Lemma set_subscriptions_twice (pc : PolygonClient.t) (a b : gset string) :
  PolygonClient.set_subscriptions (PolygonClient.set_subscriptions pc a) b
  = PolygonClient.set_subscriptions pc b.
Proof. reflexivity. Qed.

Lemma set_subscriptions_same (pc : PolygonClient.t) :
  PolygonClient.set_subscriptions pc (PolygonClient.subscriptions pc) = pc.
Proof. by destruct pc. Qed.

Lemma set_heap_same (s : Server) : set_heap s (heap s) = s.
Proof. by destruct s. Qed.

(** ** Runs *)

Lemma trace_none (events : list event) :
  fold_left (fun acc e => acc ≫= fun s => step s e) events None = None.
Proof. by induction events. Qed.

Lemma trace_cons (e : event) (events : list event) (s : Server) :
  trace (e :: events) s = step s e ≫= trace events.
Proof.
  unfold trace. simpl. destruct (step s e); [done|]. apply trace_none.
Qed.

(** ** Upstream subscribe frames *)

Section upstream_frames.
Import PolygonClient.

(** The loop of [Subscribe] from any intermediate state: three tokens
    per symbol, in order, and every symbol recorded. *)
Lemma subscribe_loop_from (symbols params : list string) (pc : t) :
  fold_left
    (fun '(params, pc) symbol =>
       (params ++ tokens symbol,
        set_subscriptions pc ({[symbol]} ∪ subscriptions pc)))
    symbols (params, pc)
  = (params ++ flat_map tokens symbols,
     set_subscriptions pc (subscriptions pc ∪ list_to_set symbols)).
Proof.
  revert params pc.
  induction symbols as [|x symbols IH]; intros params pc; simpl.
  - rewrite app_nil_r. f_equal.
    replace (subscriptions pc ∪ ∅) with (subscriptions pc) by set_solver.
    by rewrite set_subscriptions_same.
  - rewrite IH. rewrite <- app_assoc. f_equal.
    rewrite set_subscriptions_twice. f_equal. simpl. set_solver.
Qed.

Lemma subscribe_loop_spec (symbols : list string) (pc : t) :
  subscribe_loop symbols pc
  = (flat_map tokens symbols,
     set_subscriptions pc (subscriptions pc ∪ list_to_set symbols)).
Proof. unfold subscribe_loop. by rewrite subscribe_loop_from. Qed.

Lemma unsubscribe_loop_from (symbols params : list string) (pc : t) :
  fold_left
    (fun '(params, pc) symbol =>
       (params ++ tokens symbol,
        set_subscriptions pc (subscriptions pc ∖ {[symbol]})))
    symbols (params, pc)
  = (params ++ flat_map tokens symbols,
     set_subscriptions pc (subscriptions pc ∖ list_to_set symbols)).
Proof.
  revert params pc.
  induction symbols as [|x symbols IH]; intros params pc; simpl.
  - rewrite app_nil_r. f_equal.
    replace (subscriptions pc ∖ ∅) with (subscriptions pc) by set_solver.
    by rewrite set_subscriptions_same.
  - rewrite IH. rewrite <- app_assoc. f_equal.
    rewrite set_subscriptions_twice. f_equal. simpl. set_solver.
Qed.

(** C8. With the session connected and authenticated and its transport
    open, [Subscribe] writes exactly one frame, whose action is
    "subscribe" and whose parameters are the tokens T.SYM, Q.SYM, A.SYM
    of each symbol in order joined by commas; afterwards the subscribed
    symbols are those of before together with every listed symbol, and
    nothing else of the session has changed. Without the authenticated
    precondition it returns an error, writes nothing and records
    nothing. This holds for every symbol list, the non-empty ones in
    particular. *)
Theorem Subscribe_frame (pc : t) (symbols : list string) (c : Conn) :
  ws pc = Some c →
  closed c = false →
  (IsConnected pc = true →
     ∃ pc',
       Subscribe pc symbols = Some (pc', None)
       ∧ ws pc'
         = Some {| closed := false;
                   written :=
                     written c
                     ++ [{| Action := "subscribe";
                            Params := Join (flat_map tokens symbols) "," |}] |}
       ∧ subscriptions pc' = subscriptions pc ∪ list_to_set symbols
       ∧ (∀ x, x ∈ symbols → x ∈ subscriptions pc')
       ∧ (∀ x, x ∈ subscriptions pc → x ∈ subscriptions pc')
       ∧ pc' = set_subscriptions (set_ws pc (ws pc')) (subscriptions pc'))
  ∧ (IsConnected pc = false →
     Subscribe pc symbols = Some (pc, Some ErrNotConnectedOrAuthenticated)).
Proof.
  intros Hws Hopen. unfold IsConnected, Subscribe. split; intros Hc.
  - apply andb_true_iff in Hc as [-> ->]. simpl.
    rewrite subscribe_loop_spec. unfold write. simpl. rewrite Hws. simpl.
    unfold WriteMessage. rewrite Hopen. eexists. split; [reflexivity|].
    simpl. split; [done|]. split; [done|].
    split; [intros x Hx; apply elem_of_union_r; by apply elem_of_list_to_set|].
    split; [intros x Hx; by apply elem_of_union_l|done].
  - apply andb_false_iff in Hc as [-> | ->]; simpl; [done|].
    by rewrite orb_true_r.
Qed.

Lemma Subscribe_frame_witness :
  ∃ pc',
    Subscribe
      (set_flags
         (set_ws (NewPolygonClient "key")
            (Some {| closed := false; written := [] |})) true true)
      ["AAPL"; "TSLA"]
    = Some (pc', None)
    ∧ ws pc'
      = Some {| closed := false;
                written :=
                  [{| Action := "subscribe";
                      Params := "T.AAPL,Q.AAPL,A.AAPL,T.TSLA,Q.TSLA,A.TSLA" |}] |}
    ∧ elements (subscriptions pc') = ["AAPL"; "TSLA"].
Proof.
  destruct (Subscribe_frame
              (set_flags
                 (set_ws (NewPolygonClient "key")
                    (Some {| closed := false; written := [] |})) true true)
              ["AAPL"; "TSLA"] {| closed := false; written := [] |}
              eq_refl eq_refl) as [Hyes _].
  destruct (Hyes eq_refl) as (pc' & Hrun & Hws & Hsubs & _).
  exists pc'. split; [exact Hrun|]. split; [exact Hws|].
  rewrite Hsubs. vm_compute. reflexivity.
Defined.

End upstream_frames.

(** ** The program on the scenarios of the design document *)

(** Closed equations between runs of the program and their results are
    settled by evaluation, one conjunct at a time. *)
Ltac evaluate :=
  repeat match goal with |- _ ∧ _ => split end;
  vm_compute; reflexivity.

(** C1. A session that subscribes to trades with symbols [AAPL] is filed
    under the key "trades:AAPL"; the AAPL trade published afterwards is
    broadcast on the channel "trades", under which the session is not
    filed, so its queue holds the confirmation alone and no market-data
    message. *)
Theorem symbol_subscriber_gets_no_trade :
  queue_of 0 <$> single_subscriber = Some (Some [subscribed_AAPL])
  ∧ subscribers "trades:AAPL" <$> single_subscriber = Some [0%nat]
  ∧ subscribers "trades" <$> single_subscriber = Some []
  ∧ broadcast <$> single_subscriber = Some [].
Proof. evaluate. Qed.

(** The same trade does reach a session that subscribed without naming a
    symbol. *)
Lemma channel_subscriber_gets_trade :
  queue_of 0 <$> single_subscriber_all
  = Some (Some [ {| Type_ := "subscribed"; Channel := "trades"; Data := None;
                    MTimestamp := 1700000000000; Symbols := [];
                    Metadata := [] |};
                 market_data_AAPL ]).
Proof. evaluate. Qed.

(** C2. Two sessions subscribe to AAPL and both unsubscribe: one upstream
    subscribe was written for the two subscriptions, and no upstream
    unsubscribe at all, the count of AAPL staying at two; tearing both
    sessions down changes neither. *)
Theorem last_unsubscribe_sends_nothing_upstream :
  upstream_frames <$> reference_counting
  = Some (Some (startup_frames
                ++ [{| Action := "subscribe"; Params := "T.AAPL,Q.AAPL,A.AAPL" |}]))
  ∧ (fun s => polygonSymbols s !! "AAPL") <$> reference_counting
    = Some (Some 2)
  ∧ upstream_frames <$> reference_counting_teardown
    = upstream_frames <$> reference_counting
  ∧ (fun s => polygonSymbols s !! "AAPL") <$> reference_counting_teardown
    = Some (Some 2).
Proof. evaluate. Qed.

(** C3. A session subscribes to IBM and is torn down: it is gone from the
    session table and from the entry of its key, and the count of IBM is
    still one, with no live session left. *)
Theorem teardown_keeps_refcount :
  (fun s => elements (clients s)) <$> subscribe_then_teardown = Some []
  ∧ subscribers "trades:IBM" <$> subscribe_then_teardown = Some []
  ∧ (fun s => polygonSymbols s !! "IBM") <$> subscribe_then_teardown
    = Some (Some 1).
Proof. evaluate. Qed.

(** C6. The upstream rejects the key, or stays silent during the wait:
    [Connect] returns the authentication error, and the reader goroutine
    it started, seeing the closed transport, schedules a reconnect five
    seconds later. A failed dial schedules none. *)
Theorem auth_failure_schedules_reconnect :
  snd <$> rejected_key [auth_failed] = Some (Some PolygonClient.ErrAuthenticate)
  ∧ (PolygonClient.reconnectTimer ∘ fst) <$> rejected_key [auth_failed]
    = Some (Some (5 * Second))
  ∧ (PolygonClient.retryCount ∘ fst) <$> rejected_key [auth_failed] = Some 1
  ∧ snd <$> rejected_key [] = Some (Some PolygonClient.ErrAuthenticate)
  ∧ (PolygonClient.reconnectTimer ∘ fst) <$> rejected_key []
    = Some (Some (5 * Second))
  ∧ (PolygonClient.reconnectTimer ∘ fst) <$> failed_dial = Some None.
Proof. evaluate. Qed.

(** ** Reconnect backoff *)

Section backoff.
Import PolygonClient.

Lemma wrap64_id (z : Z) : - 2 ^ 63 ≤ z < 2 ^ 63 → wrap64 z = z.
Proof.
  intros Hz. unfold wrap64.
  rewrite Z.mod_small; lia.
Qed.

Lemma only_auth_refl (pc : t) : only_auth pc pc.
Proof. exists (authenticated pc). by destruct pc. Qed.

Lemma only_auth_trans (a b c : t) :
  only_auth a b → only_auth b c → only_auth a c.
Proof. intros [x ->] [y ->]. by exists y. Qed.

Lemma handleStatusMessage_only_auth (pc : t) (status message : string) :
  only_auth pc (handleStatusMessage pc status message).
Proof.
  unfold handleStatusMessage.
  repeat case_match; first [by eexists | apply only_auth_refl].
Qed.

Lemma handleRecord_only_auth (acc : t * list PolygonMessage)
    (r : option PolygonRecord) :
  only_auth acc.1 (handleRecord acc r).1.
Proof.
  destruct acc as [pc out]. unfold handleRecord.
  destruct r as [r|]; simpl; [|apply only_auth_refl].
  repeat case_match; simpl;
    first [apply handleStatusMessage_only_auth | apply only_auth_refl].
Qed.

Lemma handleMessage_only_auth (acc : t * list PolygonMessage) (data : Batch) :
  only_auth acc.1 (handleMessage acc data).1.
Proof.
  unfold handleMessage. destruct data as [messages|];
    [|apply only_auth_refl].
  revert acc. induction messages as [|r messages IH]; intros acc; simpl.
  - apply only_auth_refl.
  - eapply only_auth_trans; [apply handleRecord_only_auth|apply IH].
Qed.

Lemma read_loop_only_auth (frames : list Batch) (pc : t) :
  only_auth pc (read_loop frames pc).1.
Proof.
  unfold read_loop.
  change pc with ((pc, @nil PolygonMessage).1) at 1.
  generalize (pc, @nil PolygonMessage).
  induction frames as [|b frames IH]; intros acc; simpl.
  - apply only_auth_refl.
  - eapply only_auth_trans; [apply handleMessage_only_auth|apply IH].
Qed.

(** [Connect] never panics: a successful dial installs a fresh open
    transport before anything is written; and it zeroes the attempt
    counter as soon as the dial has succeeded, whatever the outcome of
    the authentication that follows. *)
Lemma Connect_resets_retryCount (arrivals : list Batch) (pc : t) :
  ∃ pc' out err,
    Connect true arrivals pc = Some (pc', out, err) ∧ retryCount pc' = 0.
Proof.
  unfold Connect, authenticate, write. simpl.
  match goal with |- context [read_loop arrivals ?p] =>
    pose proof (read_loop_only_auth arrivals p) as [b Hb];
    destruct (read_loop arrivals p) as [pc1 out]
  end.
  simpl in Hb. subst pc1. simpl.
  destruct b; simpl; by eexists _, _, _.
Qed.

(** Whenever [Connect] fails after a successful dial, the reader it
    started observes the transport it closed and, unless no retry is
    allowed at all, arms the reconnect timer for a first attempt. *)
Lemma failed_Connect_reschedules (arrivals : list Batch) (pc pc' : t)
    (out : list PolygonMessage) (e : error) :
  Connect true arrivals pc = Some (pc', out, Some e) →
  0 < maxRetries pc →
  reconnectTimer (reader_observes_close pc')
  = Some (wrap64 (reconnectDelay pc * 1))
  ∧ retryCount (reader_observes_close pc') = 1
  ∧ connected (reader_observes_close pc') = false.
Proof.
  unfold Connect, authenticate, write. simpl.
  match goal with |- context [read_loop arrivals ?q] =>
    pose proof (read_loop_only_auth arrivals q) as [b Hb];
    destruct (read_loop arrivals q) as [pc1 out1]
  end.
  simpl in Hb. subst pc1. simpl.
  destruct b; simpl; [done|].
  intros [= <- <- <-] Hmax.
  unfold reader_observes_close, readMessages_exit, scheduleReconnect. simpl.
  destruct (Z.leb_spec (maxRetries pc) 0); [lia|]. done.
Qed.

(** C5. The upstream connection is lost, and every reconnect that
    follows dials through and is refused authentication. The first
    reconnect is scheduled five seconds ahead, as attempt 1. So is the
    second, which a delay of the base times the attempt number puts ten
    seconds ahead as attempt 2: [Connect] has zeroed the attempt counter
    at the dial, without a successful authentication. And so is every
    later one: after twelve refusals in a row, two more than
    [maxRetries], the next reconnect is pending five seconds ahead as
    attempt 1, and the limit on attempts has stopped nothing. *)
Theorem refused_reconnects_do_not_back_off :
  schedule <$> refused_reconnects 0 = Some (Some (1, Some (5 * Second)))
  ∧ schedule <$> refused_reconnects 1 = Some (Some (1, Some (5 * Second)))
  ∧ schedule <$> refused_reconnects 2 = Some (Some (1, Some (5 * Second)))
  ∧ schedule <$> refused_reconnects 12 = Some (Some (1, Some (5 * Second)))
  ∧ (fun s => maxRetries <$> polygonClient s) <$> refused_reconnects 12
    = Some (Some 10)
  ∧ (fun s => connected <$> polygonClient s) <$> refused_reconnects 12
    = Some (Some false).
Proof. evaluate. Qed.

End backoff.

(** ** Broadcast delivery *)

Section delivery.

(** The inner loop of [handleMessages] over distinct sessions with open
    queues: it runs to the end, each target is offered the message once,
    and no other session is touched. *)
Lemma deliver_spec (data : Message) (targets : list nat)
    (h : gmap nat Client.t) :
  NoDup targets →
  (∀ q, q ∈ targets →
        ∃ c, h !! q = Some c ∧ Client.send_closed c = false) →
  ∃ h', deliver data targets h = Some h'
        ∧ (∀ q, q ∈ targets →
                h' !! q = (h !! q ≫= fun c => Client.trySend c data))
        ∧ (∀ q, q ∉ targets → h' !! q = h !! q).
Proof.
  revert h. induction targets as [|p targets IH]; intros h Hnd Hopen.
  - exists h. split; [done|]. split; [|done].
    intros q Hq. by apply elem_of_nil in Hq.
  - apply NoDup_cons in Hnd as [Hp Hnd].
    destruct (Hopen p) as (c & Hc & Hcl); [by left|].
    simpl. rewrite Hc. simpl.
    destruct (Client.trySend c data) as [c'|] eqn:Hsend; last first.
    { unfold Client.trySend in Hsend. rewrite Hcl in Hsend.
      by case_match. }
    simpl.
    destruct (IH (<[p := c']> h) Hnd) as (h' & Hrun & Hin & Hout).
    { intros q Hq. assert (q ≠ p) by (intros ->; done).
      rewrite lookup_insert_ne by done. apply Hopen. by right. }
    exists h'. split; [done|]. split.
    + intros q [->|Hq]%elem_of_cons.
      * rewrite Hout by done. rewrite lookup_insert_eq, Hc. by simpl.
      * assert (q ≠ p) by (intros ->; done).
        rewrite Hin by done. by rewrite lookup_insert_ne.
    + intros q Hq. apply not_elem_of_cons in Hq as [Hne Hq].
      rewrite Hout by done. by rewrite lookup_insert_ne.
Qed.

(** A session that is not filed under the channel of the message is not
    touched by the broadcast. *)
Lemma deliver_others (data : Message) (targets : list nat)
    (h h' : gmap nat Client.t) (q : nat) :
  deliver data targets h = Some h' → q ∉ targets → h' !! q = h !! q.
Proof.
  revert h. induction targets as [|p targets IH]; intros h; simpl.
  - by intros [= ->].
  - intros Hrun Hq. apply not_elem_of_cons in Hq as [Hne Hq].
    destruct (h !! p) as [c|]; [|done]. simpl in Hrun.
    destruct (Client.trySend c data) as [c'|]; [|done]. simpl in Hrun.
    rewrite (IH _ Hrun Hq). by rewrite lookup_insert_ne.
Qed.

Lemma handleMessages_others (s s' : Server) (msg : Message)
    (rest : list Message) (q : nat) :
  broadcast s = msg :: rest →
  handleMessages s = Some s' →
  q ∉ default ∅ (subscriptions s !! Channel msg) →
  heap s' !! q = heap s !! q.
Proof.
  intros Hb. unfold handleMessages. rewrite Hb. simpl.
  destruct (subscriptions s !! Channel msg) as [subscribed|]; simpl;
    [|by intros [= <-]].
  destruct (deliver msg (elements subscribed) (heap s)) as [h'|] eqn:Hrun;
    [|done].
  simpl. intros [= <-] Hq. simpl.
  eapply deliver_others; [done|]. by rewrite elem_of_elements.
Qed.

(** A full queue takes the default branch of the [select]: the session
    is returned as it was. *)
Lemma trySend_full (c : Client.t) (data : Message) :
  Client.send_closed c = false →
  Client.send_capacity ≤ Z.of_nat (length (Client.send c)) →
  Client.trySend c data = Some c.
Proof.
  intros Hopen Hfull. unfold Client.trySend. rewrite Hopen.
  destruct (Z.ltb_spec (Z.of_nat (length (Client.send c)))
              Client.send_capacity); [lia|done].
Qed.

Lemma trySend_room (c : Client.t) (data : Message) :
  Client.send_closed c = false →
  Z.of_nat (length (Client.send c)) < Client.send_capacity →
  Client.trySend c data
  = Some (Client.set_send c (Client.send c ++ [data]) false).
Proof.
  intros Hopen Hroom. unfold Client.trySend. rewrite Hopen.
  destruct (Z.ltb_spec (Z.of_nat (length (Client.send c)))
              Client.send_capacity); [done|lia].
Qed.

End delivery.

(** ** Symbol reference counts *)

Section refcounts.

(** One acquisition: a symbol with no entry is given the count one and
    reported as new; a symbol with an entry has its count incremented
    and is not reported. *)
Lemma acquire_fresh (counts : gmap string Z) (new : list string)
    (x : string) :
  counts !! x = None →
  acquire (counts, new) x = (<[x := 1]> counts, new ++ [x]).
Proof. intros Hx. unfold acquire. by rewrite Hx. Qed.

Lemma acquire_held (counts : gmap string Z) (new : list string)
    (x : string) (n : Z) :
  counts !! x = Some n →
  acquire (counts, new) x = (<[x := wrap64 (n + 1)]> counts, new).
Proof. intros Hx. unfold acquire. by rewrite Hx. Qed.

(** One release: the last reference deletes the entry and reports the
    symbol as removed; any other decrements the count and reports
    nothing; a symbol with no entry is left alone. *)
Lemma release_last (counts : gmap string Z) (removed : list string)
    (x : string) (n : Z) :
  counts !! x = Some n → n ≤ 1 →
  release (counts, removed) x = (delete x counts, removed ++ [x]).
Proof.
  intros Hx Hn. unfold release. rewrite Hx.
  destruct (Z.leb_spec n 1); [done|lia].
Qed.

Lemma release_held (counts : gmap string Z) (removed : list string)
    (x : string) (n : Z) :
  counts !! x = Some n → 1 < n →
  release (counts, removed) x = (<[x := wrap64 (n - 1)]> counts, removed).
Proof.
  intros Hx Hn. unfold release. rewrite Hx.
  destruct (Z.leb_spec n 1); [lia|done].
Qed.

Lemma release_absent (counts : gmap string Z) (removed : list string)
    (x : string) :
  counts !! x = None → release (counts, removed) x = (counts, removed).
Proof. intros Hx. unfold release. by rewrite Hx. Qed.

(** The loop of [subscribeToPolygon]: exactly the listed symbols that
    had no entry are reported as new. *)
Lemma acquire_new (symbols : list string) (counts : gmap string Z)
    (new : list string) (x : string) :
  x ∈ (fold_left acquire symbols (counts, new)).2
  ↔ x ∈ new ∨ (x ∈ symbols ∧ counts !! x = None).
Proof.
  revert counts new.
  induction symbols as [|a symbols IH]; intros counts new; cbn [fold_left].
  - split; [by left|]. intros [?|[Hx _]]; [done|].
    by apply elem_of_nil in Hx.
  - destruct (counts !! a) as [n|] eqn:Ha.
    + rewrite (acquire_held _ _ _ _ Ha), IH, elem_of_cons.
      destruct (decide (x = a)) as [->|Hne].
      * rewrite lookup_insert_eq, Ha. naive_solver.
      * rewrite lookup_insert_ne by done. naive_solver.
    + rewrite (acquire_fresh _ _ _ Ha), IH.
      rewrite elem_of_app, list_elem_of_singleton, elem_of_cons.
      destruct (decide (x = a)) as [->|Hne].
      * rewrite lookup_insert_eq. naive_solver.
      * rewrite lookup_insert_ne by done. naive_solver.
Qed.

(** Every listed symbol has an entry afterwards, and an entry is never
    lost. *)
Lemma acquire_keeps (symbols : list string) (counts : gmap string Z)
    (new : list string) (x : string) :
  is_Some (counts !! x) →
  is_Some ((fold_left acquire symbols (counts, new)).1 !! x).
Proof.
  revert counts new.
  induction symbols as [|a symbols IH]; intros counts new Hx;
    cbn [fold_left]; [done|].
  destruct (counts !! a) as [n|] eqn:Ha;
    [rewrite (acquire_held _ _ _ _ Ha)|rewrite (acquire_fresh _ _ _ Ha)];
    apply IH;
    (destruct (decide (x = a)) as [->|Hne];
     [rewrite lookup_insert_eq; by eexists
     |by rewrite lookup_insert_ne]).
Qed.

Lemma acquire_listed (symbols : list string) (counts : gmap string Z)
    (new : list string) (x : string) :
  x ∈ symbols →
  is_Some ((fold_left acquire symbols (counts, new)).1 !! x).
Proof.
  revert counts new.
  induction symbols as [|a symbols IH]; intros counts new Hx;
    cbn [fold_left].
  - by apply elem_of_nil in Hx.
  - apply elem_of_cons in Hx as [->|Hx];
      [|destruct (acquire (counts, new) a); by apply IH].
    destruct (counts !! a) as [n|] eqn:Ha;
      [rewrite (acquire_held _ _ _ _ Ha)|rewrite (acquire_fresh _ _ _ Ha)];
      apply acquire_keeps; rewrite lookup_insert_eq; by eexists.
Qed.

Lemma acquire_unlisted (symbols : list string) (counts : gmap string Z)
    (new : list string) (x : string) :
  x ∉ symbols →
  (fold_left acquire symbols (counts, new)).1 !! x = counts !! x.
Proof.
  revert counts new.
  induction symbols as [|a symbols IH]; intros counts new Hx;
    cbn [fold_left]; [done|].
  apply not_elem_of_cons in Hx as [Hne Hx].
  destruct (counts !! a) as [n|] eqn:Ha;
    [rewrite (acquire_held _ _ _ _ Ha)|rewrite (acquire_fresh _ _ _ Ha)];
    rewrite IH by done; by rewrite lookup_insert_ne.
Qed.

(** The two loops on one symbol with no entry, run as two sessions that
    subscribe and then unsubscribe would run them: the first
    acquisition alone reports the symbol as new, the last release alone
    reports it as removed, and the counts end as they began. *)
Lemma acquire_NoDup (symbols : list string) (counts : gmap string Z)
    (new : list string) :
  NoDup new →
  (∀ x, x ∈ new → is_Some (counts !! x)) →
  NoDup (fold_left acquire symbols (counts, new)).2.
Proof.
  revert counts new.
  induction symbols as [|a symbols IH]; intros counts new Hnd Hin;
    cbn [fold_left]; [done|].
  destruct (counts !! a) as [n|] eqn:Ha.
  - rewrite (acquire_held _ _ _ _ Ha). apply IH; [done|].
    intros x Hx. destruct (decide (x = a)) as [->|Hne].
    + rewrite lookup_insert_eq. by eexists.
    + rewrite lookup_insert_ne by done. by apply Hin.
  - rewrite (acquire_fresh _ _ _ Ha). apply IH.
    + apply NoDup_app. split; [done|]. split; [|apply NoDup_singleton].
      intros x Hx ->%list_elem_of_singleton.
      destruct (Hin a Hx) as [n Hn]. congruence.
    + intros x [Hx| ->%list_elem_of_singleton]%elem_of_app.
      * destruct (decide (x = a)) as [->|Hne].
        -- rewrite lookup_insert_eq. by eexists.
        -- rewrite lookup_insert_ne by done. by apply Hin.
      * rewrite lookup_insert_eq. by eexists.
Qed.

Lemma acquire_one (counts : gmap string Z) (new : list string)
    (a x : string) :
  - 2 ^ 63 ≤ default 0 (counts !! x) →
  default 0 (counts !! x) + 1 < 2 ^ 63 →
  default 0 ((acquire (counts, new) a).1 !! x)
  = default 0 (counts !! x) + (if decide (x = a) then 1 else 0)
  ∧ (x = a → is_Some ((acquire (counts, new) a).1 !! x)).
Proof.
  intros Hlow Hhigh. destruct (decide (x = a)) as [->|Hne].
  - destruct (counts !! a) as [n|] eqn:Ha.
    + rewrite (acquire_held _ _ _ _ Ha). cbn [fst].
      rewrite lookup_insert_eq. cbn [default from_option id] in *.
      split; [|by eexists]. apply wrap64_id. lia.
    + rewrite (acquire_fresh _ _ _ Ha). cbn [fst].
      rewrite lookup_insert_eq. cbn [default from_option id]. split; [lia|by eexists].
  - destruct (counts !! a) as [n|] eqn:Ha.
    + rewrite (acquire_held _ _ _ _ Ha). cbn [fst].
      rewrite lookup_insert_ne by done. split; [lia|done].
    + rewrite (acquire_fresh _ _ _ Ha). cbn [fst].
      rewrite lookup_insert_ne by done. split; [lia|done].
Qed.

Lemma acquire_count (symbols : list string) (counts : gmap string Z)
    (new : list string) (x : string) :
  - 2 ^ 63 ≤ default 0 (counts !! x) →
  default 0 (counts !! x) + Z.of_nat (length symbols) < 2 ^ 63 →
  x ∈ symbols →
  (fold_left acquire symbols (counts, new)).1 !! x
  = Some (default 0 (counts !! x)
          + Z.of_nat (length (filter (x =.) symbols))).
Proof.
  revert counts new.
  induction symbols as [|a symbols IH]; intros counts new Hlow Hhigh Hin;
    [by apply elem_of_nil in Hin|].
  cbn [fold_left]. cbn [length] in Hhigh.
  destruct (acquire_one counts new a x Hlow ltac:(lia)) as [Hone Hsome].
  destruct (acquire (counts, new) a) as [counts1 new1]. cbn [fst] in *.
  rewrite filter_cons.
  destruct (decide (x ∈ symbols)) as [Hx|Hx].
  - rewrite IH; [|case_decide; lia|case_decide; lia|done].
    f_equal. rewrite Hone. case_decide; cbn [length]; lia.
  - apply elem_of_cons in Hin as [->|Hin]; [|done].
    rewrite acquire_unlisted by done.
    destruct (Hsome eq_refl) as [m Hm]. rewrite Hm in Hone |- *.
    cbn [default from_option id] in Hone. f_equal. rewrite Hone.
    rewrite !decide_True by done. cbn [length].
    assert (Hnil : filter (a =.) symbols = []).
    { destruct (filter (a =.) symbols) as [|y l] eqn:Hf; [done|].
      assert (Hy : y ∈ filter (a =.) symbols) by (rewrite Hf; by left).
      apply list_elem_of_filter in Hy as [<- Hy]. done. }
    rewrite Hnil. cbn [length]. lia.
Qed.

Lemma refcount_two_sessions (counts : gmap string Z) (x : string) :
  counts !! x = None →
  let a1 := fold_left acquire [x] (counts, []) in
  let a2 := fold_left acquire [x] (a1.1, []) in
  let r1 := fold_left release [x] (a2.1, []) in
  let r2 := fold_left release [x] (r1.1, []) in
  a1.2 = [x] ∧ a2.2 = [] ∧ a2.1 !! x = Some 2
  ∧ r1.2 = [] ∧ r1.1 !! x = Some 1
  ∧ r2.2 = [x] ∧ r2.1 = counts.
Proof.
  intros Hx. cbn [fold_left].
  rewrite (acquire_fresh _ _ _ Hx). cbn [fst snd].
  rewrite (acquire_held _ _ x 1) by apply lookup_insert_eq. cbn [fst snd].
  change (wrap64 (1 + 1)) with 2.
  rewrite (release_held _ _ x 2) by (apply lookup_insert_eq || lia).
  cbn [fst snd]. change (wrap64 (2 - 1)) with 1.
  rewrite (release_last _ _ x 1) by (apply lookup_insert_eq || lia).
  cbn [fst snd]. rewrite !lookup_insert_eq.
  repeat split.
  rewrite !insert_insert_eq, delete_insert_eq.
  by apply delete_id.
Qed.

End refcounts.

(** ** Subscription keys *)

Section keys.

Lemma trySend_keeps_subscriptions (c c' : Client.t) (data : Message) :
  Client.trySend c data = Some c' →
  Client.subscriptions c' = Client.subscriptions c.
Proof.
  unfold Client.trySend. repeat case_match; by intros [= <-].
Qed.

Lemma trySend_total (c : Client.t) (data : Message) :
  Client.send_closed c = false → is_Some (Client.trySend c data).
Proof.
  intros Hopen. unfold Client.trySend. rewrite Hopen.
  case_match; by eexists.
Qed.

(** [Subscribe] does not panic when the session has a transport. *)
Lemma Subscribe_total (pc : PolygonClient.t) (symbols : list string) :
  (PolygonClient.connected pc = true → is_Some (PolygonClient.ws pc)) →
  is_Some (PolygonClient.Subscribe pc symbols).
Proof.
  intros Hws. unfold PolygonClient.Subscribe.
  destruct (PolygonClient.connected pc) eqn:Hc; simpl; [|by eexists].
  destruct (PolygonClient.authenticated pc); simpl; [|by eexists].
  rewrite subscribe_loop_spec. unfold PolygonClient.write. simpl.
  destruct (Hws eq_refl) as [c ->]. simpl.
  destruct (WriteMessage c _). by eexists.
Qed.

(** [subscribeToPolygon] touches the reference counts and the upstream
    client only; past its first check the counts are those its loop
    computes, and before it nothing changes. *)
Lemma subscribeToPolygon_spec (symbols : list string) (s : Server) :
  has_transport s →
  ∃ s', subscribeToPolygon symbols s = Some s'
        ∧ heap s' = heap s
        ∧ clients s' = clients s
        ∧ broadcast s' = broadcast s
        ∧ subscriptions s' = subscriptions s
        ∧ polygonSymbols s'
          = if match polygonClient s with
               | Some pc => PolygonClient.IsConnected pc
               | None => false
               end
            then (fold_left acquire symbols (polygonSymbols s, [])).1
            else polygonSymbols s.
Proof.
  intros Hws. unfold subscribeToPolygon.
  destruct (polygonClient s) as [pc|] eqn:Hpc; [|by eexists].
  destruct (PolygonClient.IsConnected pc) eqn:Hconn; simpl; [|by eexists].
  destruct (fold_left acquire symbols (polygonSymbols s, []))
    as [counts newSymbols].
  case_match; [|by eexists].
  destruct (Subscribe_total pc newSymbols) as [[pc' e] ->].
  { intros Hc. by apply Hws. }
  simpl. by eexists.
Qed.

(** A key made from a symbol list has a colon in it; the channels on
    which upstream records are broadcast have none. So no upstream
    record is ever broadcast on the key of a subscription that lists
    symbols. *)
Lemma subscription_key_colon (channel first : string) (rest : list string) :
  contains (subscription_key channel (first :: rest)) ":"%char = true.
Proof.
  simpl. induction channel as [|a channel IH]; simpl; [done|].
  rewrite IH. apply orb_true_r.
Qed.

Lemma TransformPolygonMessage_channel (now : Z) (pm : PolygonMessage) :
  contains (Channel (TransformPolygonMessage now pm)) ":"%char = false.
Proof. unfold TransformPolygonMessage. simpl. by repeat case_match. Qed.

Lemma symbol_key_never_broadcast (now : Z) (pm : PolygonMessage)
    (channel first : string) (rest : list string) :
  Channel (TransformPolygonMessage now pm)
  ≠ subscription_key channel (first :: rest).
Proof.
  intros Heq.
  pose proof (TransformPolygonMessage_channel now pm) as Hno.
  rewrite Heq, subscription_key_colon in Hno. done.
Qed.

(** An upstream record at the head of the broadcast queue is not
    delivered to a session all of whose keys were made from symbol
    lists. *)
Lemma upstream_record_skips_symbol_keys (now : Z) (pm : PolygonMessage)
    (rest : list Message) (s s' : Server) (p : nat) (c : Client.t) :
  mirrored s →
  broadcast s = TransformPolygonMessage now pm :: rest →
  heap s !! p = Some c →
  (∀ key, key ∈ Client.subscriptions c → contains key ":"%char = true) →
  handleMessages s = Some s' →
  heap s' !! p = Some c.
Proof.
  intros Hm Hb Hc Hkeys Hrun. rewrite <- Hc.
  eapply handleMessages_others; [exact Hb|exact Hrun|].
  intros Hp.
  destruct (subscriptions s !! Channel (TransformPolygonMessage now pm))
    as [subscribed|] eqn:Hsub; [|by apply not_elem_of_empty in Hp].
  simpl in Hp. destruct (Hm _ _ _ Hsub Hp) as (c' & Hc' & Hkey).
  assert (c' = c) as -> by congruence.
  apply Hkeys in Hkey.
  by rewrite TransformPolygonMessage_channel in Hkey.
Qed.

Lemma length_append (a b : string) :
  String.length (a +:+ b) = (String.length a + String.length b)%nat.
Proof. induction a as [|x a IH]; simpl; [done|]. by rewrite IH. Qed.

(** The key of a subscription that lists symbols is never the channel
    itself, so an unsubscribe, which removes the entry filed under the
    channel it is given, leaves that subscription in the registry. *)
Lemma subscription_key_not_channel (channel first : string)
    (rest : list string) :
  subscription_key channel (first :: rest) ≠ channel.
Proof.
  simpl. intros Heq. apply (f_equal String.length) in Heq.
  rewrite !length_append in Heq. simpl in Heq. lia.
Qed.

(** C10, as the program has it. A subscription that lists symbols is
    filed, in the session and in the registry, under the one key made
    of the channel name and the first symbol; the symbols after the
    first have no part in it. When the channel is trades, quotes or
    market-data and the upstream client is connected and authenticated,
    every listed symbol is acquired: its reference count is raised by
    the number of times it is listed, from zero when it had no entry,
    and the counts of the symbols that are not listed stay as they
    were. Otherwise the reference counts are left as they were. *)
Theorem first_symbol_key (now : Z) (p : nat) (channel first : string)
    (rest : list string) (s : Server) (c : Client.t) :
  heap s !! p = Some c →
  Client.send_closed c = false →
  has_transport s →
  let key := channel +:+ ":" +:+ first in
  ∃ s', subscribe now p channel (first :: rest) s = Some s'
        ∧ Client.subscriptions <$> heap s' !! p
          = Some ({[key]} ∪ Client.subscriptions c)
        ∧ subscriptions s'
          = <[key := {[p]} ∪ default ∅ (subscriptions s !! key)]>
              (subscriptions s)
        ∧ (forwards_upstream channel s = true →
           (∀ x, x ∈ first :: rest →
                 - 2 ^ 63 ≤ default 0 (polygonSymbols s !! x) →
                 default 0 (polygonSymbols s !! x)
                 + Z.of_nat (length (first :: rest)) < 2 ^ 63 →
                 polygonSymbols s' !! x
                 = Some (default 0 (polygonSymbols s !! x)
                         + Z.of_nat (length (filter (x =.) (first :: rest)))))
           ∧ (∀ x, x ∉ first :: rest →
                   polygonSymbols s' !! x = polygonSymbols s !! x))
        ∧ (forwards_upstream channel s = false →
           polygonSymbols s' = polygonSymbols s).
Proof.
  intros Hc Hopen Hws key. unfold subscribe. rewrite Hc.
  cbn [mbind option_bind subscription_key]. fold key.
  set (c1 := Client.set_subscriptions c ({[key]} ∪ Client.subscriptions c)).
  set (s1 := set_subscriptions (set_heap s (<[p := c1]> (heap s))) _).
  assert (Hws1 : has_transport s1) by exact Hws.
  destruct (subscribeToPolygon_spec (first :: rest) s1 Hws1)
    as (s2 & Hs2 & Hheap & _ & _ & Hsubs & Hcounts).
  set (gate := (0 <? Z.of_nat (length (first :: rest)))
               && (String.eqb channel "trades" || String.eqb channel "quotes"
                   || String.eqb channel "market-data")).
  assert (Hmid : ∃ s3, (if gate then subscribeToPolygon (first :: rest) s1
                        else Some s1) = Some s3
                       ∧ heap s3 = heap s1
                       ∧ subscriptions s3 = subscriptions s1
                       ∧ polygonSymbols s3
                         = if forwards_upstream channel s
                           then (fold_left acquire (first :: rest)
                                   (polygonSymbols s, [])).1
                           else polygonSymbols s).
  { unfold forwards_upstream.
    assert (Hgate : gate = (String.eqb channel "trades"
                            || String.eqb channel "quotes"
                            || String.eqb channel "market-data")) by done.
    rewrite Hgate.
    destruct (String.eqb channel "trades" || String.eqb channel "quotes"
              || String.eqb channel "market-data").
    - exists s2. by rewrite Hs2, Hheap, Hsubs, Hcounts.
    - by exists s1. }
  destruct Hmid as (s3 & -> & Hheap3 & Hsubs3 & Hcounts3).
  cbn [mbind option_bind]. unfold sendMessage.
  assert (Hp : heap s3 !! p = Some c1).
  { rewrite Hheap3. subst s1. simpl. apply lookup_insert_eq. }
  rewrite Hp. cbn [mbind option_bind].
  destruct (trySend_total c1
              {| Type_ := "subscribed"; Channel := channel; Data := None;
                 MTimestamp := UnixMilli now; Symbols := first :: rest;
                 Metadata := [] |}) as [c2 Hc2]; [done|].
  rewrite Hc2. cbn [mbind option_bind]. eexists. split; [done|].
  simpl. rewrite lookup_insert_eq. simpl.
  rewrite (trySend_keeps_subscriptions _ _ _ Hc2).
  split; [done|]. split; [by rewrite Hsubs3|].
  rewrite Hcounts3. split; intros ->; [|done].
  split.
  - intros x Hx Hlow Hhigh. by apply acquire_count.
  - intros x Hx. by apply acquire_unlisted.
Qed.

Lemma first_symbol_key_witness :
  trace (started ++ [Accepted t0 "A"]) initial = Some one_session
  ∧ forwards_upstream "trades" one_session = true
  ∧ ∃ s', subscribe (t0 + 1) 0 "trades" ["AAPL"; "MSFT"; "MSFT"] one_session
          = Some s'
          ∧ Client.subscriptions <$> heap s' !! 0%nat
            = Some {["trades:AAPL"]}
          ∧ subscribers "trades:AAPL" s' = [0%nat]
          ∧ polygonSymbols s' !! "AAPL" = Some 1
          ∧ polygonSymbols s' !! "MSFT" = Some 2
          ∧ polygonSymbols s' !! "SPY" = None.
Proof.
  split; [vm_compute; reflexivity|].
  split; [vm_compute; reflexivity|].
  assert (Hws : has_transport one_session).
  { intros pc Hpc _. vm_compute in Hpc. injection Hpc as <-.
    vm_compute. by eexists. }
  destruct (first_symbol_key (t0 + 1) 0 "trades" "AAPL" ["MSFT"; "MSFT"]
              one_session
              {| Client.conn_closed := false; Client.readDeadline := None;
                 Client.send := []; Client.send_closed := false;
                 Client.subscriptions := ∅; Client.id := "A";
                 Client.lastSeen := t0 |}
              ltac:(vm_compute; reflexivity) eq_refl Hws)
    as (s' & Hrun & Hkeys & Hreg & Hup & _).
  destruct (Hup ltac:(vm_compute; reflexivity)) as [Hlisted Hother].
  exists s'. split; [exact Hrun|].
  split; [rewrite Hkeys; f_equal; vm_compute; reflexivity|].
  split; [unfold subscribers; rewrite Hreg; vm_compute; reflexivity|].
  split; [|split].
  - rewrite Hlisted;
      [vm_compute; reflexivity| |vm_compute; congruence|vm_compute; reflexivity].
    apply elem_of_cons. by left.
  - rewrite Hlisted;
      [vm_compute; reflexivity| |vm_compute; congruence|vm_compute; reflexivity].
    apply elem_of_cons. right. apply elem_of_cons. by left.
  - rewrite Hother; [vm_compute; reflexivity|].
    intros Hin. repeat (apply elem_of_cons in Hin as [Hin|Hin]; [done|]).
    by apply elem_of_nil in Hin.
Defined.

(** C10, as stated, fails. A subscription to aggregates with two symbols
    is filed under "aggregates:AAPL" while the gateway is connected
    upstream, and neither symbol enters the reference counts. *)
Lemma aggregates_not_counted :
  subscribers "aggregates:AAPL" <$> aggregates_subscription = Some [0%nat]
  ∧ (fun s => PolygonClient.IsConnected <$> polygonClient s)
      <$> aggregates_subscription = Some (Some true)
  ∧ (fun s => polygonSymbols s !! "AAPL") <$> aggregates_subscription
    = Some None
  ∧ (fun s => polygonSymbols s !! "MSFT") <$> aggregates_subscription
    = Some None.
Proof. evaluate. Qed.

End keys.

(** ** The subscription registry *)

Section registry.

Lemma keys_preserved_refl (h : gmap nat Client.t) : keys_preserved h h.
Proof. intros p c Hc. by exists c. Qed.

Lemma keys_preserved_trans (h1 h2 h3 : gmap nat Client.t) :
  keys_preserved h1 h2 → keys_preserved h2 h3 → keys_preserved h1 h3.
Proof.
  intros H12 H23 p c Hc.
  destruct (H12 p c Hc) as (c2 & Hc2 & Hk2).
  destruct (H23 p c2 Hc2) as (c3 & Hc3 & Hk3).
  exists c3. split; [done|congruence].
Qed.

Lemma keys_preserved_insert (h : gmap nat Client.t) (p : nat)
    (c c' : Client.t) :
  h !! p = Some c →
  Client.subscriptions c' = Client.subscriptions c →
  keys_preserved h (<[p := c']> h).
Proof.
  intros Hc Hk q cq Hq. destruct (decide (q = p)) as [->|Hne].
  - exists c'. rewrite lookup_insert_eq. split; [done|congruence].
  - exists cq. by rewrite lookup_insert_ne.
Qed.

Lemma keys_preserved_fresh (h : gmap nat Client.t) (p : nat)
    (c : Client.t) :
  h !! p = None → keys_preserved h (<[p := c]> h).
Proof.
  intros Hp q cq Hq. exists cq.
  rewrite lookup_insert_ne by congruence. done.
Qed.

Lemma mirrored_keys (s s' : Server) :
  mirrored s →
  subscriptions s' = subscriptions s →
  keys_preserved (heap s) (heap s') →
  mirrored s'.
Proof.
  intros Hm Hsubs Hkeys key subscribed p Hkey Hp.
  rewrite Hsubs in Hkey.
  destruct (Hm key subscribed p Hkey Hp) as (c & Hc & Hin).
  destruct (Hkeys p c Hc) as (c' & Hc' & Hk).
  exists c'. split; [done|]. by rewrite Hk.
Qed.

Lemma mirrored_initial : mirrored initial.
Proof.
  intros key subscribed p Hkey. simpl in Hkey.
  by rewrite lookup_empty in Hkey.
Qed.

Lemma sendMessage_frame (p : nat) (msg : Message) (s s' : Server) :
  sendMessage p msg s = Some s' →
  keys_preserved (heap s) (heap s')
  ∧ clients s' = clients s
  ∧ subscriptions s' = subscriptions s
  ∧ polygonSymbols s' = polygonSymbols s
  ∧ polygonClient s' = polygonClient s.
Proof.
  unfold sendMessage.
  destruct (heap s !! p) as [c|] eqn:Hc; [|done]. simpl.
  destruct (Client.trySend c msg) as [c'|] eqn:Hsend; [|done]. simpl.
  intros [= <-]. simpl. split; [|done].
  eapply keys_preserved_insert; [done|].
  by eapply trySend_keeps_subscriptions.
Qed.

Lemma subscribeToPolygon_frame (symbols : list string) (s s' : Server) :
  subscribeToPolygon symbols s = Some s' →
  heap s' = heap s ∧ clients s' = clients s
  ∧ subscriptions s' = subscriptions s.
Proof.
  unfold subscribeToPolygon.
  destruct (polygonClient s) as [pc|]; [|by intros [= <-]].
  destruct (negb (PolygonClient.IsConnected pc)); [by intros [= <-]|].
  destruct (fold_left acquire symbols (polygonSymbols s, []))
    as [counts newSymbols].
  case_match; [|by intros [= <-]].
  destruct (PolygonClient.Subscribe pc newSymbols) as [[pc' e]|]; [|done].
  by intros [= <-].
Qed.

Lemma mirrored_sendMessage (p : nat) (msg : Message) (s s' : Server) :
  mirrored s → sendMessage p msg s = Some s' → mirrored s'.
Proof.
  intros Hm Hsend.
  destruct (sendMessage_frame _ _ _ _ Hsend) as (Hk & _ & Hs & _).
  by eapply mirrored_keys.
Qed.

Lemma mirrored_subscribe (now : Z) (p : nat) (channel : string)
    (symbols : list string) (s s' : Server) :
  mirrored s → subscribe now p channel symbols s = Some s' → mirrored s'.
Proof.
  intros Hm. unfold subscribe.
  destruct (heap s !! p) as [c|] eqn:Hc; [|done].
  cbn [mbind option_bind].
  set (key := subscription_key channel symbols).
  set (c1 := Client.set_subscriptions c ({[key]} ∪ Client.subscriptions c)).
  set (s1 := set_subscriptions (set_heap s (<[p := c1]> (heap s))) _).
  assert (Hm1 : mirrored s1).
  { intros k subscribed q Hk Hq. subst s1. simpl in *.
    destruct (decide (k = key)) as [->|Hne].
    - rewrite lookup_insert_eq in Hk. injection Hk as <-.
      apply elem_of_union in Hq as [Hq|Hq].
      + apply elem_of_singleton in Hq as ->. exists c1.
        rewrite lookup_insert_eq. split; [done|].
        subst c1. simpl. apply elem_of_union_l. by apply elem_of_singleton.
      + destruct (subscriptions s !! key) as [old|] eqn:Hold;
          [|by apply not_elem_of_empty in Hq].
        simpl in Hq. destruct (Hm key old q Hold Hq) as (cq & Hcq & Hin).
        destruct (decide (q = p)) as [->|Hqp].
        * exists c1. rewrite lookup_insert_eq. split; [done|].
          subst c1. simpl. apply elem_of_union_l. by apply elem_of_singleton.
        * exists cq. by rewrite lookup_insert_ne.
    - rewrite lookup_insert_ne in Hk by done.
      destruct (Hm k subscribed q Hk Hq) as (cq & Hcq & Hin).
      destruct (decide (q = p)) as [->|Hqp].
      + exists c1. rewrite lookup_insert_eq. split; [done|].
        assert (cq = c) as -> by congruence.
        subst c1. simpl. by apply elem_of_union_r.
      + exists cq. by rewrite lookup_insert_ne. }
  clearbody s1.
  match goal with |- context [if ?g then _ else _] => destruct g end.
  - destruct (subscribeToPolygon symbols s1) as [s2|] eqn:Hs2; [|done].
    cbn [mbind option_bind].
    destruct (subscribeToPolygon_frame _ _ _ Hs2) as (Hh & _ & Hs).
    apply mirrored_sendMessage.
    eapply mirrored_keys; [exact Hm1|done|].
    rewrite Hh. apply keys_preserved_refl.
  - cbn [mbind option_bind]. by apply mirrored_sendMessage.
Qed.

(** [Client.unsubscribe] up to the confirmation: the state on which
    [sendMessage] is called. *)
Lemma unsubscribe_inv (now : Z) (p : nat) (channel : string)
    (s s' : Server) :
  unsubscribe now p channel s = Some s' →
  ∃ c s1,
    heap s !! p = Some c
    ∧ heap s1
      = <[p := Client.set_subscriptions c
                 (Client.subscriptions c ∖ {[channel]})]> (heap s)
    ∧ subscriptions s1
      = match subscriptions s !! channel with
        | Some old => <[channel := old ∖ {[p]}]> (subscriptions s)
        | None => subscriptions s
        end
    ∧ polygonSymbols s1 = polygonSymbols s
    ∧ polygonClient s1 = polygonClient s
    ∧ sendMessage p
        {| Type_ := "unsubscribed"; Channel := channel; Data := None;
           MTimestamp := UnixMilli now; Symbols := []; Metadata := [] |} s1
      = Some s'.
Proof.
  unfold unsubscribe.
  destruct (heap s !! p) as [c|] eqn:Hc; [|done].
  cbn [mbind option_bind]. intros Hsend.
  match type of Hsend with sendMessage _ _ ?x = _ => exists c, x end.
  split; [done|].
  cbn [subscriptions set_heap] in *.
  destruct (subscriptions s !! channel); by simpl.
Qed.

Lemma mirrored_unsubscribe (now : Z) (p : nat) (channel : string)
    (s s' : Server) :
  mirrored s → unsubscribe now p channel s = Some s' → mirrored s'.
Proof.
  intros Hm Hun.
  destruct (unsubscribe_inv _ _ _ _ _ Hun)
    as (c & s1 & Hc & Hheap & Hsubs & _ & _ & Hsend).
  eapply mirrored_sendMessage; [|exact Hsend].
  intros k subscribed q Hk Hq. rewrite Hsubs in Hk. rewrite Hheap.
  assert (Hold : ∃ old, subscriptions s !! k = Some old ∧ q ∈ old
                        ∧ (k = channel → q ≠ p)).
  { destruct (subscriptions s !! channel) as [old|] eqn:Hch.
    - destruct (decide (k = channel)) as [->|Hne].
      + rewrite lookup_insert_eq in Hk. injection Hk as <-.
        apply elem_of_difference in Hq as [Hq Hqp].
        exists old. split; [done|]. split; [done|].
        intros _ ->. apply Hqp. by apply elem_of_singleton.
      + rewrite lookup_insert_ne in Hk by done.
        exists subscribed. by split.
    - exists subscribed. split; [done|]. split; [done|].
      intros ->. congruence. }
  destruct Hold as (old & Hkold & Hqold & Hne).
  destruct (Hm k old q Hkold Hqold) as (cq & Hcq & Hin).
  destruct (decide (q = p)) as [->|Hqp].
  - eexists. rewrite lookup_insert_eq. split; [done|].
    assert (cq = c) as -> by congruence. simpl.
    apply elem_of_difference. split; [done|].
    intros ->%elem_of_singleton. by apply Hne.
  - exists cq. by rewrite lookup_insert_ne.
Qed.

(** The loop of [unregisterClient]: under each of the keys of the
    client the session is removed from the entry, if there is one, and
    the other entries are left alone. *)
Lemma remove_subscriber_fold (p : nat) (keys : list string)
    (subs : gmap string (gset nat)) (k : string) :
  fold_left (remove_subscriber p) keys subs !! k
  = if decide (k ∈ keys)
    then (fun subscribed => subscribed ∖ {[p]}) <$> subs !! k
    else subs !! k.
Proof.
  revert subs. induction keys as [|a keys IH]; intros subs;
    cbn [fold_left].
  - destruct (decide (k ∈ [])) as [Hk|]; [by apply elem_of_nil in Hk|done].
  - rewrite IH.
    assert (Hstep : remove_subscriber p subs a !! k
                    = if decide (k = a)
                      then (fun subscribed => subscribed ∖ {[p]}) <$> subs !! k
                      else subs !! k).
    { unfold remove_subscriber. destruct (decide (k = a)) as [->|Hka].
      - destruct (subs !! a) as [old|] eqn:Ha.
        + by rewrite lookup_insert_eq.
        + by rewrite Ha.
      - destruct (subs !! a); [by rewrite lookup_insert_ne|done]. }
    rewrite Hstep.
    destruct (decide (k = a)) as [->|Hka].
    + destruct (decide (a ∈ a :: keys)) as [_|Hn];
        [|exfalso; apply Hn; by left].
      destruct (decide (a ∈ keys)); [|done].
      destruct (subs !! a) as [old|]; simpl; [|done].
      f_equal. set_solver.
    + destruct (decide (k ∈ keys)) as [Hin|Hnin];
        destruct (decide (k ∈ a :: keys)) as [Hin'|Hnin']; try done.
      * exfalso. apply Hnin'. by right.
      * exfalso. apply elem_of_cons in Hin' as [?|?]; done.
Qed.

Lemma unregisterClient_frame (p : nat) (s s' : Server) :
  unregisterClient p s = Some s' →
  keys_preserved (heap s) (heap s')
  ∧ polygonSymbols s' = polygonSymbols s
  ∧ polygonClient s' = polygonClient s
  ∧ broadcast s' = broadcast s.
Proof.
  unfold unregisterClient. case_decide; [|by intros [= <-]; split;
                                          [apply keys_preserved_refl|]].
  destruct (heap s !! p) as [c|] eqn:Hc; [|done]. simpl.
  destruct (Client.send_closed c); [done|].
  intros [= <-]. simpl. split; [|done].
  by eapply keys_preserved_insert.
Qed.

Lemma mirrored_unregisterClient (p : nat) (s s' : Server) :
  mirrored s → unregisterClient p s = Some s' → mirrored s'.
Proof.
  intros Hm Hun.
  destruct (unregisterClient_frame _ _ _ Hun) as (Hkeys & _).
  revert Hun. unfold unregisterClient.
  case_decide; [|by intros [= <-]].
  destruct (heap s !! p) as [c|] eqn:Hc; [|done]. simpl.
  destruct (Client.send_closed c); [done|].
  intros [= <-]. intros k subscribed q Hk Hq. simpl in Hk.
  rewrite remove_subscriber_fold in Hk.
  assert (Hold : ∃ old, subscriptions s !! k = Some old ∧ q ∈ old).
  { case_decide.
    - destruct (subscriptions s !! k) as [old|]; [|done].
      simpl in Hk. injection Hk as <-.
      apply elem_of_difference in Hq as [Hq _]. by exists old.
    - by exists subscribed. }
  destruct Hold as (old & Hkold & Hqold).
  destruct (Hm k old q Hkold Hqold) as (cq & Hcq & Hin).
  destruct (Hkeys q cq Hcq) as (cq' & Hcq' & Hsame).
  exists cq'. split; [done|]. by rewrite Hsame.
Qed.

(** Tearing a session down removes it from the session table and from
    every entry of the registry, and touches neither the reference
    counts nor the upstream client. *)
Lemma unregisterClient_removes (p : nat) (s s' : Server) :
  mirrored s →
  p ∈ clients s →
  unregisterClient p s = Some s' →
  (p ∉ clients s')
  ∧ (∀ key subscribed, subscriptions s' !! key = Some subscribed →
                       p ∉ subscribed)
  ∧ polygonSymbols s' = polygonSymbols s
  ∧ polygonClient s' = polygonClient s.
Proof.
  intros Hm Hp Hun.
  destruct (unregisterClient_frame _ _ _ Hun) as (_ & Hcounts & Hpc & _).
  revert Hun. unfold unregisterClient.
  rewrite decide_True by done.
  destruct (heap s !! p) as [c|] eqn:Hc; [|done]. simpl.
  destruct (Client.send_closed c); [done|].
  intros [= <-]. simpl. split; [set_solver|]. split; [|done].
  intros k subscribed Hk. rewrite remove_subscriber_fold in Hk.
  case_decide as Hin.
  - destruct (subscriptions s !! k) as [old|]; [|done].
    simpl in Hk. injection Hk as <-. set_solver.
  - intros Hq. destruct (Hm k subscribed p Hk Hq) as (cq & Hcq & Hkey).
    assert (cq = c) as -> by congruence.
    apply Hin. by apply elem_of_elements.
Qed.

(** An unsubscribe removes the session from the entry filed under the
    very string it names, and touches neither the reference counts nor
    the upstream client. *)
Lemma unsubscribe_removes (now : Z) (p : nat) (channel : string)
    (s s' : Server) :
  unsubscribe now p channel s = Some s' →
  (∀ subscribed, subscriptions s' !! channel = Some subscribed →
                 p ∉ subscribed)
  ∧ (∀ key, key ≠ channel →
            subscriptions s' !! key = subscriptions s !! key)
  ∧ polygonSymbols s' = polygonSymbols s
  ∧ polygonClient s' = polygonClient s.
Proof.
  intros Hun.
  destruct (unsubscribe_inv _ _ _ _ _ Hun)
    as (c & s1 & Hc & Hheap & Hsubs & Hcounts & Hpc & Hsend).
  destruct (sendMessage_frame _ _ _ _ Hsend) as (_ & _ & -> & -> & ->).
  rewrite Hsubs. split; [|split; [|done]].
  - intros subscribed.
    destruct (subscriptions s !! channel) as [old|] eqn:Hold.
    + rewrite lookup_insert_eq. intros [= <-]. set_solver.
    + by rewrite Hold.
  - intros key Hne.
    destruct (subscriptions s !! channel); [|done].
    by rewrite lookup_insert_ne.
Qed.

Lemma deliver_keys (data : Message) (targets : list nat)
    (h h' : gmap nat Client.t) :
  deliver data targets h = Some h' → keys_preserved h h'.
Proof.
  revert h. induction targets as [|p targets IH]; intros h; simpl.
  - intros [= ->]. apply keys_preserved_refl.
  - destruct (h !! p) as [c|] eqn:Hc; [|done]. simpl.
    destruct (Client.trySend c data) as [c'|] eqn:Hsend; [|done]. simpl.
    intros Hrun. eapply keys_preserved_trans; [|by apply IH].
    eapply keys_preserved_insert; [done|].
    by eapply trySend_keeps_subscriptions.
Qed.

Lemma mirrored_handleMessages (s s' : Server) :
  mirrored s → handleMessages s = Some s' → mirrored s'.
Proof.
  intros Hm. unfold handleMessages.
  destruct (broadcast s) as [|msg rest]; [by intros [= <-]|].
  simpl. destruct (subscriptions s !! Channel msg) as [subscribed|]; simpl.
  - destruct (deliver msg (elements subscribed) (heap s)) as [h'|] eqn:Hrun;
      [|done].
    simpl. intros [= <-]. eapply mirrored_keys; [done|done|].
    by eapply deliver_keys.
  - intros [= <-]. eapply mirrored_keys; [done|done|].
    apply keys_preserved_refl.
Qed.

Lemma mirrored_handleWebSocket (now : Z) (ident : string) (s : Server) :
  mirrored s → mirrored (snd (handleWebSocket now ident s)).
Proof.
  intros Hm. eapply mirrored_keys; [done|done|]. simpl.
  apply keys_preserved_fresh.
  apply not_elem_of_dom. apply is_fresh.
Qed.

Lemma mirrored_broadcast (now : Z) (out : list PolygonMessage) (s : Server) :
  mirrored s → mirrored (fold_left (handlePolygonMessage now) out s).
Proof.
  revert s. induction out as [|pm out IH]; intros s Hm; simpl; [done|].
  apply IH. unfold handlePolygonMessage, broadcastMessage.
  case_match; [|done].
  eapply mirrored_keys; [exact Hm|done|apply keys_preserved_refl].
Qed.

Lemma mirrored_polygon_frame (now : Z) (data : PolygonClient.Batch)
    (s : Server) :
  mirrored s → mirrored (polygon_frame now data s).
Proof.
  intros Hm. unfold polygon_frame.
  destruct (polygonClient s) as [pc|]; [|done].
  destruct (PolygonClient.handleMessage (pc, []) data) as [pc' out].
  apply mirrored_broadcast.
  eapply mirrored_keys; [exact Hm|done|apply keys_preserved_refl].
Qed.

Lemma close_conn_keys (targets : list nat) (h : gmap nat Client.t) :
  keys_preserved h (fold_left close_conn targets h).
Proof.
  revert h. induction targets as [|p targets IH]; intros h; simpl.
  - apply keys_preserved_refl.
  - eapply keys_preserved_trans; [|apply IH].
    unfold close_conn. destruct (h !! p) as [c|] eqn:Hc.
    + by eapply keys_preserved_insert.
    + apply keys_preserved_refl.
Qed.

Lemma mirrored_cleanupStaleConnections (now : Z) (s : Server) :
  mirrored s → mirrored (cleanupStaleConnections now s).
Proof.
  intros Hm. eapply mirrored_keys; [done|done|]. simpl.
  apply close_conn_keys.
Qed.

Lemma mirrored_readPump_message (now : Z) (p : nat)
    (message : option SubscriptionRequest) (s s' : Server) :
  mirrored s → readPump_message now p message s = Some s' → mirrored s'.
Proof.
  intros Hm. unfold readPump_message.
  destruct (heap s !! p) as [c|] eqn:Hc; [|done].
  cbn [mbind option_bind].
  set (s1 := set_heap s _).
  assert (Hm1 : mirrored s1).
  { eapply mirrored_keys; [done|done|]. simpl.
    by eapply keys_preserved_insert. }
  clearbody s1. unfold handleMessage.
  destruct message as [req|]; [|by intros [= <-]].
  repeat case_match.
  - by apply mirrored_subscribe.
  - by apply mirrored_unsubscribe.
  - by apply mirrored_sendMessage.
  - by intros [= <-].
Qed.

Lemma mirrored_readPump_exit (p : nat) (s s' : Server) :
  mirrored s → readPump_exit p s = Some s' → mirrored s'.
Proof.
  intros Hm. unfold readPump_exit.
  destruct (unregisterClient p s) as [s1|] eqn:Hun; [|done].
  cbn [mbind option_bind].
  destruct (heap s1 !! p) as [c|] eqn:Hc; [|done].
  cbn [mbind option_bind]. intros [= <-].
  eapply mirrored_keys; [by eapply mirrored_unregisterClient|done|].
  simpl. by eapply keys_preserved_insert.
Qed.

(** Every handler keeps the registry within the keys of the session
    objects, so the registry of a running gateway always is. *)
Lemma mirrored_initPolygon (now : Z) (key : string) (dial : bool)
    (arrivals : list PolygonClient.Batch) (s s' : Server) :
  mirrored s → initPolygon now key dial arrivals s = Some s' → mirrored s'.
Proof.
  intros Hm. unfold initPolygon. case_match; [by intros [= <-]|].
  destruct (PolygonClient.Connect dial arrivals _) as [[[pc out] err]|];
    [|done].
  cbn [mbind option_bind].
  pose proof (mirrored_broadcast now out s Hm) as Hm1.
  destruct err as [e|].
  - intros [= <-].
    eapply mirrored_keys; [exact Hm1|done|apply keys_preserved_refl].
  - destruct (PolygonClient.Subscribe pc defaultSymbols) as [[pc' e]|]; [|done].
    cbn [mbind option_bind]. intros [= <-].
    eapply mirrored_keys; [exact Hm1|done|apply keys_preserved_refl].
Qed.

Lemma mirrored_pong (now : Z) (p : nat) (s s' : Server) :
  mirrored s → pong now p s = Some s' → mirrored s'.
Proof.
  intros Hm. unfold pong.
  destruct (heap s !! p) as [c|] eqn:Hc; [|done].
  cbn [mbind option_bind]. intros [= <-].
  eapply mirrored_keys; [done|done|]. simpl.
  by eapply keys_preserved_insert.
Qed.

Lemma mirrored_step (s s' : Server) (e : event) :
  mirrored s → step s e = Some s' → mirrored s'.
Proof.
  intros Hm. destruct e; simpl.
  - by apply mirrored_initPolygon.
  - intros [= <-]. by apply mirrored_handleWebSocket.
  - by apply mirrored_readPump_message.
  - by apply mirrored_pong.
  - by apply mirrored_readPump_exit.
  - unfold readPump_observes_close. repeat case_match;
      first [by apply mirrored_readPump_exit | by intros [= <-]].
  - intros [= <-]. by apply mirrored_polygon_frame.
  - intros [= <-]. unfold upstream_read_failed.
    destruct (polygonClient s) as [pc|]; [|done].
    destruct (PolygonClient.reader pc); [|done].
    eapply mirrored_keys; [exact Hm|done|apply keys_preserved_refl].
  - unfold reconnect_fired.
    destruct (polygonClient s) as [pc|]; [|by intros [= <-]].
    destruct (PolygonClient.reconnectTimer pc); [|by intros [= <-]].
    destruct (PolygonClient.reconnect dial arrivals order pc) as [[pc' out]|];
      [|done].
    cbn [mbind option_bind]. intros [= <-]. apply mirrored_broadcast.
    eapply mirrored_keys; [exact Hm|done|apply keys_preserved_refl].
  - intros [= <-]. unfold broadcastMessage. case_match; [|done].
    eapply mirrored_keys; [exact Hm|done|apply keys_preserved_refl].
  - by apply mirrored_handleMessages.
  - intros [= <-]. by apply mirrored_cleanupStaleConnections.
Qed.

Lemma mirrored_trace (events : list event) (s s' : Server) :
  mirrored s → trace events s = Some s' → mirrored s'.
Proof.
  unfold trace. revert s.
  induction events as [|e events IH]; intros s Hm; simpl.
  - by intros [= <-].
  - destruct (step s e) as [s1|] eqn:Hstep.
    + apply IH. by eapply mirrored_step.
    + assert (Hnone : ∀ l, fold_left
                             (fun acc e => acc ≫= fun s => step s e) l None
                           = None) by (induction l; done).
      by rewrite Hnone.
Qed.

(** No routing after teardown, when the handlers do not overtake one
    another: in a gateway reached from start-up by a run in which every
    handler runs from its start to its end, once the read loop of a
    registered session has torn it down, no entry of the registry holds
    the session; the reference counts and the upstream client are as
    they were before. *)
Lemma no_routing_after_teardown (events : list event) (p : nat)
    (s s' : Server) :
  trace events initial = Some s →
  p ∈ clients s →
  readPump_exit p s = Some s' →
  (p ∉ clients s')
  ∧ (∀ key subscribed, subscriptions s' !! key = Some subscribed →
                       p ∉ subscribed)
  ∧ polygonSymbols s' = polygonSymbols s
  ∧ polygonClient s' = polygonClient s.
Proof.
  intros Htrace Hp. unfold readPump_exit.
  destruct (unregisterClient p s) as [s1|] eqn:Hun; [|done].
  cbn [mbind option_bind].
  destruct (heap s1 !! p) as [c|] eqn:Hc; [|done].
  cbn [mbind option_bind]. intros [= <-]. simpl.
  eapply unregisterClient_removes; [|done|done].
  eapply mirrored_trace; [apply mirrored_initial|done].
Qed.

(** An unsubscribe from a channel leaves in place every subscription made
    on that channel with a symbol list. *)
Lemma unsubscribe_keeps_symbol_key (now : Z) (p : nat)
    (channel first : string) (rest : list string) (s s' : Server) :
  unsubscribe now p channel s = Some s' →
  subscriptions s' !! subscription_key channel (first :: rest)
  = subscriptions s !! subscription_key channel (first :: rest).
Proof.
  intros Hun. destruct (unsubscribe_removes _ _ _ _ _ Hun) as (_ & Hkeep & _).
  apply Hkeep. apply subscription_key_not_channel.
Qed.

End registry.

(** ** The sweeper *)

Section sweeper.

Lemma close_conn_fold (targets : list nat) (h : gmap nat Client.t) (p : nat) :
  fold_left close_conn targets h !! p
  = if decide (p ∈ targets) then Client.set_conn_closed <$> h !! p
    else h !! p.
Proof.
  revert h. induction targets as [|a targets IH]; intros h; cbn [fold_left].
  - destruct (decide (p ∈ [])) as [Hp|]; [by apply elem_of_nil in Hp|done].
  - rewrite IH.
    assert (Hstep : close_conn h a !! p
                    = if decide (p = a) then Client.set_conn_closed <$> h !! p
                      else h !! p).
    { unfold close_conn. destruct (decide (p = a)) as [->|Hpa].
      - destruct (h !! a) as [c|] eqn:Ha.
        + by rewrite lookup_insert_eq.
        + by rewrite Ha.
      - destruct (h !! a); [by rewrite lookup_insert_ne|done]. }
    rewrite Hstep.
    destruct (decide (p = a)) as [->|Hpa].
    + destruct (decide (a ∈ a :: targets)) as [_|Hn];
        [|exfalso; apply Hn; by left].
      destruct (decide (a ∈ targets)); [|done].
      by destruct (h !! a).
    + destruct (decide (p ∈ targets)) as [Hin|Hnin];
        destruct (decide (p ∈ a :: targets)) as [Hin'|Hnin']; try done.
      * exfalso. apply Hnin'. by right.
      * exfalso. apply elem_of_cons in Hin' as [?|?]; done.
Qed.

Lemma stale_clients_spec (now : Z) (s : Server) (p : nat) :
  p ∈ stale_clients now s
  ↔ p ∈ clients s ∧ ∃ c, heap s !! p = Some c ∧ is_stale now c = true.
Proof.
  unfold stale_clients.
  rewrite list_elem_of_In, filter_In, <- list_elem_of_In, elem_of_elements.
  split.
  - intros [Hp Hstale]. split; [done|].
    destruct (heap s !! p) as [c|]; [by exists c|done].
  - intros [Hp (c & Hc & Hstale)]. by rewrite Hc.
Qed.

(** Staleness is a last-seen time more than 120 seconds in the past. *)
Lemma is_stale_spec (now : Z) (c : Client.t) :
  minDuration ≤ now - Client.lastSeen c ≤ maxDuration →
  is_stale now c = true ↔ 120 * Second < now - Client.lastSeen c.
Proof.
  intros Hrange. unfold is_stale, Since, staleThreshold.
  destruct (Z.ltb_spec (now - Client.lastSeen c) minDuration); [lia|].
  destruct (Z.ltb_spec maxDuration (now - Client.lastSeen c)); [lia|].
  apply Z.ltb_lt.
Qed.

(** One tick of the sweeper closes the transport of every registered
    session that is stale, leaves every other session as it was, and
    changes nothing else: the registries, the reference counts and the
    upstream client are untouched until the read loops react. *)
Lemma cleanupStaleConnections_spec (now : Z) (s : Server) (p : nat)
    (c : Client.t) :
  heap s !! p = Some c →
  p ∈ clients s →
  heap (cleanupStaleConnections now s) !! p
  = Some (if is_stale now c then Client.set_conn_closed c else c)
  ∧ clients (cleanupStaleConnections now s) = clients s
  ∧ subscriptions (cleanupStaleConnections now s) = subscriptions s
  ∧ polygonSymbols (cleanupStaleConnections now s) = polygonSymbols s
  ∧ polygonClient (cleanupStaleConnections now s) = polygonClient s.
Proof.
  intros Hc Hp. split; [|done]. simpl. rewrite close_conn_fold.
  destruct (is_stale now c) eqn:Hstale.
  - rewrite decide_True; [by rewrite Hc|].
    apply stale_clients_spec. split; [done|]. by exists c.
  - rewrite decide_False; [done|].
    intros (_ & c' & Hc' & Hst)%stale_clients_spec. congruence.
Qed.

End sweeper.

(** ** What no run of the gateway does *)

Section never.

(** [Subscribe] leaves the written frames as they are or adds one
    subscribe frame. *)
Lemma Subscribe_written (pc pc' : PolygonClient.t) (symbols : list string)
    (e : option PolygonClient.error) (c' : Conn) :
  PolygonClient.Subscribe pc symbols = Some (pc', e) →
  PolygonClient.ws pc' = Some c' →
  ∃ c, PolygonClient.ws pc = Some c
       ∧ (written c' = written c
          ∨ ∃ params, written c'
                      = written c ++ [{| Action := "subscribe";
                                         Params := params |}]).
Proof.
  unfold PolygonClient.Subscribe.
  destruct (negb (PolygonClient.connected pc)
            || negb (PolygonClient.authenticated pc)).
  - intros [= <- <-] Hws. exists c'. split; [done|by left].
  - rewrite subscribe_loop_spec. unfold PolygonClient.write. simpl.
    destruct (PolygonClient.ws pc) as [c|]; [|done]. simpl.
    unfold WriteMessage. destruct (closed c) eqn:Hcl.
    + intros [= <- <-]. simpl. intros [= <-]. exists c. split; [done|by left].
    + intros [= <- <-]. simpl. intros [= <-]. exists c. split; [done|].
      right. by eexists.
Qed.

(** [Connect] leaves the session as it was, or on a fresh transport on
    which the authentication frame alone has been written. *)
Lemma Connect_written (dial : bool) (arrivals : list PolygonClient.Batch)
    (pc pc' : PolygonClient.t) (out : list PolygonMessage)
    (e : option PolygonClient.error) :
  PolygonClient.Connect dial arrivals pc = Some (pc', out, e) →
  pc' = pc
  ∨ ∃ c', PolygonClient.ws pc' = Some c'
          ∧ written c' = [{| Action := "auth";
                             Params := PolygonClient.apiKey pc |}].
Proof.
  unfold PolygonClient.Connect. destruct dial; simpl;
    [|intros [= <- <- <-]; by left].
  unfold PolygonClient.authenticate, PolygonClient.write. simpl.
  match goal with |- context [PolygonClient.read_loop arrivals ?q] =>
    pose proof (read_loop_only_auth arrivals q) as [b Hb];
    destruct (PolygonClient.read_loop arrivals q) as [pc1 out1]
  end.
  simpl in Hb. subst pc1. simpl.
  destruct b; simpl; intros [= <- <- <-]; right; by eexists.
Qed.

(** The deferred block of the reader closes the transport and writes
    nothing. *)
Lemma readMessages_exit_ws (pc : PolygonClient.t) :
  PolygonClient.ws (PolygonClient.readMessages_exit pc)
  = CloseConn <$> PolygonClient.ws pc.
Proof.
  unfold PolygonClient.readMessages_exit, PolygonClient.scheduleReconnect.
  destruct pc as [key [c|] co au su ti de mx re rd]; cbn;
    destruct (mx <=? re); reflexivity.
Qed.

(** A reconnect writes the authentication frame and at most one
    subscribe frame on a fresh transport, or leaves the transport as it
    was. *)
Lemma reconnect_written (dial : bool) (arrivals : list PolygonClient.Batch)
    (order : list string) (pc pc' : PolygonClient.t)
    (out : list PolygonMessage) :
  PolygonClient.reconnect dial arrivals order pc = Some (pc', out) →
  (∀ c, PolygonClient.ws pc = Some c →
        Forall (fun f => Action f ≠ "unsubscribe") (written c)) →
  ∀ c', PolygonClient.ws pc' = Some c' →
        Forall (fun f => Action f ≠ "unsubscribe") (written c').
Proof.
  unfold PolygonClient.reconnect.
  set (pc0 := PolygonClient.set_retry pc (PolygonClient.retryCount pc) None).
  destruct (PolygonClient.Connect dial arrivals pc0) as [[[pc1 out1] err]|]
    eqn:Hconn; [|done].
  cbn [mbind option_bind]. intros Hre Hold.
  assert (H1 : ∀ c, PolygonClient.ws pc1 = Some c →
                    Forall (fun f => Action f ≠ "unsubscribe") (written c)).
  { destruct (Connect_written _ _ _ _ _ _ Hconn) as [->|(c1 & Hc1 & Hw1)].
    - exact Hold.
    - intros c Hc. assert (c = c1) as -> by congruence.
      rewrite Hw1. by apply Forall_singleton. }
  destruct err as [e|]; [by injection Hre as <- <-|].
  case_match; [|by injection Hre as <- <-].
  destruct (PolygonClient.Subscribe pc1 _) as [[pc2 e]|] eqn:Hsub; [|done].
  cbn [mbind option_bind] in Hre. injection Hre as <- <-.
  intros c' Hc'.
  destruct (Subscribe_written _ _ _ _ _ Hsub Hc') as (c & Hc & Hw).
  pose proof (H1 c Hc) as Hq.
  destruct Hw as [->|[params ->]]; [done|].
  apply Forall_app. split; [done|]. by apply Forall_singleton.
Qed.

Lemma upstream_quiet_same (s s' : Server) :
  upstream_quiet s → polygonClient s' = polygonClient s → upstream_quiet s'.
Proof. intros Hq Hpc pc c. rewrite Hpc. apply Hq. Qed.

Lemma subscribeToPolygon_upstream (symbols : list string) (s s' : Server) :
  subscribeToPolygon symbols s = Some s' →
  (upstream_quiet s → upstream_quiet s')
  ∧ ∀ x, is_Some (polygonSymbols s !! x) → is_Some (polygonSymbols s' !! x).
Proof.
  unfold subscribeToPolygon.
  destruct (polygonClient s) as [pc|] eqn:Hpc; [|by intros [= <-]].
  destruct (negb (PolygonClient.IsConnected pc)); [by intros [= <-]|].
  pose proof (acquire_keeps symbols (polygonSymbols s) []) as Hkeep.
  destruct (fold_left acquire symbols (polygonSymbols s, []))
    as [counts newSymbols].
  case_match.
  - destruct (PolygonClient.Subscribe pc newSymbols) as [[pc' e]|] eqn:Hsub;
      [|done].
    cbn [mbind option_bind]. intros [= <-]. split; [|exact Hkeep].
    intros Hq pc0 c0. simpl. intros [= <-] Hws.
    destruct (Subscribe_written _ _ _ _ _ Hsub Hws) as (c & Hc & Hw).
    pose proof (Hq pc c Hpc Hc) as Hold.
    destruct Hw as [->|[params ->]]; [done|].
    apply Forall_app. split; [done|]. by apply Forall_singleton.
  - intros [= <-]. split; [|exact Hkeep].
    intros Hq pc0 c0. simpl. intros [= <-]. by apply Hq.
Qed.

Lemma handleMessage_upstream (now : Z) (p : nat)
    (message : option SubscriptionRequest) (s s' : Server) :
  handleMessage now p message s = Some s' →
  (upstream_quiet s → upstream_quiet s')
  ∧ ∀ x, is_Some (polygonSymbols s !! x) → is_Some (polygonSymbols s' !! x).
Proof.
  unfold handleMessage. destruct message as [req|]; [|by intros [= <-]].
  repeat case_match.
  - unfold subscribe. destruct (heap s !! p) as [c|]; [|done].
    cbn [mbind option_bind].
    match goal with |- context [if ?g then _ else _] => destruct g end.
    + match goal with |- context [subscribeToPolygon ?l ?s1] =>
        destruct (subscribeToPolygon l s1) as [s2|] eqn:Hs2; [|done];
        destruct (subscribeToPolygon_upstream _ _ _ Hs2) as [Hq Hc]
      end.
      cbn [mbind option_bind]. intros Hsend.
      destruct (sendMessage_frame _ _ _ _ Hsend) as (_ & _ & _ & Hn & Hpc).
      split.
      * intros Hquiet. eapply upstream_quiet_same; [|exact Hpc].
        apply Hq. exact Hquiet.
      * intros x Hx. rewrite Hn. by apply Hc.
    + cbn [mbind option_bind]. intros Hsend.
      destruct (sendMessage_frame _ _ _ _ Hsend) as (_ & _ & _ & Hn & Hpc).
      split.
      * intros Hquiet. by eapply upstream_quiet_same.
      * intros x Hx. by rewrite Hn.
  - intros Hun.
    destruct (unsubscribe_removes _ _ _ _ _ Hun) as (_ & _ & Hn & Hpc).
    split.
    + intros Hquiet. by eapply upstream_quiet_same.
    + intros x Hx. by rewrite Hn.
  - intros Hsend.
    destruct (sendMessage_frame _ _ _ _ Hsend) as (_ & _ & _ & Hn & Hpc).
    split.
    + intros Hquiet. by eapply upstream_quiet_same.
    + intros x Hx. by rewrite Hn.
  - by intros [= <-].
Qed.

Lemma readPump_exit_upstream (p : nat) (s s' : Server) :
  readPump_exit p s = Some s' →
  polygonSymbols s' = polygonSymbols s ∧ polygonClient s' = polygonClient s.
Proof.
  unfold readPump_exit.
  destruct (unregisterClient p s) as [s1|] eqn:Hun; [|done].
  cbn [mbind option_bind].
  destruct (heap s1 !! p) as [c|]; [|done].
  cbn [mbind option_bind]. intros [= <-]. simpl.
  by destruct (unregisterClient_frame _ _ _ Hun) as (_ & -> & -> & _).
Qed.

Lemma broadcast_upstream (now : Z) (out : list PolygonMessage) (s : Server) :
  polygonSymbols (fold_left (handlePolygonMessage now) out s) = polygonSymbols s
  ∧ polygonClient (fold_left (handlePolygonMessage now) out s) = polygonClient s.
Proof.
  revert s. induction out as [|pm out IH]; intros s; simpl; [done|].
  destruct (IH (handlePolygonMessage now s pm)) as [-> ->].
  unfold handlePolygonMessage, broadcastMessage. by case_match.
Qed.

(** Whatever happens, no handler writes an unsubscribe frame upstream and
    no handler removes an entry of the reference counts. *)
Lemma step_upstream (s s' : Server) (e : event) :
  step s e = Some s' →
  (upstream_quiet s → upstream_quiet s')
  ∧ ∀ x, is_Some (polygonSymbols s !! x) → is_Some (polygonSymbols s' !! x).
Proof.
  assert (Hsame : ∀ s1 s2 : Server,
             polygonSymbols s2 = polygonSymbols s1 →
             polygonClient s2 = polygonClient s1 →
             (upstream_quiet s1 → upstream_quiet s2)
             ∧ ∀ x, is_Some (polygonSymbols s1 !! x) →
                    is_Some (polygonSymbols s2 !! x)).
  { intros s1 s2 Hn Hpc. split.
    - intros Hq. by eapply upstream_quiet_same.
    - intros x. by rewrite Hn. }
  destruct e; simpl.
  - unfold initPolygon. case_match; [intros [= <-]; by apply Hsame|].
    destruct (PolygonClient.Connect dial arrivals _) as [[[pc out] err]|]
      eqn:Hconn; [|done].
    cbn [mbind option_bind].
    destruct (broadcast_upstream now out s) as [Hn Hpc].
    destruct err as [err|].
    + intros [= <-]. split; [|intros x; simpl; by rewrite Hn].
      intros _ pc0 c0. by simpl.
    + destruct (PolygonClient.Subscribe pc defaultSymbols) as [[pc' e]|]
        eqn:Hsub; [|done].
      cbn [mbind option_bind]. intros [= <-].
      split; [|intros x; simpl; by rewrite Hn].
      intros _ pc0 c0. simpl. intros [= <-] Hws.
      destruct (Subscribe_written _ _ _ _ _ Hsub Hws) as (c & Hc & Hw).
      destruct (Connect_written _ _ _ _ _ _ Hconn) as [->|(c1 & Hc1 & Hw1)];
        [done|].
      assert (c1 = c) as -> by congruence.
      destruct Hw as [->|[params ->]]; rewrite Hw1.
      * by apply Forall_singleton.
      * apply Forall_app. split; by apply Forall_singleton.
  - intros [= <-]. by apply Hsame.
  - unfold readPump_message. destruct (heap s !! p) as [c|]; [|done].
    cbn [mbind option_bind]. intros Hh.
    by destruct (handleMessage_upstream _ _ _ _ _ Hh).
  - unfold pong. destruct (heap s !! p) as [c|]; [|done].
    cbn [mbind option_bind]. intros [= <-]. by apply Hsame.
  - intros Hexit. destruct (readPump_exit_upstream _ _ _ Hexit).
    by apply Hsame.
  - unfold readPump_observes_close. repeat case_match;
      try (intros [= <-]; by apply Hsame).
    intros Hexit. destruct (readPump_exit_upstream _ _ _ Hexit).
    by apply Hsame.
  - intros [= <-]. unfold polygon_frame.
    destruct (polygonClient s) as [pc|] eqn:Hpc; [|by apply Hsame].
    pose proof (handleMessage_only_auth (pc, []) data) as [b Hb].
    destruct (PolygonClient.handleMessage (pc, []) data) as [pc' out].
    simpl in Hb. subst pc'.
    destruct (broadcast_upstream now out
                (set_polygon s (polygonSymbols s)
                   (Some (PolygonClient.set_flags pc
                            (PolygonClient.connected pc) b)))) as [Hn Hc].
    split; [|intros x; by rewrite Hn].
    intros Hq pc0 c0. rewrite Hc. simpl. intros [= <-]. simpl.
    by apply Hq.
  - intros [= <-]. unfold upstream_read_failed.
    destruct (polygonClient s) as [pc|] eqn:Hpc; [|by apply Hsame].
    destruct (PolygonClient.reader pc); [|by apply Hsame].
    split; [|done].
    intros Hq pc0 c0. simpl. intros [= <-].
    rewrite readMessages_exit_ws.
    destruct (PolygonClient.ws pc) as [c|] eqn:Hc; [|done].
    simpl. intros [= <-]. simpl. by apply (Hq pc c).
  - unfold reconnect_fired.
    destruct (polygonClient s) as [pc|] eqn:Hpc; [|intros [= <-]; by apply Hsame].
    destruct (PolygonClient.reconnectTimer pc);
      [|intros [= <-]; by apply Hsame].
    destruct (PolygonClient.reconnect dial arrivals order pc) as [[pc' out]|]
      eqn:Hre; [|done].
    cbn [mbind option_bind]. intros [= <-].
    destruct (broadcast_upstream now out
                (set_polygon s (polygonSymbols s) (Some pc'))) as [Hn Hc].
    split; [|intros x; by rewrite Hn].
    intros Hq pc0 c0. rewrite Hc. simpl. intros [= <-].
    apply (reconnect_written _ _ _ _ _ _ Hre). intros c. by apply Hq.
  - intros [= <-]. apply Hsame; unfold broadcastMessage; by case_match.
  - unfold handleMessages. destruct (broadcast s) as [|msg rest];
      [intros [= <-]; by apply Hsame|].
    simpl. destruct (subscriptions s !! Channel msg) as [subscribed|];
      simpl; [|intros [= <-]; by apply Hsame].
    destruct (deliver msg (elements subscribed) (heap s)); [|done].
    simpl. intros [= <-]. by apply Hsame.
  - intros [= <-]. by apply Hsame.
Qed.

(** In every run of the gateway from its initial state, no unsubscribe
    frame is ever written upstream. *)
Lemma never_unsubscribes_upstream (events : list event) (s : Server) :
  trace events initial = Some s → upstream_quiet s.
Proof.
  assert (Hgen : ∀ s0, upstream_quiet s0 →
                       trace events s0 = Some s → upstream_quiet s).
  { unfold trace. induction events as [|e events IH]; intros s0 Hq; simpl.
    - by intros [= <-].
    - destruct (step s0 e) as [s1|] eqn:Hstep.
      + apply IH. by apply (step_upstream _ _ _ Hstep).
      + assert (Hnone : ∀ l, fold_left
                               (fun acc e => acc ≫= fun s => step s e) l None
                             = None) by (induction l; done).
        by rewrite Hnone. }
  apply Hgen. intros pc c Hpc. done.
Qed.

(** In every run of the gateway, a symbol that has an entry in the
    reference counts keeps one for ever. *)
Lemma refcount_entries_stay (events : list event) (s s' : Server)
    (x : string) :
  trace events s = Some s' →
  is_Some (polygonSymbols s !! x) →
  is_Some (polygonSymbols s' !! x).
Proof.
  unfold trace. revert s.
  induction events as [|e events IH]; intros s; simpl.
  - by intros [= <-].
  - destruct (step s e) as [s1|] eqn:Hstep.
    + intros Hrun Hx. apply (IH s1 Hrun).
      by apply (step_upstream _ _ _ Hstep).
    + assert (Hnone : ∀ l, fold_left
                             (fun acc e => acc ≫= fun s => step s e) l None
                           = None) by (induction l; done).
      by rewrite Hnone.
Qed.

End never.

(** ** Queues of registered sessions *)

Section queues.

Lemma open_kept_refl (h : gmap nat Client.t) : open_kept h h.
Proof. intros p c Hc Ho. by exists c. Qed.

Lemma open_kept_trans (h1 h2 h3 : gmap nat Client.t) :
  open_kept h1 h2 → open_kept h2 h3 → open_kept h1 h3.
Proof.
  intros H12 H23 p c Hc Ho.
  destruct (H12 p c Hc Ho) as (c2 & Hc2 & Ho2). by apply (H23 p c2).
Qed.

Lemma open_kept_insert (h : gmap nat Client.t) (p : nat) (c' : Client.t) :
  Client.send_closed c' = false → open_kept h (<[p := c']> h).
Proof.
  intros Ho q cq Hq Hoq. destruct (decide (q = p)) as [->|Hne].
  - exists c'. by rewrite lookup_insert_eq.
  - exists cq. by rewrite lookup_insert_ne.
Qed.

Lemma open_kept_same_flag (h : gmap nat Client.t) (p : nat)
    (c c' : Client.t) :
  h !! p = Some c →
  Client.send_closed c' = Client.send_closed c →
  open_kept h (<[p := c']> h).
Proof.
  intros Hc Hflag q cq Hq Hoq. destruct (decide (q = p)) as [->|Hne].
  - exists c'. rewrite lookup_insert_eq. split; [done|].
    rewrite Hflag. congruence.
  - exists cq. by rewrite lookup_insert_ne.
Qed.

Lemma open_queues_kept (s s' : Server) :
  open_queues s →
  (∀ key subscribed p,
      subscriptions s' !! key = Some subscribed → p ∈ subscribed →
      (∃ c, heap s' !! p = Some c ∧ Client.send_closed c = false)
      ∨ ∃ old, subscriptions s !! key = Some old ∧ p ∈ old) →
  open_kept (heap s) (heap s') →
  open_queues s'.
Proof.
  intros Ho Hsubs Hkept key subscribed p Hkey Hp.
  destruct (Hsubs key subscribed p Hkey Hp) as [?|(old & Hold & Hpo)];
    [done|].
  destruct (Ho key old p Hold Hpo) as (c & Hc & Hopen).
  by apply (Hkept p c).
Qed.

Lemma open_queues_same (s s' : Server) :
  open_queues s →
  subscriptions s' = subscriptions s →
  open_kept (heap s) (heap s') →
  open_queues s'.
Proof.
  intros Ho Hsubs Hkept. eapply open_queues_kept; [done| |done].
  intros key subscribed p Hkey Hp. right. exists subscribed.
  by rewrite <- Hsubs.
Qed.

Lemma trySend_open (c c' : Client.t) (data : Message) :
  Client.trySend c data = Some c' → Client.send_closed c' = false.
Proof.
  unfold Client.trySend. destruct (Client.send_closed c) eqn:Ho; [done|].
  case_match; by intros [= <-].
Qed.

(** After a successful [sendMessage] the queue of the session is open and
    every other session object is as it was. *)
Lemma sendMessage_open (p : nat) (msg : Message) (s s' : Server) :
  sendMessage p msg s = Some s' →
  (∃ c', heap s' !! p = Some c' ∧ Client.send_closed c' = false)
  ∧ open_kept (heap s) (heap s')
  ∧ subscriptions s' = subscriptions s.
Proof.
  unfold sendMessage.
  destruct (heap s !! p) as [c|] eqn:Hc; [|done]. simpl.
  destruct (Client.trySend c msg) as [c'|] eqn:Hsend; [|done]. simpl.
  intros [= <-]. simpl. pose proof (trySend_open _ _ _ Hsend) as Ho.
  split; [|split; [|done]].
  - exists c'. by rewrite lookup_insert_eq.
  - by apply open_kept_insert.
Qed.

(** [Client.subscribe] up to the confirmation: the state on which
    [sendMessage] is called. *)
Lemma subscribe_inv (now : Z) (p : nat) (channel : string)
    (symbols : list string) (s s' : Server) :
  subscribe now p channel symbols s = Some s' →
  ∃ c s1,
    heap s !! p = Some c
    ∧ heap s1
      = <[p := Client.set_subscriptions c
                 ({[subscription_key channel symbols]}
                  ∪ Client.subscriptions c)]> (heap s)
    ∧ subscriptions s1
      = <[subscription_key channel symbols
          := {[p]} ∪ default ∅ (subscriptions s
                                 !! subscription_key channel symbols)]>
          (subscriptions s)
    ∧ sendMessage p
        {| Type_ := "subscribed"; Channel := channel; Data := None;
           MTimestamp := UnixMilli now; Symbols := symbols; Metadata := [] |}
        s1
      = Some s'.
Proof.
  unfold subscribe.
  destruct (heap s !! p) as [c|] eqn:Hc; [|done].
  cbn [mbind option_bind].
  match goal with |- context [if ?g then _ else _] => destruct g end.
  - match goal with |- context [subscribeToPolygon ?l ?s1] =>
      destruct (subscribeToPolygon l s1) as [s2|] eqn:Hs2; [|done];
      destruct (subscribeToPolygon_frame _ _ _ Hs2) as (Hh & _ & Hs)
    end.
    cbn [mbind option_bind]. intros Hsend.
    exists c, s2. split; [done|]. rewrite Hh, Hs.
    split; [done|]. split; [done|exact Hsend].
  - cbn [mbind option_bind]. intros Hsend. eexists c, _.
    split; [done|]. split; [|split; [|exact Hsend]]; done.
Qed.

Lemma open_queues_subscribe (now : Z) (p : nat) (channel : string)
    (symbols : list string) (s s' : Server) :
  open_queues s → subscribe now p channel symbols s = Some s' →
  open_queues s'.
Proof.
  intros Ho Hsub.
  destruct (subscribe_inv _ _ _ _ _ _ Hsub)
    as (c & s1 & Hc & Hheap & Hsubs & Hsend).
  destruct (sendMessage_open _ _ _ _ Hsend) as ((c' & Hc' & Ho') & Hk & Hs).
  intros key subscribed q Hkey Hq. rewrite Hs, Hsubs in Hkey.
  destruct (decide (q = p)) as [->|Hqp]; [by exists c'|].
  assert (Hold : ∃ old, subscriptions s !! key = Some old ∧ q ∈ old).
  { destruct (decide (key = subscription_key channel symbols)) as [->|Hne].
    - rewrite lookup_insert_eq in Hkey. injection Hkey as <-.
      apply elem_of_union in Hq as [Hq|Hq];
        [by apply elem_of_singleton in Hq|].
      destruct (subscriptions s !! subscription_key channel symbols)
        as [old|]; [by exists old|by apply not_elem_of_empty in Hq].
    - rewrite lookup_insert_ne in Hkey by done. by exists subscribed. }
  destruct Hold as (old & Hold & Hqo).
  destruct (Ho key old q Hold Hqo) as (cq & Hcq & Hoq).
  apply (Hk q cq); [|done].
  rewrite Hheap. by rewrite lookup_insert_ne.
Qed.

Lemma open_queues_unsubscribe (now : Z) (p : nat) (channel : string)
    (s s' : Server) :
  open_queues s → unsubscribe now p channel s = Some s' → open_queues s'.
Proof.
  intros Ho Hun.
  destruct (unsubscribe_inv _ _ _ _ _ Hun)
    as (c & s1 & Hc & Hheap & Hsubs & _ & _ & Hsend).
  destruct (sendMessage_open _ _ _ _ Hsend) as ((c' & Hc' & Ho') & Hk & Hs).
  intros key subscribed q Hkey Hq. rewrite Hs, Hsubs in Hkey.
  destruct (decide (q = p)) as [->|Hqp]; [by exists c'|].
  assert (Hold : ∃ old, subscriptions s !! key = Some old ∧ q ∈ old).
  { destruct (subscriptions s !! channel) as [old|] eqn:Hch;
      [|by exists subscribed].
    destruct (decide (key = channel)) as [->|Hne].
    - rewrite lookup_insert_eq in Hkey. injection Hkey as <-.
      apply elem_of_difference in Hq as [Hq _]. by exists old.
    - rewrite lookup_insert_ne in Hkey by done. by exists subscribed. }
  destruct Hold as (old & Hold & Hqo).
  destruct (Ho key old q Hold Hqo) as (cq & Hcq & Hoq).
  apply (Hk q cq); [|done].
  rewrite Hheap. by rewrite lookup_insert_ne.
Qed.

Lemma open_queues_unregisterClient (p : nat) (s s' : Server) :
  mirrored s → open_queues s → unregisterClient p s = Some s' →
  open_queues s'.
Proof.
  intros Hm Ho. unfold unregisterClient.
  case_decide as Hp; [|by intros [= <-]].
  destruct (heap s !! p) as [c|] eqn:Hc; [|done]. simpl.
  destruct (Client.send_closed c); [done|].
  intros [= <-]. intros key subscribed q Hkey Hq. simpl in *.
  rewrite remove_subscriber_fold in Hkey.
  assert (Hold : ∃ old, subscriptions s !! key = Some old ∧ q ∈ old
                        ∧ q ≠ p).
  { case_decide as Hin.
    - destruct (subscriptions s !! key) as [old|]; [|done].
      simpl in Hkey. injection Hkey as <-.
      apply elem_of_difference in Hq as [Hq Hqp].
      exists old. split; [done|]. split; [done|].
      intros ->. apply Hqp. by apply elem_of_singleton.
    - exists subscribed. split; [done|]. split; [done|].
      intros ->. destruct (Hm key subscribed p Hkey Hq) as (c0 & Hc0 & Hk).
      assert (c0 = c) as -> by congruence.
      apply Hin. by apply elem_of_elements. }
  destruct Hold as (old & Hold & Hqo & Hqp).
  destruct (Ho key old q Hold Hqo) as (cq & Hcq & Hoq).
  exists cq. by rewrite lookup_insert_ne.
Qed.

Lemma deliver_open (data : Message) (targets : list nat)
    (h h' : gmap nat Client.t) :
  deliver data targets h = Some h' → open_kept h h'.
Proof.
  revert h. induction targets as [|p targets IH]; intros h; simpl.
  - intros [= ->]. apply open_kept_refl.
  - destruct (h !! p) as [c|] eqn:Hc; [|done]. simpl.
    destruct (Client.trySend c data) as [c'|] eqn:Hsend; [|done]. simpl.
    intros Hrun. eapply open_kept_trans; [|by apply IH].
    apply open_kept_insert. by eapply trySend_open.
Qed.

Lemma close_conn_open (targets : list nat) (h : gmap nat Client.t) :
  open_kept h (fold_left close_conn targets h).
Proof.
  revert h. induction targets as [|p targets IH]; intros h; simpl.
  - apply open_kept_refl.
  - eapply open_kept_trans; [|apply IH].
    unfold close_conn. destruct (h !! p) as [c|] eqn:Hc.
    + by eapply open_kept_same_flag.
    + apply open_kept_refl.
Qed.

Lemma open_queues_broadcast (now : Z) (out : list PolygonMessage)
    (s : Server) :
  open_queues s → open_queues (fold_left (handlePolygonMessage now) out s).
Proof.
  revert s. induction out as [|pm out IH]; intros s Ho; simpl; [done|].
  apply IH. unfold handlePolygonMessage, broadcastMessage.
  case_match; [|done].
  eapply open_queues_same; [exact Ho|done|apply open_kept_refl].
Qed.

Lemma open_queues_readPump_exit (p : nat) (s s' : Server) :
  mirrored s → open_queues s → readPump_exit p s = Some s' → open_queues s'.
Proof.
  intros Hm Ho. unfold readPump_exit.
  destruct (unregisterClient p s) as [s1|] eqn:Hun; [|done].
  cbn [mbind option_bind].
  destruct (heap s1 !! p) as [c|] eqn:Hc; [|done].
  cbn [mbind option_bind]. intros [= <-].
  eapply open_queues_same;
    [by eapply open_queues_unregisterClient|done|].
  simpl. by eapply open_kept_same_flag.
Qed.

(** Every handler keeps the queues of the registered sessions open. *)
Lemma open_queues_step (s s' : Server) (e : event) :
  mirrored s → open_queues s → step s e = Some s' → open_queues s'.
Proof.
  intros Hm Ho. destruct e; simpl.
  - unfold initPolygon. case_match; [by intros [= <-]|].
    destruct (PolygonClient.Connect dial arrivals _) as [[[pc out] err]|];
      [|done].
    cbn [mbind option_bind].
    pose proof (open_queues_broadcast now out s Ho) as Ho1.
    destruct err as [e|].
    + intros [= <-].
      eapply open_queues_same; [exact Ho1|done|apply open_kept_refl].
    + destruct (PolygonClient.Subscribe pc defaultSymbols) as [[pc' e]|];
        [|done].
      cbn [mbind option_bind]. intros [= <-].
      eapply open_queues_same; [exact Ho1|done|apply open_kept_refl].
  - intros [= <-]. eapply open_queues_same; [done|done|]. simpl.
    by apply open_kept_insert.
  - unfold readPump_message.
    destruct (heap s !! p) as [c|] eqn:Hc; [|done].
    cbn [mbind option_bind].
    set (s1 := set_heap s _).
    assert (Ho1 : open_queues s1).
    { eapply open_queues_same; [done|done|]. simpl.
      by eapply open_kept_same_flag. }
    clearbody s1. unfold handleMessage.
    destruct message as [req|]; [|by intros [= <-]].
    repeat case_match.
    + by apply open_queues_subscribe.
    + by apply open_queues_unsubscribe.
    + intros Hsend.
      destruct (sendMessage_open _ _ _ _ Hsend) as (_ & Hk & Hs).
      by eapply open_queues_same.
    + by intros [= <-].
  - unfold pong. destruct (heap s !! p) as [c|] eqn:Hc; [|done].
    cbn [mbind option_bind]. intros [= <-].
    eapply open_queues_same; [done|done|]. simpl.
    by eapply open_kept_same_flag.
  - by apply open_queues_readPump_exit.
  - unfold readPump_observes_close. repeat case_match;
      first [by apply open_queues_readPump_exit | by intros [= <-]].
  - intros [= <-]. unfold polygon_frame.
    destruct (polygonClient s) as [pc|]; [|done].
    destruct (PolygonClient.handleMessage (pc, []) data) as [pc' out].
    apply open_queues_broadcast.
    eapply open_queues_same; [exact Ho|done|apply open_kept_refl].
  - intros [= <-]. unfold upstream_read_failed.
    destruct (polygonClient s) as [pc|]; [|done].
    destruct (PolygonClient.reader pc); [|done].
    eapply open_queues_same; [exact Ho|done|apply open_kept_refl].
  - unfold reconnect_fired.
    destruct (polygonClient s) as [pc|]; [|by intros [= <-]].
    destruct (PolygonClient.reconnectTimer pc); [|by intros [= <-]].
    destruct (PolygonClient.reconnect dial arrivals order pc) as [[pc' out]|];
      [|done].
    cbn [mbind option_bind]. intros [= <-]. apply open_queues_broadcast.
    eapply open_queues_same; [exact Ho|done|apply open_kept_refl].
  - intros [= <-]. unfold broadcastMessage. case_match; [|done].
    eapply open_queues_same; [exact Ho|done|apply open_kept_refl].
  - unfold handleMessages.
    destruct (broadcast s) as [|msg rest]; [by intros [= <-]|].
    simpl. destruct (subscriptions s !! Channel msg) as [subscribed|]; simpl.
    + destruct (deliver msg (elements subscribed) (heap s)) as [h'|] eqn:Hrun;
        [|done].
      simpl. intros [= <-]. eapply open_queues_same; [done|done|].
      by eapply deliver_open.
    + intros [= <-].
      eapply open_queues_same; [done|done|apply open_kept_refl].
  - intros [= <-]. eapply open_queues_same; [done|done|]. simpl.
    apply close_conn_open.
Qed.

Lemma open_queues_trace (events : list event) (s : Server) :
  trace events initial = Some s → mirrored s ∧ open_queues s.
Proof.
  assert (Hgen : ∀ s0, mirrored s0 → open_queues s0 →
                       trace events s0 = Some s → mirrored s ∧ open_queues s).
  { unfold trace. induction events as [|e events IH]; intros s0 Hm Ho; simpl.
    - by intros [= <-].
    - destruct (step s0 e) as [s1|] eqn:Hstep.
      + apply IH; [by eapply mirrored_step|by eapply open_queues_step].
      + assert (Hnone : ∀ l, fold_left
                               (fun acc e => acc ≫= fun s => step s e) l None
                             = None) by (induction l; done).
        by rewrite Hnone. }
  apply Hgen; [apply mirrored_initial|].
  intros key subscribed p Hkey. simpl in Hkey.
  by rewrite lookup_empty in Hkey.
Qed.

(** When the handlers do not overtake one another: in a gateway reached
    from start-up by a run in which every handler runs from its start
    to its end, an iteration of the broadcaster runs to its end,
    whatever the state of the queues. *)
Lemma broadcast_never_stops (events : list event) (s : Server) :
  trace events initial = Some s → is_Some (handleMessages s).
Proof.
  intros Htrace. destruct (open_queues_trace _ _ Htrace) as [_ Ho].
  unfold handleMessages.
  destruct (broadcast s) as [|msg rest]; [by eexists|]. simpl.
  destruct (subscriptions s !! Channel msg) as [subscribed|] eqn:Hsub;
    simpl; [|by eexists].
  destruct (deliver_spec msg (elements subscribed) (heap s))
    as (h' & -> & _).
  - apply NoDup_elements.
  - intros q Hq. apply (Ho (Channel msg) subscribed q Hsub).
    by apply elem_of_elements.
  - by eexists.
Qed.

End queues.

(** ** Slow consumers *)

Section slow_consumers.

Lemma broadcast_fields (now : Z) (out : list PolygonMessage) (s : Server) :
  heap (fold_left (handlePolygonMessage now) out s) = heap s
  ∧ clients (fold_left (handlePolygonMessage now) out s) = clients s
  ∧ subscriptions (fold_left (handlePolygonMessage now) out s)
    = subscriptions s.
Proof.
  revert s. induction out as [|pm out IH]; intros s; simpl; [done|].
  destruct (IH (handlePolygonMessage now s pm)) as (-> & -> & ->).
  unfold handlePolygonMessage, broadcastMessage. by case_match.
Qed.

(** While the queue of a session is full, a record that comes from
    upstream and an iteration of the broadcaster leave the session as it
    is, and the sessions and the registry as they are. *)
Lemma feed_step (s : Server) (e : event) (p : nat) (c : Client.t) :
  feeds e = true →
  open_queues s →
  heap s !! p = Some c →
  Client.send_closed c = false →
  Client.send_capacity ≤ Z.of_nat (length (Client.send c)) →
  ∃ s', step s e = Some s'
        ∧ open_queues s'
        ∧ heap s' !! p = Some c
        ∧ clients s' = clients s
        ∧ subscriptions s' = subscriptions s.
Proof.
  intros He Ho Hc Hopen Hfull. destruct e; try done; simpl.
  - eexists. split; [done|]. unfold polygon_frame.
    destruct (polygonClient s) as [pc|]; [|done].
    destruct (PolygonClient.handleMessage (pc, []) data) as [pc' out].
    destruct (broadcast_fields now out
                (set_polygon s (polygonSymbols s) (Some pc')))
      as (Hh & Hcl & Hs).
    split; [|by rewrite Hh, Hcl, Hs].
    apply open_queues_broadcast.
    eapply open_queues_same; [exact Ho|done|apply open_kept_refl].
  - unfold handleMessages.
    destruct (broadcast s) as [|msg rest]; [by exists s|]. simpl.
    destruct (subscriptions s !! Channel msg) as [subscribed|] eqn:Hsub;
      simpl; last first.
    { eexists. split; [done|]. split; [|done].
      eapply open_queues_same; [exact Ho|done|apply open_kept_refl]. }
    destruct (deliver_spec msg (elements subscribed) (heap s))
      as (h' & Hrun & Hin & Hout).
    { apply NoDup_elements. }
    { intros q Hq. apply (Ho (Channel msg) subscribed q Hsub).
      by apply elem_of_elements. }
    rewrite Hrun. simpl. eexists. split; [done|]. simpl.
    split; [|split; [|done]].
    + eapply open_queues_same; [exact Ho|done|].
      simpl. by eapply deliver_open.
    + destruct (decide (p ∈ elements subscribed)) as [Hp|Hp].
      * rewrite Hin, Hc by done. simpl. by apply trySend_full.
      * by rewrite Hout.
Qed.

Lemma feed_trace (events : list event) (s : Server) (p : nat)
    (c : Client.t) :
  Forall (fun e => feeds e = true) events →
  open_queues s →
  heap s !! p = Some c →
  Client.send_closed c = false →
  Client.send_capacity ≤ Z.of_nat (length (Client.send c)) →
  ∃ s', trace events s = Some s'
        ∧ heap s' !! p = Some c
        ∧ clients s' = clients s
        ∧ subscriptions s' = subscriptions s.
Proof.
  intros Hall. revert s.
  induction Hall as [|e events He _ IH]; intros s Ho Hc Hopen Hfull.
  - by exists s.
  - destruct (feed_step s e p c He Ho Hc Hopen Hfull)
      as (s1 & Hstep & Ho1 & Hc1 & Hcl1 & Hs1).
    destruct (IH s1 Ho1 Hc1 Hopen Hfull) as (s' & Hrun & Hc' & Hcl' & Hs').
    exists s'. rewrite trace_cons, Hstep. simpl.
    split; [done|]. split; [done|]. split; congruence.
Qed.

(** C7, as the program has it. When the queue of a session (capacity
    256) is full, enqueueing does not wait: [sendMessage] returns the
    state it was given, and an iteration of [handleMessages] runs to
    its end, leaves the full session exactly as it was, still
    registered and still subscribed, and appends the message to the
    queue of every other subscriber that has room. No count of the
    drops is kept and no number of drops closes the session: however
    many records come from upstream and are taken by the broadcaster
    while the queue is full, the session object, the session table and
    the registry stay what they were. *)
Theorem full_queue_drops (s : Server) (msg : Message) (rest : list Message)
    (subscribed : gset nat) (p : nat) (c : Client.t) :
  broadcast s = msg :: rest →
  subscriptions s !! Channel msg = Some subscribed →
  (∀ q, q ∈ subscribed →
        ∃ cq, heap s !! q = Some cq ∧ Client.send_closed cq = false) →
  p ∈ subscribed →
  heap s !! p = Some c →
  Client.send_capacity ≤ Z.of_nat (length (Client.send c)) →
  sendMessage p msg s = Some s
  ∧ (∃ s', handleMessages s = Some s'
           ∧ heap s' !! p = Some c
           ∧ clients s' = clients s
           ∧ subscriptions s' = subscriptions s
           ∧ ∀ q cq, q ∈ subscribed →
                     heap s !! q = Some cq →
                     Z.of_nat (length (Client.send cq)) < Client.send_capacity →
                     heap s' !! q
                     = Some (Client.set_send cq (Client.send cq ++ [msg]) false))
  ∧ (open_queues s →
     ∀ events, Forall (fun e => feeds e = true) events →
       ∃ s', trace events s = Some s'
             ∧ heap s' !! p = Some c
             ∧ clients s' = clients s
             ∧ subscriptions s' = subscriptions s).
Proof.
  intros Hb Hsub Hopen Hp Hc Hfull.
  destruct (Hopen p Hp) as (c0 & Hc0 & Hcl).
  assert (c0 = c) as -> by congruence.
  split; [|split].
  - unfold sendMessage. rewrite Hc. simpl.
    rewrite trySend_full by done. simpl.
    rewrite insert_id by done. by rewrite set_heap_same.
  - unfold handleMessages. rewrite Hb. simpl. rewrite Hsub.
    destruct (deliver_spec msg (elements subscribed) (heap s))
      as (h' & Hrun & Hin & Hout).
    { apply NoDup_elements. }
    { intros q Hq. apply Hopen. by apply elem_of_elements. }
    rewrite Hrun. simpl. eexists. split; [done|]. simpl.
    split; [|split; [done|split; [done|]]].
    + rewrite Hin by (by apply elem_of_elements).
      rewrite Hc. simpl. by apply trySend_full.
    + intros q cq Hq Hcq Hroom.
      rewrite Hin by (by apply elem_of_elements).
      rewrite Hcq. simpl.
      destruct (Hopen q Hq) as (cq' & Hcq' & Hclq).
      assert (cq' = cq) as -> by congruence.
      by apply trySend_room.
  - intros Ho events Hall. by apply feed_trace.
Qed.

Lemma full_queue_drops_witness :
  sendMessage 0 market_data_AAPL
    (broadcastMessage market_data_AAPL slow_and_fast)
  = Some (broadcastMessage market_data_AAPL slow_and_fast)
  ∧ (∃ s', handleMessages (broadcastMessage market_data_AAPL slow_and_fast)
           = Some s'
           ∧ heap s' !! 0%nat = Some slow_client
           ∧ heap s' !! 1%nat
             = Some (Client.set_send fast_client [market_data_AAPL] false))
  ∧ ∃ s', trace [Broadcast; Upstream (t0 + 1) trade_frame; Broadcast;
                 Upstream (t0 + 2) trade_frame; Broadcast]
            (broadcastMessage market_data_AAPL slow_and_fast) = Some s'
          ∧ heap s' !! 0%nat = Some slow_client
          ∧ clients s' = clients slow_and_fast
          ∧ subscriptions s' = subscriptions slow_and_fast.
Proof.
  destruct (full_queue_drops
              (broadcastMessage market_data_AAPL slow_and_fast)
              market_data_AAPL [] {[ 0%nat; 1%nat ]} 0%nat slow_client)
    as (Hsend & (s1 & Hrun & Hslow & _ & _ & Hfast) & Hmany).
  - reflexivity.
  - reflexivity.
  - intros q Hq.
    apply elem_of_union in Hq as [Hq|Hq]; apply elem_of_singleton in Hq;
      subst q; eexists; split; reflexivity.
  - apply elem_of_union_l. by apply elem_of_singleton.
  - reflexivity.
  - vm_compute. congruence.
  - split; [exact Hsend|]. split.
    + exists s1. split; [exact Hrun|]. split; [exact Hslow|].
      apply (Hfast 1%nat fast_client).
      * apply elem_of_union_r. by apply elem_of_singleton.
      * reflexivity.
      * vm_compute. reflexivity.
    + apply Hmany.
      * intros key subscribed q Hkey Hq.
        change (subscriptions (broadcastMessage market_data_AAPL slow_and_fast))
          with ({[ "trades" := {[ 0%nat; 1%nat ]} ]} : gmap string (gset nat))
          in Hkey.
        apply lookup_singleton_Some in Hkey as [_ <-].
        apply elem_of_union in Hq as [Hq|Hq]; apply elem_of_singleton in Hq;
          subst q; eexists; split; reflexivity.
      * repeat constructor.
Defined.

(** C7, as stated, fails. A session with a full queue is offered a
    thousand trades: every one is dropped, and afterwards the session
    object is what it was before (so nothing in it counted the drops),
    its queue and its transport are open, and it is still registered
    and subscribed; the other subscriber has received up to its own
    capacity. *)
Lemma slow_session_never_closed :
  (fun s => heap s !! 0%nat) <$> slow_consumer 1000 = Some (Some slow_client)
  ∧ Client.send_closed slow_client = false
  ∧ Client.conn_closed slow_client = false
  ∧ (fun s => elements (clients s)) <$> slow_consumer 1000
    = Some (elements (clients slow_and_fast))
  ∧ subscribers "trades" <$> slow_consumer 1000 = Some [0%nat; 1%nat]
  ∧ (fun s => length <$> queue_of 1 s) <$> slow_consumer 1000
    = Some (Some 256%nat).
Proof. evaluate. Qed.

End slow_consumers.

(** * Further properties of the gateway *)

(** ** The upstream session *)

Section upstream_session.
Import PolygonClient.

Lemma unsubscribe_loop_spec (symbols : list string) (pc : t) :
  unsubscribe_loop symbols pc
  = (flat_map tokens symbols,
     set_subscriptions pc (subscriptions pc ∖ list_to_set symbols)).
Proof. unfold unsubscribe_loop. by rewrite unsubscribe_loop_from. Qed.

Lemma set_flags_same (pc : t) :
  set_flags pc (connected pc) (authenticated pc) = pc.
Proof. by destruct pc. Qed.

(** X1. With the session connected and its transport open,
    [Unsubscribe] writes exactly one frame, whose action is
    "unsubscribe" and whose parameters are the tokens T.SYM, Q.SYM,
    A.SYM of each symbol in order joined by commas, and removes every
    listed symbol from the subscribed symbols, whether or not it was
    there. Unlike [Subscribe] it does not ask for the session to be
    authenticated. When the session is not connected it returns the
    error "not connected", writes nothing and removes nothing. *)
Theorem Unsubscribe_frame (pc : t) (symbols : list string) (c : Conn) :
  ws pc = Some c →
  closed c = false →
  (connected pc = true →
     Unsubscribe pc symbols
     = Some (set_subscriptions
               (set_ws pc
                  (Some {| closed := false;
                           written :=
                             written c
                             ++ [{| Action := "unsubscribe";
                                    Params := Join (flat_map tokens symbols) "," |}] |}))
               (subscriptions pc ∖ list_to_set symbols),
             None))
  ∧ (connected pc = false →
     Unsubscribe pc symbols = Some (pc, Some ErrNotConnected)).
Proof.
  intros Hws Hopen. unfold Unsubscribe. split; intros ->; simpl; [|done].
  rewrite unsubscribe_loop_spec. unfold write. simpl. rewrite Hws. simpl.
  unfold WriteMessage. rewrite Hopen. reflexivity.
Qed.

Lemma Unsubscribe_frame_witness :
  Unsubscribe ready_upstream ["AAPL"]
  = Some (set_subscriptions
            (set_ws ready_upstream
               (Some {| closed := false;
                        written :=
                          written {| closed := false; written := [] |}
                          ++ [{| Action := "unsubscribe";
                                 Params := Join (flat_map tokens ["AAPL"]) "," |}] |}))
            (subscriptions ready_upstream ∖ list_to_set ["AAPL"]),
          None).
Proof.
  apply (Unsubscribe_frame ready_upstream ["AAPL"]
           {| closed := false; written := [] |}); reflexivity.
Defined.

(** X2. [Subscribe] followed by [Unsubscribe] of the same symbols, on a
    session that is connected and authenticated with its transport
    open: both succeed, the transport has got the subscribe frame and
    then the unsubscribe frame with the same parameters, and the
    subscribed symbols are the earlier ones less the listed ones. The
    symbols are a set, not a count: a listed symbol that was subscribed
    before the pair of calls is no longer subscribed after it. *)
Theorem Subscribe_then_Unsubscribe (pc : t) (symbols : list string)
    (c : Conn) :
  ws pc = Some c →
  closed c = false →
  IsConnected pc = true →
  ∃ pc1 pc2,
    Subscribe pc symbols = Some (pc1, None)
    ∧ Unsubscribe pc1 symbols = Some (pc2, None)
    ∧ subscriptions pc2 = subscriptions pc ∖ list_to_set symbols
    ∧ ws pc2
      = Some {| closed := false;
                written :=
                  written c
                  ++ [{| Action := "subscribe";
                         Params := Join (flat_map tokens symbols) "," |};
                      {| Action := "unsubscribe";
                         Params := Join (flat_map tokens symbols) "," |}] |}.
Proof.
  intros Hws Hopen Hc. unfold IsConnected in Hc.
  apply andb_true_iff in Hc as [Hco Hau].
  unfold Subscribe, Unsubscribe. rewrite Hco, Hau. simpl.
  rewrite subscribe_loop_spec. unfold write. simpl. rewrite Hws. simpl.
  unfold WriteMessage. rewrite Hopen. simpl.
  eexists _, _. split; [reflexivity|].
  simpl. rewrite Hco. simpl. rewrite unsubscribe_loop_spec. simpl.
  split; [reflexivity|]. simpl. split; [set_solver|].
  by rewrite <- app_assoc.
Qed.

Lemma Subscribe_then_Unsubscribe_witness :
  ∃ pc1 pc2,
    Subscribe ready_upstream ["AAPL"] = Some (pc1, None)
    ∧ Unsubscribe pc1 ["AAPL"] = Some (pc2, None)
    ∧ subscriptions pc2 = subscriptions ready_upstream ∖ list_to_set ["AAPL"]
    ∧ ws pc2
      = Some {| closed := false;
                written :=
                  [] ++ [{| Action := "subscribe";
                            Params := Join (flat_map tokens ["AAPL"]) "," |};
                         {| Action := "unsubscribe";
                            Params := Join (flat_map tokens ["AAPL"]) "," |}] |}.
Proof.
  apply (Subscribe_then_Unsubscribe ready_upstream ["AAPL"]
           {| closed := false; written := [] |}); reflexivity.
Defined.

(** X3. On a session that is connected and authenticated, [Subscribe]
    records the symbols before it writes the frame: whether the write
    succeeds or fails (it fails, with the write error returned, exactly
    when the transport is closed), [GetSubscriptions] then lists each of
    the earlier and of the new symbols, once, and nothing else. *)
Theorem Subscribe_records (pc : t) (symbols : list string) (c : Conn) :
  ws pc = Some c →
  IsConnected pc = true →
  ∃ pc',
    Subscribe pc symbols
    = Some (pc', if closed c then Some ErrWrite else None)
    ∧ NoDup (GetSubscriptions pc')
    ∧ ∀ x, x ∈ GetSubscriptions pc'
           ↔ x ∈ GetSubscriptions pc ∨ x ∈ symbols.
Proof.
  intros Hws Hc. unfold IsConnected in Hc.
  apply andb_true_iff in Hc as [Hco Hau].
  unfold Subscribe. rewrite Hco, Hau. simpl.
  rewrite subscribe_loop_spec. unfold write. simpl. rewrite Hws. simpl.
  unfold WriteMessage.
  destruct (closed c); simpl; eexists; (split; [reflexivity|]);
    unfold GetSubscriptions; simpl;
    (split; [apply NoDup_elements|]);
    intros x; rewrite !elem_of_elements, elem_of_union, elem_of_list_to_set;
    done.
Qed.

Lemma Subscribe_records_witness :
  ∃ pc',
    Subscribe
      (set_ws ready_upstream (Some {| closed := true; written := [] |}))
      ["AAPL"]
    = Some (pc', Some ErrWrite)
    ∧ NoDup (GetSubscriptions pc')
    ∧ ∀ x, x ∈ GetSubscriptions pc'
           ↔ x ∈ GetSubscriptions
                   (set_ws ready_upstream
                      (Some {| closed := true; written := [] |}))
             ∨ x ∈ ["AAPL"].
Proof.
  apply (Subscribe_records
           (set_ws ready_upstream (Some {| closed := true; written := [] |}))
           ["AAPL"] {| closed := true; written := [] |}); reflexivity.
Defined.

Lemma handleRecord_spec (pc : t) (out : list PolygonMessage)
    (r : option PolygonRecord) :
  handleRecord (pc, out) r
  = (set_flags pc (connected pc) (default (authenticated pc) (verdict r)),
     out ++ forwarded r).
Proof.
  unfold handleRecord, verdict, forwarded, handleStatusMessage,
    handleDataMessage.
  destruct r as [m|]; simpl;
    [|by rewrite set_flags_same, app_nil_r].
  destruct (String.eqb_spec (Status m) "") as [Hs|Hs]; simpl.
  - rewrite Hs. simpl.
    destruct (negb (Ev m =? "")%string); [destruct (Decoded m)|];
      by rewrite set_flags_same, ?app_nil_r.
  - rewrite app_nil_r.
    destruct (Status m =? "auth_success")%string; [done|].
    destruct (Status m =? "auth_failed")%string; [done|].
    by rewrite set_flags_same.
Qed.

Lemma handleMessage_fold (pc : t) (out : list PolygonMessage)
    (records : list (option PolygonRecord)) :
  handleMessage (pc, out) (Some records)
  = (set_flags pc (connected pc)
       (default (authenticated pc) (last (omap verdict records))),
     out ++ flat_map forwarded records).
Proof.
  unfold handleMessage. revert pc out.
  induction records as [|r records IH]; intros pc out; cbn [fold_left].
  - simpl. by rewrite set_flags_same, app_nil_r.
  - rewrite handleRecord_spec, IH.
    assert (Hcons : omap verdict (r :: records)
                    = match verdict r with
                      | Some b => b :: omap verdict records
                      | None => omap verdict records
                      end) by done.
    rewrite Hcons. cbn [flat_map]. rewrite <- app_assoc. f_equal.
    destruct (verdict r) as [b|]; [|done].
    destruct (omap verdict records) as [|b0 l]; [done|].
    change (last (b :: b0 :: l)) with (last (b0 :: l)).
    destruct (last (b0 :: l)) eqn:Hlast; [done|].
    by apply last_None in Hlast.
Qed.

(** X4. What the upstream session does with one frame that decodes as
    a batch of records. It hands on, in the order of the batch, the data
    records, that is those with an empty status and a non-empty event
    type that decode in full, and drops the others. The
    authentication flag ends as the last auth_success or auth_failed
    status of the batch says, wherever in the batch it stands and
    whether or not the session had authenticated before; without such a
    status it is unchanged. Nothing else of the session changes. *)
Theorem handleMessage_batch (pc : t) (out : list PolygonMessage)
    (records : list (option PolygonRecord)) :
  handleMessage (pc, out) (Some records)
  = (set_flags pc (connected pc)
       (default (authenticated pc) (last (omap verdict records))),
     out ++ flat_map forwarded records).
Proof. apply handleMessage_fold. Qed.

(** The loop over a map visits every key once, whatever the order. *)
Lemma elem_of_visit (order : list string) (m : gset string) (x : string) :
  x ∈ visit order m ↔ x ∈ m.
Proof.
  unfold visit.
  rewrite elem_of_app, elem_of_remove_dups, !list_elem_of_filter,
    elem_of_elements.
  destruct (decide (x ∈ order)); tauto.
Qed.

Lemma visit_NoDup (order : list string) (m : gset string) :
  NoDup (visit order m).
Proof.
  unfold visit. apply NoDup_app. split; [apply NoDup_remove_dups|].
  split; [|apply NoDup_filter, NoDup_elements].
  intros x Hx Hy.
  apply elem_of_remove_dups, list_elem_of_filter in Hx as [_ Hx].
  by apply list_elem_of_filter in Hy as [Hy _].
Qed.

Lemma visit_perm (order : list string) (m : gset string) :
  visit order m ≡ₚ elements m.
Proof.
  apply NoDup_Permutation; [apply visit_NoDup|apply NoDup_elements|].
  intros x. by rewrite elem_of_visit, elem_of_elements.
Qed.

(** Every enumeration of the keys is the order of some loop. *)
Lemma visit_self (l : list string) (m : gset string) :
  NoDup l → list_to_set l = m → visit l m = l.
Proof.
  intros Hnd <-. unfold visit.
  assert (Hall : ∀ k : list string,
            (∀ x, x ∈ k → x ∈ (list_to_set l : gset string)) →
            filter (.∈ (list_to_set l : gset string)) k = k).
  { induction k as [|y k IH]; intros Hk; [done|].
    rewrite filter_cons_True by (apply Hk; by left).
    f_equal. apply IH. intros x Hx. apply Hk. by right. }
  assert (Hnone : ∀ k : list string,
            (∀ x, x ∈ k → x ∈ l) → filter (.∉ l) k = []).
  { induction k as [|y k IH]; intros Hk; [done|].
    rewrite filter_cons_False by (intros Hy; apply Hy, Hk; by left).
    apply IH. intros x Hx. apply Hk. by right. }
  rewrite Hall by (intros x Hx; by apply elem_of_list_to_set).
  rewrite Hnone by (intros x Hx; by apply elem_of_elements,
                      elem_of_list_to_set in Hx).
  rewrite app_nil_r. clear Hall Hnone.
  induction Hnd as [|y k Hy Hnd IH]; [done|].
  simpl. destruct (decide_rel elem_of y k); [done|]. by rewrite IH.
Qed.

(** X5. When the reconnect timer fires, the dial succeeds and the
    session ends authenticated, the session is connected on a fresh
    transport with the attempt counter at zero and no timer pending,
    its subscribed symbols are those it had before the connection was
    lost, and the fresh transport has got the auth frame followed, if
    any symbol was subscribed, by one subscribe frame that names each
    of them once, in the order in which the loop over the map visited
    them. That order is not fixed: every enumeration of the subscribed
    symbols is the order of some loop. *)
Theorem reconnect_resubscribes (arrivals : list Batch) (order : list string)
    (pc pc' : t) (out : list PolygonMessage) :
  reconnect true arrivals order pc = Some (pc', out) →
  authenticated pc' = true →
  connected pc' = true
  ∧ retryCount pc' = 0
  ∧ reconnectTimer pc' = None
  ∧ subscriptions pc' = subscriptions pc
  ∧ (∃ symbols,
        symbols ≡ₚ GetSubscriptions pc
        ∧ symbols = visit order (subscriptions pc)
        ∧ ws pc'
          = Some {| closed := false;
                    written :=
                      {| Action := "auth"; Params := apiKey pc |}
                      :: match symbols with
                         | [] => []
                         | _ =>
                             [{| Action := "subscribe";
                                 Params := Join (flat_map tokens symbols) "," |}]
                         end |})
  ∧ (∀ l, NoDup l → list_to_set l = subscriptions pc →
          visit l (subscriptions pc) = l).
Proof.
  unfold reconnect, Connect, authenticate, write, GetSubscriptions. simpl.
  match goal with |- context [read_loop arrivals ?q] =>
    pose proof (read_loop_only_auth arrivals q) as [b Hb];
    destruct (read_loop arrivals q) as [pc1 out1]
  end.
  simpl in Hb. subst pc1. simpl.
  pose proof (visit_perm order (subscriptions pc)) as Hperm.
  pose proof (elem_of_visit order (subscriptions pc)) as Hin.
  destruct b; simpl; [|by intros [= <- <-]].
  destruct (visit order (subscriptions pc)) as [|x symbols] eqn:Hel.
  - simpl. intros [= <- <-]. simpl. intros _.
    repeat match goal with |- _ ∧ _ => split end; try done.
    + by exists [].
    + intros l. apply visit_self.
  - change (0 <? Z.of_nat (length (x :: symbols))) with true.
    cbn match. unfold Subscribe. simpl.
    rewrite subscribe_loop_spec. unfold write. simpl.
    intros [= <- <-]. simpl. intros _.
    repeat match goal with |- _ ∧ _ => split end; try done.
    + change ({[x]} ∪ list_to_set symbols : gset string)
        with (list_to_set (x :: symbols) : gset string).
      apply set_eq. intros y.
      rewrite elem_of_union, elem_of_list_to_set, Hin. tauto.
    + by exists (x :: symbols).
    + intros l. apply visit_self.
Qed.

Lemma reconnect_resubscribes_witness :
  ∃ pc',
    reconnect true [auth_success] ["TSLA"; "NVDA"; "AAPL"]
      (set_subscriptions (NewPolygonClient "key")
         (list_to_set ["AAPL"; "TSLA"; "NVDA"]))
    = Some (pc', [])
    ∧ connected pc' = true
    ∧ elements (subscriptions pc')
      = elements (list_to_set ["AAPL"; "TSLA"; "NVDA"] : gset string)
    ∧ ws pc'
      = Some {| closed := false;
                written :=
                  [{| Action := "auth"; Params := "key" |};
                   {| Action := "subscribe";
                      Params := "T.TSLA,Q.TSLA,A.TSLA,T.NVDA,Q.NVDA,A.NVDA,"
                                +:+ "T.AAPL,Q.AAPL,A.AAPL" |}] |}.
Proof.
  eexists. split; [vm_compute; reflexivity|].
  match goal with |- connected ?q = true ∧ _ =>
    assert (Hre : reconnect true [auth_success] ["TSLA"; "NVDA"; "AAPL"]
                    (set_subscriptions (NewPolygonClient "key")
                       (list_to_set ["AAPL"; "TSLA"; "NVDA"]))
                  = Some (q, [])) by (vm_compute; reflexivity);
    destruct (reconnect_resubscribes _ _ _ _ _ Hre eq_refl)
      as (Hco & _ & _ & Hsubs & (symbols & _ & Hsym & Hws) & _)
  end.
  split; [exact Hco|]. split; [by rewrite Hsubs|].
  rewrite Hws, Hsym. vm_compute. reflexivity.
Defined.

(** X6. [Disconnect] does not end the session for good while its
    reader runs. It stops the timer, closes the transport and clears
    both flags; the reader then gets a read error on the closed
    transport, and its deferred block, which cannot tell a close by
    [Disconnect] from a lost connection, arms the reconnect timer for
    the next attempt unless the attempts are used up. *)
Theorem Disconnect_rearms (pc : t) (c : Conn) :
  ws pc = Some c →
  reader pc = true →
  retryCount pc < maxRetries pc →
  reconnectTimer (Disconnect pc) = None
  ∧ IsConnected (Disconnect pc) = false
  ∧ reconnectTimer (reader_observes_close (Disconnect pc))
    = Some (wrap64 (reconnectDelay pc * wrap64 (retryCount pc + 1)))
  ∧ retryCount (reader_observes_close (Disconnect pc))
    = wrap64 (retryCount pc + 1).
Proof.
  intros Hws Hreader Hretry.
  unfold Disconnect, reader_observes_close, IsConnected. simpl.
  rewrite Hws. simpl. rewrite Hreader. simpl.
  unfold readMessages_exit, scheduleReconnect. simpl.
  destruct (Z.leb_spec (maxRetries pc) (retryCount pc)); [lia|]. done.
Qed.

Lemma Disconnect_rearms_witness :
  reconnectTimer (Disconnect ready_upstream) = None
  ∧ IsConnected (Disconnect ready_upstream) = false
  ∧ reconnectTimer (reader_observes_close (Disconnect ready_upstream))
    = Some (wrap64 (reconnectDelay ready_upstream
                    * wrap64 (retryCount ready_upstream + 1)))
  ∧ retryCount (reader_observes_close (Disconnect ready_upstream))
    = wrap64 (retryCount ready_upstream + 1).
Proof.
  apply (Disconnect_rearms ready_upstream {| closed := false; written := [] |});
    vm_compute; reflexivity.
Defined.

End upstream_session.

(** ** Sessions and the registry over whole runs *)

Section sessions.

Lemma same_sessions_refl (s : Server) : same_sessions s s.
Proof. split; [done|]. split; done. Qed.

Lemma same_sessions_trans (s1 s2 s3 : Server) :
  same_sessions s1 s2 → same_sessions s2 s3 → same_sessions s1 s3.
Proof.
  intros (Hc & Hs & Hf) (Hc' & Hs' & Hf').
  split; [congruence|]. split; [congruence|].
  intros p. by rewrite Hf', Hf.
Qed.

Lemma filing_insert (h : gmap nat Client.t) (p : nat) (c c' : Client.t) :
  h !! p = Some c →
  filing c' = filing c →
  ∀ q, filing <$> <[p := c']> h !! q = filing <$> h !! q.
Proof.
  intros Hc Hf q. destruct (decide (q = p)) as [->|Hne].
  - rewrite lookup_insert_eq, Hc. simpl. by rewrite Hf.
  - by rewrite lookup_insert_ne.
Qed.

Lemma trySend_filing (c c' : Client.t) (data : Message) :
  Client.trySend c data = Some c' → filing c' = filing c.
Proof.
  unfold Client.trySend, filing.
  destruct (Client.send_closed c) eqn:Ho; [done|].
  case_match; intros [= <-]; simpl; by rewrite ?Ho.
Qed.

Lemma same_sessions_heap (s : Server) (h : gmap nat Client.t) :
  (∀ q, filing <$> h !! q = filing <$> heap s !! q) →
  same_sessions s (set_heap s h).
Proof. intros Hf. split; [done|]. split; done. Qed.

Lemma same_sessions_upstream (s : Server) (m : gmap string Z)
    (pc : option PolygonClient.t) :
  same_sessions s (set_polygon s m pc).
Proof. split; [done|]. split; done. Qed.

Lemma sendMessage_same (p : nat) (msg : Message) (s s' : Server) :
  sendMessage p msg s = Some s' → same_sessions s s'.
Proof.
  unfold sendMessage.
  destruct (heap s !! p) as [c|] eqn:Hc; [|done]. simpl.
  destruct (Client.trySend c msg) as [c'|] eqn:Hsend; [|done]. simpl.
  intros [= <-]. apply same_sessions_heap.
  eapply filing_insert; [done|]. by eapply trySend_filing.
Qed.

Lemma deliver_filing (data : Message) (targets : list nat)
    (h h' : gmap nat Client.t) :
  deliver data targets h = Some h' →
  ∀ q, filing <$> h' !! q = filing <$> h !! q.
Proof.
  revert h. induction targets as [|p targets IH]; intros h; simpl.
  - by intros [= ->].
  - destruct (h !! p) as [c|] eqn:Hc; [|done]. simpl.
    destruct (Client.trySend c data) as [c'|] eqn:Hsend; [|done]. simpl.
    intros Hrun q. rewrite (IH _ Hrun).
    eapply filing_insert; [done|]. by eapply trySend_filing.
Qed.

Lemma close_conn_filing (targets : list nat) (h : gmap nat Client.t) (q : nat) :
  filing <$> fold_left close_conn targets h !! q = filing <$> h !! q.
Proof.
  rewrite close_conn_fold. case_decide; [|done].
  by destruct (h !! q).
Qed.

Lemma broadcast_same (now : Z) (out : list PolygonMessage) (s : Server) :
  same_sessions s (fold_left (handlePolygonMessage now) out s).
Proof.
  revert s. induction out as [|pm out IH]; intros s; simpl;
    [apply same_sessions_refl|].
  eapply same_sessions_trans; [|apply IH].
  unfold handlePolygonMessage, broadcastMessage.
  case_match; [|apply same_sessions_refl].
  split; [done|]. split; done.
Qed.

(** [Client.subscribe] and [Client.unsubscribe] taken apart: the change
    to the session and to the registry, then handlers that leave both
    alone. *)
Lemma subscribe_shape (now : Z) (p : nat) (channel : string)
    (symbols : list string) (s s' : Server) :
  subscribe now p channel symbols s = Some s' →
  ∃ c s1,
    heap s !! p = Some c
    ∧ heap s1
      = <[p := Client.set_subscriptions c
                 ({[subscription_key channel symbols]}
                  ∪ Client.subscriptions c)]> (heap s)
    ∧ subscriptions s1
      = <[subscription_key channel symbols
          := {[p]} ∪ default ∅ (subscriptions s
                                 !! subscription_key channel symbols)]>
          (subscriptions s)
    ∧ clients s1 = clients s
    ∧ same_sessions s1 s'.
Proof.
  unfold subscribe.
  destruct (heap s !! p) as [c|] eqn:Hc; [|done].
  cbn [mbind option_bind].
  match goal with |- context [if ?g then _ else _] => destruct g end.
  - match goal with |- context [subscribeToPolygon ?l ?s1] =>
      destruct (subscribeToPolygon l s1) as [s2|] eqn:Hs2; [|done];
      destruct (subscribeToPolygon_frame _ _ _ Hs2) as (Hh & Hcl & Hs)
    end.
    cbn [mbind option_bind]. intros Hsend.
    exists c, s2. split; [done|]. rewrite Hh, Hs, Hcl.
    split; [done|]. split; [done|]. split; [done|].
    by eapply sendMessage_same.
  - cbn [mbind option_bind]. intros Hsend.
    match type of Hsend with sendMessage _ _ ?x = _ => exists c, x end.
    split; [done|]. split; [done|]. split; [done|]. split; [done|].
    by eapply sendMessage_same.
Qed.

Lemma unsubscribe_shape (now : Z) (p : nat) (channel : string)
    (s s' : Server) :
  unsubscribe now p channel s = Some s' →
  ∃ c s1,
    heap s !! p = Some c
    ∧ heap s1
      = <[p := Client.set_subscriptions c
                 (Client.subscriptions c ∖ {[channel]})]> (heap s)
    ∧ subscriptions s1
      = match subscriptions s !! channel with
        | Some old => <[channel := old ∖ {[p]}]> (subscriptions s)
        | None => subscriptions s
        end
    ∧ clients s1 = clients s
    ∧ same_sessions s1 s'.
Proof.
  unfold unsubscribe.
  destruct (heap s !! p) as [c|] eqn:Hc; [|done].
  cbn [mbind option_bind]. intros Hsend.
  match type of Hsend with sendMessage _ _ ?x = _ => exists c, x end.
  split; [done|].
  pose proof (sendMessage_same _ _ _ _ Hsend) as Hsame.
  cbn [subscriptions set_heap] in *.
  destruct (subscriptions s !! channel); by simpl.
Qed.

(** What a handler can do to the sessions and the registry: nothing,
    accept a connection, subscribe or unsubscribe a session, or tear a
    session down. *)
Lemma step_sessions (s s' : Server) (e : event) :
  step s e = Some s' →
  same_sessions s s'
  ∨ (∃ now ident, s' = snd (handleWebSocket now ident s))
  ∨ (∃ now p channel symbols s0,
        same_sessions s s0 ∧ subscribe now p channel symbols s0 = Some s')
  ∨ (∃ now p channel s0,
        same_sessions s s0 ∧ unsubscribe now p channel s0 = Some s')
  ∨ (∃ p, readPump_exit p s = Some s').
Proof.
  destruct e; simpl.
  - unfold initPolygon. case_match; [intros [= <-]; left;
                                      apply same_sessions_refl|].
    destruct (PolygonClient.Connect dial arrivals _) as [[[pc out] err]|];
      [|done].
    cbn [mbind option_bind]. destruct err as [e|].
    + intros [= <-]. left.
      eapply same_sessions_trans;
        [apply broadcast_same|apply same_sessions_upstream].
    + destruct (PolygonClient.Subscribe pc defaultSymbols) as [[pc' e]|];
        [|done].
      cbn [mbind option_bind]. intros [= <-]. left.
      eapply same_sessions_trans;
        [apply broadcast_same|apply same_sessions_upstream].
  - intros [= <-]. right. left. by exists now, ident.
  - unfold readPump_message.
    destruct (heap s !! p) as [c|] eqn:Hc; [|done].
    cbn [mbind option_bind].
    set (s1 := set_heap s _).
    assert (H1 : same_sessions s s1).
    { apply same_sessions_heap. by eapply filing_insert. }
    clearbody s1. unfold handleMessage.
    destruct message as [req|]; [|intros [= <-]; by left].
    destruct (RType req =? "subscribe")%string.
    { intros Hsub. right. right. left. by eexists _, _, _, _, s1. }
    destruct (RType req =? "unsubscribe")%string.
    { intros Hun. right. right. right. left. by eexists _, _, _, s1. }
    destruct (RType req =? "ping")%string.
    + intros Hsend. left.
      eapply same_sessions_trans; [exact H1|by eapply sendMessage_same].
    + intros [= <-]. by left.
  - unfold pong. destruct (heap s !! p) as [c|] eqn:Hc; [|done].
    cbn [mbind option_bind]. intros [= <-]. left.
    apply same_sessions_heap. by eapply filing_insert.
  - intros Hexit. do 4 right. by exists p.
  - unfold readPump_observes_close.
    destruct (heap s !! p) as [c|]; [|intros [= <-]; left;
                                      apply same_sessions_refl].
    case_match; [|intros [= <-]; left; apply same_sessions_refl].
    intros Hexit. do 4 right. by exists p.
  - intros [= <-]. left. unfold polygon_frame.
    destruct (polygonClient s) as [pc|]; [|apply same_sessions_refl].
    destruct (PolygonClient.handleMessage (pc, []) data) as [pc' out].
    eapply same_sessions_trans;
      [apply same_sessions_upstream|apply broadcast_same].
  - intros [= <-]. left. unfold upstream_read_failed.
    destruct (polygonClient s) as [pc|]; [|apply same_sessions_refl].
    destruct (PolygonClient.reader pc); [|apply same_sessions_refl].
    apply same_sessions_upstream.
  - unfold reconnect_fired.
    destruct (polygonClient s) as [pc|];
      [|intros [= <-]; left; apply same_sessions_refl].
    destruct (PolygonClient.reconnectTimer pc);
      [|intros [= <-]; left; apply same_sessions_refl].
    destruct (PolygonClient.reconnect dial arrivals order pc) as [[pc' out]|];
      [|done].
    cbn [mbind option_bind]. intros [= <-]. left.
    eapply same_sessions_trans;
      [apply same_sessions_upstream|apply broadcast_same].
  - intros [= <-]. left. unfold broadcastMessage.
    case_match; [|apply same_sessions_refl].
    split; [done|]. split; done.
  - unfold handleMessages.
    destruct (broadcast s) as [|msg rest];
      [intros [= <-]; left; apply same_sessions_refl|].
    simpl. destruct (subscriptions s !! Channel msg) as [subscribed|]; simpl.
    + destruct (deliver msg (elements subscribed) (heap s)) as [h'|] eqn:Hrun;
        [|done].
      simpl. intros [= <-]. left. split; [done|]. split; [done|].
      simpl. by eapply deliver_filing.
    + intros [= <-]. left. split; [done|]. split; done.
  - intros [= <-]. left. split; [done|]. split; [done|].
    simpl. intros q. apply close_conn_filing.
Qed.

(** *** Registered sessions have open queues *)

Lemma registered_open_same (s s' : Server) :
  registered_open s → same_sessions s s' → registered_open s'.
Proof.
  intros Hr (Hc & _ & Hf) p Hp. rewrite Hc in Hp.
  destruct (Hr p Hp) as (c & Hcp & Ho).
  specialize (Hf p). rewrite Hcp in Hf.
  destruct (heap s' !! p) as [c'|]; [|done].
  unfold filing in Hf. simpl in Hf. injection Hf as Hk Hflag.
  exists c'. split; [done|congruence].
Qed.

Lemma registered_open_handleWebSocket (now : Z) (ident : string)
    (s : Server) :
  registered_open s → registered_open (snd (handleWebSocket now ident s)).
Proof.
  intros Hr q Hq. simpl in *.
  destruct (decide (q = fresh (dom (heap s)))) as [->|Hne].
  - eexists. by rewrite lookup_insert_eq.
  - apply elem_of_union in Hq as [Hq|Hq];
      [by apply elem_of_singleton in Hq|].
    destruct (Hr q Hq) as (c & Hc & Ho). exists c.
    by rewrite lookup_insert_ne.
Qed.

Lemma registered_open_insert (s s1 : Server) (p : nat) (c c1 : Client.t) :
  registered_open s →
  heap s !! p = Some c →
  heap s1 = <[p := c1]> (heap s) →
  Client.send_closed c1 = Client.send_closed c →
  clients s1 = clients s →
  registered_open s1.
Proof.
  intros Hr Hc Hheap Hflag Hcl q Hq. rewrite Hcl in Hq. rewrite Hheap.
  destruct (Hr q Hq) as (cq & Hcq & Ho).
  destruct (decide (q = p)) as [->|Hne].
  - exists c1. rewrite lookup_insert_eq. split; [done|].
    rewrite Hflag. congruence.
  - exists cq. by rewrite lookup_insert_ne.
Qed.

Lemma registered_open_readPump_exit (p : nat) (s s' : Server) :
  registered_open s → readPump_exit p s = Some s' → registered_open s'.
Proof.
  intros Hr. unfold readPump_exit, unregisterClient.
  destruct (decide (p ∈ clients s)) as [Hp|Hp].
  - destruct (heap s !! p) as [c|] eqn:Hc; [|done]. simpl.
    destruct (Client.send_closed c); [done|]. simpl.
    rewrite lookup_insert_eq. simpl. intros [= <-]. intros q Hq. simpl in *.
    apply elem_of_difference in Hq as [Hq Hne].
    destruct (Hr q Hq) as (cq & Hcq & Ho). exists cq.
    rewrite !lookup_insert_ne; [done|set_solver|set_solver].
  - simpl. destruct (heap s !! p) as [c|] eqn:Hc; [|done]. simpl.
    intros [= <-]. intros q Hq. simpl in *.
    destruct (Hr q Hq) as (cq & Hcq & Ho). exists cq.
    rewrite lookup_insert_ne; [done|]. by intros ->.
Qed.

Lemma registered_open_step (s s' : Server) (e : event) :
  registered_open s → step s e = Some s' → registered_open s'.
Proof.
  intros Hr Hstep.
  destruct (step_sessions _ _ _ Hstep)
    as [Hsame|[(now & ident & ->)|[(now & p & ch & syms & s0 & Hsame & Hsub)
       |[(now & p & ch & s0 & Hsame & Hun)|(p & Hexit)]]]].
  - by eapply registered_open_same.
  - by apply registered_open_handleWebSocket.
  - pose proof (registered_open_same _ _ Hr Hsame) as Hr0.
    destruct (subscribe_shape _ _ _ _ _ _ Hsub)
      as (c & s1 & Hc & Hheap & _ & Hcl & Hsame1).
    eapply registered_open_same; [|exact Hsame1].
    by eapply registered_open_insert.
  - pose proof (registered_open_same _ _ Hr Hsame) as Hr0.
    destruct (unsubscribe_shape _ _ _ _ _ Hun)
      as (c & s1 & Hc & Hheap & _ & Hcl & Hsame1).
    eapply registered_open_same; [|exact Hsame1].
    by eapply registered_open_insert.
  - by eapply registered_open_readPump_exit.
Qed.

(** *** The keys of the registry *)

Lemma registry_keys_step (s s' : Server) (e : event) :
  step s e = Some s' → dom (subscriptions s) ⊆ dom (subscriptions s').
Proof.
  intros Hstep.
  destruct (step_sessions _ _ _ Hstep)
    as [Hsame|[(now & ident & ->)|[(now & p & ch & syms & s0 & Hsame & Hsub)
       |[(now & p & ch & s0 & Hsame & Hun)|(p & Hexit)]]]].
  - destruct Hsame as (_ & -> & _). done.
  - done.
  - destruct Hsame as (_ & <- & _).
    destruct (subscribe_shape _ _ _ _ _ _ Hsub)
      as (c & s1 & _ & _ & Hsubs & _ & (_ & -> & _)).
    rewrite Hsubs, dom_insert. set_solver.
  - destruct Hsame as (_ & <- & _).
    destruct (unsubscribe_shape _ _ _ _ _ Hun)
      as (c & s1 & _ & _ & Hsubs & _ & (_ & -> & _)).
    rewrite Hsubs. destruct (subscriptions s0 !! ch); [|done].
    rewrite dom_insert. set_solver.
  - revert Hexit. unfold readPump_exit, unregisterClient.
    destruct (decide (p ∈ clients s)) as [Hp|Hp].
    + destruct (heap s !! p) as [c|] eqn:Hc; [|done]. simpl.
      destruct (Client.send_closed c); [done|]. simpl.
      rewrite lookup_insert_eq. simpl. intros [= <-]. simpl.
      intros key [old Hold]%elem_of_dom. apply elem_of_dom.
      rewrite remove_subscriber_fold, Hold. by case_decide.
    + simpl. destruct (heap s !! p) as [c|]; [|done]. simpl.
      by intros [= <-].
Qed.

End sessions.

(** ** What every run by turns keeps *)

Section runs.

(** An iteration of the write loop changes the queue and the transport
    of its session and nothing else. *)
Lemma writePump_same (writer flush : bool) (p : nat) (s s' : Server)
    (r : pumped) :
  writePump writer flush p s = Some (r, s') →
  same_sessions s s'
  ∧ keys_preserved (heap s) (heap s')
  ∧ open_kept (heap s) (heap s')
  ∧ polygonSymbols s' = polygonSymbols s
  ∧ polygonClient s' = polygonClient s.
Proof.
  unfold writePump. destruct (heap s !! p) as [c|] eqn:Hc; [|done]. simpl.
  assert (Hins : ∀ c', filing c' = filing c →
             same_sessions s (set_heap s (<[p := c']> (heap s)))
             ∧ keys_preserved (heap s) (<[p := c']> (heap s))
             ∧ open_kept (heap s) (<[p := c']> (heap s))
             ∧ polygonSymbols s = polygonSymbols s
             ∧ polygonClient s = polygonClient s).
  { intros c' Hf. injection Hf as Hk Ho.
    split; [apply same_sessions_heap; eapply filing_insert; [done|];
            unfold filing; by rewrite Hk, Ho|].
    split; [by eapply keys_preserved_insert|].
    split; [by eapply open_kept_same_flag|done]. }
  assert (Hrefl : same_sessions s s
                  ∧ keys_preserved (heap s) (heap s)
                  ∧ open_kept (heap s) (heap s)
                  ∧ polygonSymbols s = polygonSymbols s
                  ∧ polygonClient s = polygonClient s).
  { split; [apply same_sessions_refl|].
    split; [apply keys_preserved_refl|].
    split; [apply open_kept_refl|done]. }
  destruct (Client.send c) as [|m q]; repeat case_match;
    intros [= <- <-]; first [exact Hrefl | by apply Hins].
Qed.

Lemma run_none (turns : list turn) :
  fold_left (fun acc t => acc ≫= fun s => turn_step s t) turns None = None.
Proof. by induction turns. Qed.

Lemma run_cons (t : turn) (turns : list turn) (s : Server) :
  run (t :: turns) s = turn_step s t ≫= run turns.
Proof.
  unfold run. simpl. destruct (turn_step s t); [done|]. apply run_none.
Qed.

(** A run of events alone is a run in which no write loop takes a
    turn. *)
Lemma run_handled (events : list event) (s : Server) :
  run (map Handled events) s = trace events s.
Proof.
  revert s. induction events as [|e events IH]; intros s; [done|].
  rewrite trace_cons. cbn [map]. rewrite run_cons. simpl.
  destruct (step s e); [apply IH|done].
Qed.

(** What the handlers and the write loops keep, every run keeps. *)
Lemma run_keeps (P : Server → Prop) :
  (∀ s s' e, P s → step s e = Some s' → P s') →
  (∀ s s' writer flush p r,
      P s → writePump writer flush p s = Some (r, s') → P s') →
  ∀ turns s s', P s → run turns s = Some s' → P s'.
Proof.
  intros Hstep Hpump. induction turns as [|t turns IH]; intros s s' HP.
  - by intros [= <-].
  - rewrite run_cons. destruct (turn_step s t) as [s1|] eqn:Ht; [|done].
    simpl. apply IH. destruct t as [e|w f p]; simpl in Ht.
    + by eapply Hstep.
    + destruct (writePump w f p s) as [[r s2]|] eqn:Hp; [|done].
      simpl in Ht. injection Ht as ->. by eapply Hpump.
Qed.

Lemma run_sound (turns : list turn) (s : Server) :
  run turns initial = Some s →
  mirrored s ∧ open_queues s ∧ registered_open s ∧ upstream_quiet s.
Proof.
  apply (run_keeps (fun s => mirrored s ∧ open_queues s ∧ registered_open s
                             ∧ upstream_quiet s)).
  - intros s0 s1 e (Hm & Ho & Hr & Hq) Hstep.
    split; [by eapply mirrored_step|].
    split; [by eapply open_queues_step|].
    split; [by eapply registered_open_step|].
    by apply (step_upstream _ _ _ Hstep).
  - intros s0 s1 w f p r (Hm & Ho & Hr & Hq) Hpump.
    destruct (writePump_same _ _ _ _ _ _ Hpump)
      as (Hsame & Hkeys & Hopen & Hn & Hpc).
    pose proof Hsame as (_ & Hsubs & _).
    split; [by eapply mirrored_keys|].
    split; [by eapply open_queues_same|].
    split; [by eapply registered_open_same|].
    by eapply upstream_quiet_same.
  - split; [apply mirrored_initial|].
    split; [intros key subscribed p Hkey; simpl in Hkey;
            by rewrite lookup_empty in Hkey|].
    split; [intros p Hp; by apply not_elem_of_empty in Hp|].
    by intros pc c.
Qed.

(** X7. In every run of the gateway from its start, the exit of the
    read loop of a session runs to its end: [unregisterClient] never
    closes a queue a second time, because a session still in the
    session table always has its queue open, and for a session that is
    no longer in the table it does nothing. *)
Theorem teardown_never_panics (turns : list turn) (s : Server) (p : nat) :
  run turns initial = Some s →
  is_Some (heap s !! p) →
  is_Some (readPump_exit p s).
Proof.
  intros Hrun [c Hc].
  destruct (run_sound _ _ Hrun) as (_ & _ & Hr & _).
  unfold readPump_exit, unregisterClient.
  destruct (decide (p ∈ clients s)) as [Hp|Hp].
  - destruct (Hr p Hp) as (c' & Hc' & Ho). rewrite Hc'. simpl.
    rewrite Ho. simpl. rewrite lookup_insert_eq. by eexists.
  - simpl. rewrite Hc. by eexists.
Qed.

Lemma teardown_never_panics_witness :
  ∃ s, run [Handled (Accepted t0 "A"); Pumped true true 0%nat;
            Handled (ReadFailed 0%nat); Pumped true true 0%nat]
         initial = Some s
       ∧ is_Some (readPump_exit 0%nat s).
Proof.
  eexists. split; [vm_compute; reflexivity|].
  apply (teardown_never_panics
           [Handled (Accepted t0 "A"); Pumped true true 0%nat;
            Handled (ReadFailed 0%nat); Pumped true true 0%nat]);
    [vm_compute; reflexivity|vm_compute; by eexists].
Defined.

Lemma run_registry_keys (turns : list turn) (s s' : Server) :
  run turns s = Some s' → dom (subscriptions s) ⊆ dom (subscriptions s').
Proof.
  revert s. induction turns as [|t turns IH]; intros s.
  - by intros [= <-].
  - rewrite run_cons. destruct (turn_step s t) as [s1|] eqn:Ht; [|done].
    simpl. intros Hrun. etrans; [|by apply IH].
    destruct t as [e|w f p]; simpl in Ht.
    + by eapply registry_keys_step.
    + destruct (writePump w f p s) as [[r s2]|] eqn:Hp; [|done].
      simpl in Ht. injection Ht as ->.
      by destruct (writePump_same _ _ _ _ _ _ Hp) as ((_ & -> & _) & _).
Qed.

(** X9. Nothing ever deletes a key of the registry: once a key has
    been subscribed to it stays, with an empty entry when its last
    session has unsubscribed or is gone, so over any run the number of
    channels that [handleStats] reports never falls. *)
Theorem channel_count_never_falls (turns : list turn) (s s' : Server) :
  run turns s = Some s' →
  dom (subscriptions s) ⊆ dom (subscriptions s')
  ∧ channelCount s ≤ channelCount s'.
Proof.
  intros Hrun. pose proof (run_registry_keys _ _ _ Hrun) as Hdom.
  split; [done|]. unfold channelCount.
  apply inj_le. rewrite <- !size_dom. by apply subseteq_size.
Qed.

Lemma channel_count_never_falls_witness :
  ∃ s s',
    run [Handled (Accepted t0 "A");
         Handled (subscribe_request (t0 + 1) 0 "trades" [])]
      initial = Some s
    ∧ run [Handled (unsubscribe_request (t0 + 2) 0 "trades" []);
           Pumped true true 0%nat; Handled (ReadFailed 0%nat)] s
      = Some s'
    ∧ dom (subscriptions s) ⊆ dom (subscriptions s')
    ∧ channelCount s ≤ channelCount s'.
Proof.
  eexists _, _. split; [vm_compute; reflexivity|].
  split; [vm_compute; reflexivity|].
  apply (channel_count_never_falls
           [Handled (unsubscribe_request (t0 + 2) 0 "trades" []);
            Pumped true true 0%nat; Handled (ReadFailed 0%nat)]).
  vm_compute; reflexivity.
Defined.

(** X10. In every run of the gateway from its start, accepting a
    connection raises [getClientCount] by exactly one, and the exit of
    the read loop of a session in the session table lowers it by
    exactly one. *)
Theorem client_count (turns : list turn) (s : Server) :
  run turns initial = Some s →
  (∀ now ident,
      getClientCount (snd (handleWebSocket now ident s))
      = getClientCount s + 1)
  ∧ (∀ p s', p ∈ clients s →
             readPump_exit p s = Some s' →
             getClientCount s' = getClientCount s - 1).
Proof.
  intros Hrun. destruct (run_sound _ _ Hrun) as (_ & _ & Hr & _). split.
  - intros now ident. unfold getClientCount. simpl.
    rewrite size_union, size_singleton; [lia|].
    apply disjoint_singleton_l. intros Hin.
    destruct (Hr _ Hin) as (c & Hc & _).
    assert (Hnone : heap s !! fresh (dom (heap s)) = None)
      by (apply not_elem_of_dom, is_fresh).
    congruence.
  - intros p s' Hp. unfold readPump_exit, unregisterClient.
    rewrite decide_True by done.
    destruct (heap s !! p) as [c|] eqn:Hc; [|done]. simpl.
    destruct (Client.send_closed c); [done|]. simpl.
    rewrite lookup_insert_eq. simpl. intros [= <-].
    unfold getClientCount. simpl.
    rewrite size_difference by set_solver. rewrite size_singleton.
    assert (size (clients s) ≠ 0%nat); [|lia].
    apply size_non_empty_iff. set_solver.
Qed.

Lemma client_count_witness :
  ∃ s, run [Handled (Accepted t0 "A"); Pumped true true 0%nat] initial
       = Some s
       ∧ (∀ now ident,
             getClientCount (snd (handleWebSocket now ident s))
             = getClientCount s + 1)
       ∧ (∀ p s', p ∈ clients s →
                  readPump_exit p s = Some s' →
                  getClientCount s' = getClientCount s - 1).
Proof.
  eexists. split; [vm_compute; reflexivity|].
  apply (client_count [Handled (Accepted t0 "A"); Pumped true true 0%nat]).
  vm_compute; reflexivity.
Defined.

(** X24. In every run of the gateway from its start, no unsubscribe
    frame is ever written upstream: no handler reaches
    [PolygonClient.Unsubscribe]. *)
Theorem upstream_never_unsubscribed (turns : list turn) (s : Server) :
  run turns initial = Some s → upstream_quiet s.
Proof. intros Hrun. by destruct (run_sound _ _ Hrun) as (_ & _ & _ & Hq). Qed.

Lemma upstream_never_unsubscribed_witness :
  ∃ s,
    run (map Handled
           (two_subscribed
            ++ [unsubscribe_request (t0 + 3) 0 "trades:AAPL" [];
                unsubscribe_request (t0 + 4) 1 "trades:AAPL" [];
                ReadFailed 0%nat; ReadFailed 1%nat])) initial = Some s
    ∧ upstream_quiet s.
Proof.
  eexists. split; [vm_compute; reflexivity|].
  apply (upstream_never_unsubscribed
           (map Handled
              (two_subscribed
               ++ [unsubscribe_request (t0 + 3) 0 "trades:AAPL" [];
                   unsubscribe_request (t0 + 4) 1 "trades:AAPL" [];
                   ReadFailed 0%nat; ReadFailed 1%nat]))).
  vm_compute; reflexivity.
Defined.

(** X25. In every run of the gateway, a symbol that has an entry in the
    reference counts keeps one for ever: nothing releases a
    reference. *)
Theorem reference_never_released (turns : list turn) (s s' : Server)
    (x : string) :
  run turns s = Some s' →
  is_Some (polygonSymbols s !! x) →
  is_Some (polygonSymbols s' !! x).
Proof.
  revert s. induction turns as [|t turns IH]; intros s.
  - by intros [= <-].
  - rewrite run_cons. destruct (turn_step s t) as [s1|] eqn:Ht; [|done].
    simpl. intros Hrun Hx. apply (IH s1 Hrun).
    destruct t as [e|w f p]; simpl in Ht.
    + by apply (step_upstream _ _ _ Ht).
    + destruct (writePump w f p s) as [[r s2]|] eqn:Hp; [|done].
      simpl in Ht. injection Ht as ->.
      by destruct (writePump_same _ _ _ _ _ _ Hp) as (_ & _ & _ & -> & _).
Qed.

Lemma reference_never_released_witness :
  ∃ s s',
    run (map Handled two_subscribed) initial = Some s
    ∧ run [Handled (unsubscribe_request (t0 + 3) 0 "trades:AAPL" []);
           Handled (unsubscribe_request (t0 + 4) 1 "trades:AAPL" []);
           Handled (ReadFailed 0%nat); Handled (ReadFailed 1%nat)] s
      = Some s'
    ∧ is_Some (polygonSymbols s' !! "AAPL").
Proof.
  eexists _, _. split; [vm_compute; reflexivity|].
  match goal with |- run _ ?s = _ ∧ _ =>
    split; [vm_compute; reflexivity|];
    eapply (reference_never_released
              [Handled (unsubscribe_request (t0 + 3) 0 "trades:AAPL" []);
               Handled (unsubscribe_request (t0 + 4) 1 "trades:AAPL" []);
               Handled (ReadFailed 0%nat); Handled (ReadFailed 1%nat)] s)
  end; [vm_compute; reflexivity|vm_compute; by eexists].
Defined.

End runs.

(** ** Requests, queues and the write loop *)

Section queue_order.

Lemma sendMessage_at (p : nat) (msg : Message) (s s' : Server) :
  sendMessage p msg s = Some s' →
  ∃ c c', heap s !! p = Some c
          ∧ Client.trySend c msg = Some c'
          ∧ s' = set_heap s (<[p := c']> (heap s)).
Proof.
  unfold sendMessage.
  destruct (heap s !! p) as [c|] eqn:Hc; [|done]. simpl.
  destruct (Client.trySend c msg) as [c'|] eqn:Hsend; [|done]. simpl.
  intros [= <-]. by exists c, c'.
Qed.

Lemma sendMessage_closed (p : nat) (msg : Message) (s : Server)
    (c : Client.t) :
  heap s !! p = Some c →
  Client.send_closed c = true →
  sendMessage p msg s = None.
Proof.
  intros Hc Ho. unfold sendMessage, Client.trySend. rewrite Hc. simpl.
  by rewrite Ho.
Qed.

(** X11. A request of a session that is still being handled when the
    read loop of the session exits brings the process down. Each
    request is handled in a goroutine of its own; the exit of the read
    loop closes the queue of the session; and the confirmation of a
    subscribe or an unsubscribe, like the answer to a ping, is then a
    send on a closed channel, which panics. *)
Theorem request_after_teardown_panics (now : Z) (p : nat)
    (req : SubscriptionRequest) (s s' : Server) :
  p ∈ clients s →
  readPump_exit p s = Some s' →
  RType req = "subscribe" ∨ RType req = "unsubscribe" ∨ RType req = "ping" →
  handleMessage now p (Some req) s' = None.
Proof.
  intros Hp Hexit Htype.
  assert (Hclosed : ∃ c, heap s' !! p = Some c
                         ∧ Client.send_closed c = true).
  { revert Hexit. unfold readPump_exit, unregisterClient.
    rewrite decide_True by done.
    destruct (heap s !! p) as [c|] eqn:Hc; [|done]. simpl.
    destruct (Client.send_closed c); [done|]. simpl.
    rewrite lookup_insert_eq. simpl. intros [= <-]. simpl.
    rewrite lookup_insert_eq. by eexists. }
  destruct Hclosed as (c & Hc & Ho). unfold handleMessage.
  destruct Htype as [Ht|[Ht|Ht]]; rewrite Ht; simpl.
  - destruct (subscribe now p (RChannel req) (RSymbols req) s')
      as [s2|] eqn:Hsub; [|done].
    destruct (subscribe_inv _ _ _ _ _ _ Hsub)
      as (c0 & s1 & Hc0 & Hheap & _ & Hsend).
    rewrite (sendMessage_closed p _ s1 (Client.set_subscriptions c0
               ({[subscription_key (RChannel req) (RSymbols req)]}
                ∪ Client.subscriptions c0))) in Hsend; [done| |].
    + by rewrite Hheap, lookup_insert_eq.
    + simpl. congruence.
  - destruct (unsubscribe now p (RChannel req) s') as [s2|] eqn:Hun; [|done].
    destruct (unsubscribe_inv _ _ _ _ _ Hun)
      as (c0 & s1 & Hc0 & Hheap & _ & _ & _ & Hsend).
    rewrite (sendMessage_closed p _ s1 (Client.set_subscriptions c0
               (Client.subscriptions c0 ∖ {[RChannel req]}))) in Hsend;
      [done| |].
    + by rewrite Hheap, lookup_insert_eq.
    + simpl. congruence.
  - by eapply sendMessage_closed.
Qed.

Lemma request_after_teardown_panics_witness :
  ∃ s s',
    trace [Accepted t0 "A"] initial = Some s
    ∧ readPump_exit 0%nat s = Some s'
    ∧ handleMessage (t0 + 1) 0%nat
        (Some {| RType := "ping"; RChannel := ""; RSymbols := [] |}) s'
      = None.
Proof.
  eexists _, _. split; [vm_compute; reflexivity|].
  split; [vm_compute; reflexivity|].
  apply (request_after_teardown_panics (t0 + 1) 0%nat
           {| RType := "ping"; RChannel := ""; RSymbols := [] |}
           (snd (handleWebSocket t0 "A" initial)));
    [apply elem_of_elements; vm_compute; left
    |vm_compute; reflexivity
    |right; right; reflexivity].
Defined.

Lemma offer_cons (p : nat) (msg : Message) (msgs : list Message)
    (s : Server) :
  offer p (msg :: msgs) s = sendMessage p msg s ≫= offer p msgs.
Proof.
  unfold offer. simpl. destruct (sendMessage p msg s); [done|].
  by induction msgs.
Qed.

Lemma offer_queue (p : nat) (msgs : list Message) (s : Server)
    (c : Client.t) :
  heap s !! p = Some c →
  Client.send_closed c = false →
  (length (Client.send c) ≤ 256)%nat →
  ∃ s', offer p msgs s = Some s'
        ∧ heap s'
          = <[p := Client.set_send c
                     (take 256 (Client.send c ++ msgs)) false]> (heap s)
        ∧ clients s' = clients s
        ∧ subscriptions s' = subscriptions s.
Proof.
  revert s c. induction msgs as [|msg msgs IH]; intros s c Hc Ho Hlen.
  - exists s. split; [done|]. split; [|done].
    rewrite app_nil_r, firstn_all2 by done.
    rewrite insert_id; [done|]. rewrite Hc. f_equal.
    destruct c; simpl in *; by subst.
  - rewrite offer_cons. unfold sendMessage. rewrite Hc. simpl.
    unfold Client.trySend. rewrite Ho.
    destruct (Z.ltb_spec (Z.of_nat (length (Client.send c)))
                Client.send_capacity) as [Hroom|Hfull];
      unfold Client.send_capacity in *; simpl.
    + edestruct (IH (set_heap s (<[p := Client.set_send c
                                         (Client.send c ++ [msg]) false]>
                                   (heap s))))
        as (s' & Hrun & Hheap & Hcl & Hsubs).
      * simpl. by rewrite lookup_insert_eq.
      * done.
      * simpl. rewrite length_app. simpl. lia.
      * exists s'. split; [done|]. simpl in *. split; [|done].
        rewrite Hheap, insert_insert_eq. f_equal.
        by rewrite <- app_assoc.
    + edestruct (IH (set_heap s (<[p := c]> (heap s))))
        as (s' & Hrun & Hheap & Hcl & Hsubs).
      * simpl. by rewrite lookup_insert_eq.
      * done.
      * done.
      * exists s'. split; [done|]. simpl in *. split; [|done].
        rewrite Hheap, insert_insert_eq. f_equal.
        rewrite !take_app_le by lia. done.
Qed.

(** X12. The queue of a session keeps the order of the messages offered
    to it and drops the newest on overflow: after any messages have
    been offered to a session with an open queue, the queue holds the
    first 256 of the old content followed by the offered messages, and
    the rest is lost. The next iteration of the write loop, on an open
    transport, writes exactly these messages in that order in one frame
    and leaves the queue empty, so the session takes 256 messages
    again. *)
Theorem queue_keeps_order (p : nat) (msgs : list Message) (s : Server)
    (c : Client.t) :
  heap s !! p = Some c →
  Client.send_closed c = false →
  Client.conn_closed c = false →
  (length (Client.send c) ≤ 256)%nat →
  Client.send c ++ msgs ≠ [] →
  ∃ s' s'',
    offer p msgs s = Some s'
    ∧ queue_of p s' = Some (take 256 (Client.send c ++ msgs))
    ∧ writePump true true p s'
      = Some (Frame (take 256 (Client.send c ++ msgs)), s'')
    ∧ queue_of p s'' = Some [].
Proof.
  intros Hc Ho Hconn Hlen Hne.
  destruct (offer_queue p msgs s c Hc Ho Hlen)
    as (s' & Hrun & Hheap & _ & _).
  exists s',
    (set_heap s'
       (<[p := Client.set_send
                 (Client.set_send c (take 256 (Client.send c ++ msgs)) false)
                 [] false]> (heap s'))).
  split; [done|].
  unfold queue_of, writePump. simpl.
  rewrite !lookup_insert_eq, Hheap, lookup_insert_eq. simpl.
  split; [done|]. split; [|done].
  destruct (take 256 (Client.send c ++ msgs)) as [|m q] eqn:Htake.
  - destruct (Client.send c ++ msgs); [done|discriminate].
  - by rewrite Hconn.
Qed.

Lemma queue_keeps_order_witness :
  ∃ s' s'',
    offer 1%nat [filler; market_data_AAPL] slow_and_fast = Some s'
    ∧ queue_of 1%nat s'
      = Some (take 256 (Client.send fast_client
                        ++ [filler; market_data_AAPL]))
    ∧ writePump true true 1%nat s'
      = Some (Frame (take 256 (Client.send fast_client
                               ++ [filler; market_data_AAPL])), s'')
    ∧ queue_of 1%nat s'' = Some [].
Proof.
  apply (queue_keeps_order 1%nat [filler; market_data_AAPL] slow_and_fast
           fast_client);
    first [reflexivity | vm_compute; lia | done].
Defined.

End queue_order.

(** ** The reconnect schedule over whole runs *)

Section schedule.

Lemma same_schedule_refl (pc : PolygonClient.t) : same_schedule pc pc.
Proof. by repeat (split; [done|]). Qed.

Lemma only_auth_schedule (pc pc' : PolygonClient.t) :
  PolygonClient.only_auth pc pc' → same_schedule pc pc'.
Proof. intros [b ->]. by repeat (split; [done|]). Qed.

Lemma Subscribe_schedule (pc pc' : PolygonClient.t) (symbols : list string)
    (e : option PolygonClient.error) :
  PolygonClient.Subscribe pc symbols = Some (pc', e) → same_schedule pc pc'.
Proof.
  unfold PolygonClient.Subscribe.
  case_match; [intros [= <- <-]; apply same_schedule_refl|].
  rewrite subscribe_loop_spec. unfold PolygonClient.write. simpl.
  destruct (PolygonClient.ws pc) as [c|]; [|done]. simpl.
  destruct (WriteMessage c _) as [c' ok]. simpl. intros [= <- <-].
  by repeat (split; [done|]).
Qed.

(** A successful dial: the attempt counter is zero and a reader runs,
    whatever authentication gives. *)
Lemma Connect_schedule (arrivals : list PolygonClient.Batch)
    (pc pc' : PolygonClient.t) (out : list PolygonMessage)
    (err : option PolygonClient.error) :
  PolygonClient.Connect true arrivals pc = Some (pc', out, err) →
  PolygonClient.retryCount pc' = 0
  ∧ PolygonClient.reader pc' = true
  ∧ PolygonClient.reconnectTimer pc' = PolygonClient.reconnectTimer pc
  ∧ PolygonClient.reconnectDelay pc' = PolygonClient.reconnectDelay pc
  ∧ PolygonClient.maxRetries pc' = PolygonClient.maxRetries pc.
Proof.
  unfold PolygonClient.Connect, PolygonClient.authenticate,
    PolygonClient.write. simpl.
  match goal with |- context [PolygonClient.read_loop arrivals ?q] =>
    pose proof (read_loop_only_auth arrivals q) as [b Hb];
    destruct (PolygonClient.read_loop arrivals q) as [pc1 out1]
  end.
  simpl in Hb. subst pc1. simpl.
  destruct b; simpl; by intros [= <- <- <-].
Qed.

Lemma subscribeToPolygon_schedule (symbols : list string) (s s' : Server) :
  subscribeToPolygon symbols s = Some s' →
  polygonClient s' = polygonClient s
  ∨ ∃ pc pc', polygonClient s = Some pc ∧ polygonClient s' = Some pc'
              ∧ same_schedule pc pc'.
Proof.
  unfold subscribeToPolygon.
  destruct (polygonClient s) as [pc|] eqn:Hpc; [|intros [= <-]; by left].
  destruct (negb (PolygonClient.IsConnected pc)); [intros [= <-]; by left|].
  destruct (fold_left acquire symbols (polygonSymbols s, []))
    as [counts newSymbols].
  case_match; [|intros [= <-]; by left].
  destruct (PolygonClient.Subscribe pc newSymbols) as [[pc' e]|] eqn:Hsub;
    [|done].
  cbn [mbind option_bind]. intros [= <-]. right. exists pc, pc'.
  split; [done|]. split; [done|]. by eapply Subscribe_schedule.
Qed.

Lemma handleMessage_schedule (now : Z) (p : nat)
    (message : option SubscriptionRequest) (s s' : Server) :
  handleMessage now p message s = Some s' →
  polygonClient s' = polygonClient s
  ∨ ∃ pc pc', polygonClient s = Some pc ∧ polygonClient s' = Some pc'
              ∧ same_schedule pc pc'.
Proof.
  unfold handleMessage. destruct message as [req|]; [|intros [= <-]; by left].
  repeat case_match.
  - unfold subscribe. destruct (heap s !! p) as [c|]; [|done].
    cbn [mbind option_bind].
    match goal with |- context [if ?g then _ else _] => destruct g end.
    + match goal with |- context [subscribeToPolygon ?l ?s1] =>
        destruct (subscribeToPolygon l s1) as [s2|] eqn:Hs2; [|done];
        pose proof (subscribeToPolygon_schedule _ _ _ Hs2) as Hsch
      end.
      cbn [mbind option_bind]. intros Hsend.
      destruct (sendMessage_frame _ _ _ _ Hsend) as (_ & _ & _ & _ & ->).
      exact Hsch.
    + cbn [mbind option_bind]. intros Hsend.
      destruct (sendMessage_frame _ _ _ _ Hsend) as (_ & _ & _ & _ & ->).
      by left.
  - intros Hun.
    destruct (unsubscribe_removes _ _ _ _ _ Hun) as (_ & _ & _ & ->).
    by left.
  - intros Hsend.
    destruct (sendMessage_frame _ _ _ _ Hsend) as (_ & _ & _ & _ & ->).
    by left.
  - intros [= <-]. by left.
Qed.

(** What a handler other than [initPolygon] can do to the upstream
    session: nothing; something that leaves its schedule alone; the
    exit of its reader; or the firing of its timer, with a dial that
    fails or succeeds. *)
Lemma step_schedule (s s' : Server) (e : event) :
  step s e = Some s' →
  starts e = false →
  polygonClient s' = polygonClient s
  ∨ (∃ pc pc', polygonClient s = Some pc ∧ polygonClient s' = Some pc'
               ∧ same_schedule pc pc')
  ∨ (∃ pc, polygonClient s = Some pc
           ∧ PolygonClient.reader pc = true
           ∧ polygonClient s'
             = Some (PolygonClient.readMessages_exit pc))
  ∨ (∃ pc pc', polygonClient s = Some pc
               ∧ is_Some (PolygonClient.reconnectTimer pc)
               ∧ polygonClient s' = Some pc'
               ∧ (pc' = PolygonClient.set_retry pc
                          (PolygonClient.retryCount pc) None
                  ∨ (PolygonClient.retryCount pc' = 0
                     ∧ PolygonClient.reader pc' = true
                     ∧ PolygonClient.reconnectTimer pc' = None
                     ∧ PolygonClient.reconnectDelay pc'
                       = PolygonClient.reconnectDelay pc
                     ∧ PolygonClient.maxRetries pc'
                       = PolygonClient.maxRetries pc))).
Proof.
  destruct e; simpl; try done; intros Hstep _.
  - injection Hstep as <-. by left.
  - revert Hstep. unfold readPump_message.
    destruct (heap s !! p) as [c|]; [|done].
    cbn [mbind option_bind]. intros Hh.
    destruct (handleMessage_schedule _ _ _ _ _ Hh) as [Hsame|Hsch];
      [by left|right; by left].
  - revert Hstep. unfold pong. destruct (heap s !! p) as [c|]; [|done].
    cbn [mbind option_bind]. intros [= <-]. by left.
  - destruct (readPump_exit_upstream _ _ _ Hstep) as [_ ->]. by left.
  - revert Hstep. unfold readPump_observes_close. repeat case_match;
      try (intros [= <-]; by left).
    intros Hexit. destruct (readPump_exit_upstream _ _ _ Hexit) as [_ ->].
    by left.
  - injection Hstep as <-. unfold polygon_frame.
    destruct (polygonClient s) as [pc|] eqn:Hpc; [|by left].
    pose proof (handleMessage_only_auth (pc, []) data) as Hauth.
    destruct (PolygonClient.handleMessage (pc, []) data) as [pc' out].
    simpl in Hauth. right. left. exists pc, pc'. split; [done|].
    destruct (broadcast_upstream now out
                (set_polygon s (polygonSymbols s) (Some pc'))) as [_ ->].
    split; [done|]. by apply only_auth_schedule.
  - injection Hstep as <-. unfold upstream_read_failed.
    destruct (polygonClient s) as [pc|] eqn:Hpc; [|by left].
    destruct (PolygonClient.reader pc) eqn:Hreader; [|by left].
    right. right. left. by exists pc.
  - revert Hstep. unfold reconnect_fired.
    destruct (polygonClient s) as [pc|] eqn:Hpc; [|intros [= <-]; by left].
    destruct (PolygonClient.reconnectTimer pc) as [d|] eqn:Htimer;
      [|intros [= <-]; by left].
    destruct (PolygonClient.reconnect dial arrivals order pc) as [[pc' out]|]
      eqn:Hre; [|done].
    cbn [mbind option_bind]. intros [= <-].
    destruct (broadcast_upstream now out
                (set_polygon s (polygonSymbols s) (Some pc'))) as [_ ->].
    do 3 right. exists pc, pc'. split; [done|]. split; [by eexists|].
    split; [done|].
    revert Hre. unfold PolygonClient.reconnect.
    destruct dial; [|intros [= <- <-]; by left].
    destruct (PolygonClient.Connect true arrivals _) as [[[pc1 out1] err]|]
      eqn:Hconn; [|done].
    cbn [mbind option_bind].
    destruct (Connect_schedule _ _ _ _ _ Hconn) as (Hr & Hrd & Ht & Hd & Hm).
    simpl in Ht, Hd, Hm.
    destruct err as [err|]; [intros [= <- <-]; by right|].
    case_match; [|intros [= <- <-]; by right].
    destruct (PolygonClient.Subscribe pc1 _) as [[pc2 e]|] eqn:Hsub; [|done].
    cbn [mbind option_bind]. intros [= <- <-]. right.
    destruct (Subscribe_schedule _ _ _ _ Hsub)
      as (_ & -> & -> & -> & -> & ->).
    done.
  - injection Hstep as <-. unfold broadcastMessage. left. by case_match.
  - revert Hstep. unfold handleMessages.
    destruct (broadcast s) as [|msg rest]; [intros [= <-]; by left|].
    simpl. destruct (subscriptions s !! Channel msg) as [subscribed|];
      simpl; [|intros [= <-]; by left].
    destruct (deliver msg (elements subscribed) (heap s)); [|done].
    simpl. intros [= <-]. by left.
  - injection Hstep as <-. by left.
Qed.

(** [initPolygon] leaves no upstream session, or one that has just
    dialled. *)
Lemma initPolygon_schedule (now : Z) (key : string) (dial : bool)
    (arrivals : list PolygonClient.Batch) (s s' : Server) :
  initPolygon now key dial arrivals s = Some s' →
  polygonClient s' = polygonClient s
  ∨ polygonClient s' = None
  ∨ ∃ pc', polygonClient s' = Some pc'
           ∧ PolygonClient.retryCount pc' = 0
           ∧ PolygonClient.reader pc' = true
           ∧ PolygonClient.reconnectTimer pc' = None
           ∧ PolygonClient.reconnectDelay pc' = 5 * Second
           ∧ PolygonClient.maxRetries pc' = 10.
Proof.
  unfold initPolygon. case_match; [intros [= <-]; by left|].
  destruct (PolygonClient.Connect dial arrivals _) as [[[pc out] err]|]
    eqn:Hconn; [|done].
  cbn [mbind option_bind].
  destruct err as [err|]; [intros [= <-]; right; by left|].
  destruct dial; [|done].
  destruct (Connect_schedule _ _ _ _ _ Hconn) as (Hr & Hrd & Ht & Hd & Hm).
  destruct (PolygonClient.Subscribe pc defaultSymbols) as [[pc' e]|]
    eqn:Hsub; [|done].
  cbn [mbind option_bind]. intros [= <-]. right. right. exists pc'.
  split; [done|].
  destruct (Subscribe_schedule _ _ _ _ Hsub)
    as (_ & -> & -> & -> & -> & ->).
  done.
Qed.

Lemma first_attempt_step (s s' : Server) (e : event) :
  first_attempt s → step s e = Some s' → first_attempt s'.
Proof.
  intros Hfirst Hstep. destruct (starts e) eqn:Hstarts.
  - destruct e; try done. simpl in Hstep.
    destruct (initPolygon_schedule _ _ _ _ _ _ Hstep)
      as [Hsame|[Hnone|(pc' & Hpc' & Hr & Hrd & Ht & Hd & Hm)]].
    + intros pc. rewrite Hsame. apply Hfirst.
    + intros pc. by rewrite Hnone.
    + intros pc. rewrite Hpc'. intros [= <-].
      rewrite Hr, Ht, Hd, Hm. repeat split; try done; lia.
  - destruct (step_schedule _ _ _ Hstep Hstarts)
      as [Hsame|[(pc & pc' & Hpc & Hpc' & Hsch)
         |[(pc & Hpc & Hreader & Hpc')
          |(pc & pc' & Hpc & Htimer & Hpc' & Hdial)]]].
    + intros pc. rewrite Hsame. apply Hfirst.
    + intros pc0. rewrite Hpc'. intros [= <-].
      destruct Hsch as (_ & -> & -> & -> & -> & ->). by apply Hfirst.
    + intros pc0. rewrite Hpc'. intros [= <-].
      destruct (Hfirst pc Hpc) as (Hd & Hm & Hzero & _ & _).
      specialize (Hzero Hreader).
      unfold PolygonClient.readMessages_exit,
        PolygonClient.scheduleReconnect.
      destruct pc as [key [c|] co au su ti de mx re rd]; simpl in *; subst;
        change (10 <=? 0) with false; cbn;
        (split; [done|]); (split; [done|]); (split; [done|]);
        (split; [done|]); by intros delay [= <-].
    + intros pc0. rewrite Hpc'. intros [= <-].
      destruct (Hfirst pc Hpc) as (Hd & Hm & Hzero & Hrange & _).
      destruct Hdial as [->|(Hr & Hrd & Ht & Hd' & Hm')].
      * simpl. repeat split; try done; lia.
      * rewrite Hr, Ht, Hd', Hm'. repeat split; try done; lia.
Qed.

Lemma upstream_lost_step (s s' : Server) (e : event) :
  upstream_lost s → starts e = false → step s e = Some s' →
  upstream_lost s'.
Proof.
  intros (pc0 & Hpc0 & Hco & Hti & Hrd) Hstarts Hstep.
  destruct (step_schedule _ _ _ Hstep Hstarts)
    as [Hsame|[(pc & pc' & Hpc & Hpc' & Hsch)
       |[(pc & Hpc & Hreader & Hpc')
        |(pc & pc' & Hpc & Htimer & Hpc' & Hdial)]]].
  - exists pc0. by rewrite Hsame.
  - assert (pc = pc0) as -> by congruence.
    exists pc'. split; [done|].
    destruct Hsch as (-> & -> & -> & _). done.
  - assert (pc = pc0) as -> by congruence. congruence.
  - assert (pc = pc0) as -> by congruence.
    rewrite Hti in Htimer. by destruct Htimer.
Qed.

End schedule.

Section schedule_runs.

(** X13. The reconnect delay never grows. In every run of the gateway
    from its start, the attempt counter of the upstream session is zero
    or one and a pending reconnect timer is set to five seconds: the
    counter is zeroed by every successful dial, a reader runs only
    after one, and only the exit of a reader schedules a reconnect, so
    every reconnect is scheduled as a first attempt and the limit on
    the attempts is never reached. *)
Theorem backoff_never_grows (turns : list turn) (s : Server)
    (pc : PolygonClient.t) :
  run turns initial = Some s →
  polygonClient s = Some pc →
  0 ≤ PolygonClient.retryCount pc ≤ 1
  ∧ ∀ delay, PolygonClient.reconnectTimer pc = Some delay →
             delay = 5 * Second.
Proof.
  intros Hrun Hpc.
  assert (Hfirst : first_attempt s).
  { revert Hrun. apply (run_keeps first_attempt).
    - intros s0 s1 e. apply first_attempt_step.
    - intros s0 s1 w f p r Hf Hpump pc0.
      destruct (writePump_same _ _ _ _ _ _ Hpump) as (_ & _ & _ & _ & ->).
      apply Hf.
    - by intros pc0. }
  destruct (Hfirst pc Hpc) as (_ & _ & _ & Hrange & Htimer). done.
Qed.

Lemma backoff_never_grows_witness :
  ∃ s pc,
    run (map Handled
           (started
            ++ [UpstreamFailed; ReconnectFired (t0 + 5 * Second) true [] [];
                UpstreamFailed])) initial = Some s
    ∧ polygonClient s = Some pc
    ∧ PolygonClient.reconnectTimer pc = Some (5 * Second)
    ∧ 0 ≤ PolygonClient.retryCount pc ≤ 1
    ∧ ∀ delay, PolygonClient.reconnectTimer pc = Some delay →
               delay = 5 * Second.
Proof.
  eexists _, _. split; [vm_compute; reflexivity|].
  split; [vm_compute; reflexivity|]. split; [vm_compute; reflexivity|].
  eapply (backoff_never_grows
            (map Handled
               (started
                ++ [UpstreamFailed; ReconnectFired (t0 + 5 * Second) true [] [];
                    UpstreamFailed])));
    vm_compute; reflexivity.
Defined.

(** X14. One failed dial ends reconnection for good. When the reader of
    the upstream session exits and the dial made by the reconnect timer
    fails, the callback only logs the error: the session is left
    disconnected with no reader and no timer, and whatever the clients,
    the write loops, the broadcaster and the sweeper do afterwards, it
    stays so. *)
Theorem failed_redial_is_final (now : Z)
    (arrivals : list PolygonClient.Batch) (order : list string)
    (turns : list turn) (s s' : Server) (pc : PolygonClient.t) :
  polygonClient s = Some pc →
  PolygonClient.reader pc = true →
  forallb (fun t => negb (restarts t)) turns = true →
  run (Handled UpstreamFailed
       :: Handled (ReconnectFired now false arrivals order) :: turns) s
  = Some s' →
  ∃ pc', polygonClient s' = Some pc'
         ∧ PolygonClient.IsConnected pc' = false
         ∧ PolygonClient.reconnectTimer pc' = None
         ∧ PolygonClient.reader pc' = false.
Proof.
  intros Hpc Hreader Hturns Hrun.
  rewrite run_cons in Hrun. simpl in Hrun.
  unfold upstream_read_failed in Hrun. rewrite Hpc, Hreader in Hrun.
  rewrite run_cons in Hrun.
  set (pc1 := PolygonClient.readMessages_exit pc) in Hrun.
  assert (Hexit : PolygonClient.connected pc1 = false
                  ∧ PolygonClient.reader pc1 = false).
  { subst pc1. unfold PolygonClient.readMessages_exit,
      PolygonClient.scheduleReconnect.
    destruct pc as [key [c|] co au su ti de mx re rd]; simpl;
      by destruct (mx <=? re). }
  destruct Hexit as [Hco Hrd].
  match type of Hrun with ?m ≫= _ = _ =>
    destruct m as [s1|] eqn:Hs1; [|done]
  end.
  simpl in Hrun.
  assert (Hlost : upstream_lost s1).
  { revert Hs1. simpl. unfold reconnect_fired. simpl.
    destruct (PolygonClient.reconnectTimer pc1) eqn:Htimer.
    - simpl. intros [= <-]. eexists. split; [done|]. by simpl.
    - intros [= <-]. by exists pc1. }
  clear Hs1.
  assert (Hfinal : upstream_lost s').
  { revert s1 Hlost Hrun.
    induction turns as [|t turns IH]; intros s1 Hlost.
    - by intros [= <-].
    - simpl in Hturns. apply andb_true_iff in Hturns as [Ht Hturns].
      rewrite run_cons.
      destruct (turn_step s1 t) as [s2|] eqn:Hstep; [|done]. simpl.
      apply IH; [done|]. destruct t as [e|w f p]; simpl in Hstep, Ht.
      + eapply upstream_lost_step; [done| |done]. by destruct (starts e).
      + destruct (writePump w f p s1) as [[r s3]|] eqn:Hp; [|done].
        simpl in Hstep. injection Hstep as ->.
        destruct (writePump_same _ _ _ _ _ _ Hp) as (_ & _ & _ & _ & Hsame).
        destruct Hlost as (pc0 & Hpc0 & Hrest). exists pc0.
        by rewrite Hsame. }
  destruct Hfinal as (pc' & Hpc' & Hco' & Hti' & Hrd').
  exists pc'. split; [done|]. split; [|done].
  unfold PolygonClient.IsConnected. by rewrite Hco'.
Qed.

Lemma failed_redial_is_final_witness :
  ∃ s s',
    run (map Handled started) initial = Some s
    ∧ run [Handled UpstreamFailed;
           Handled (ReconnectFired (t0 + 5 * Second) false [] []);
           Handled (Accepted (t0 + 6 * Second) "A");
           Handled (subscribe_request (t0 + 7 * Second) 0 "trades" ["AAPL"]);
           Pumped true true 0%nat] s
      = Some s'
    ∧ ∃ pc', polygonClient s' = Some pc'
             ∧ PolygonClient.IsConnected pc' = false
             ∧ PolygonClient.reconnectTimer pc' = None
             ∧ PolygonClient.reader pc' = false.
Proof.
  eexists _, _. split; [vm_compute; reflexivity|].
  match goal with |- run _ ?s = _ ∧ _ =>
    split; [vm_compute; reflexivity|];
    eapply (failed_redial_is_final (t0 + 5 * Second) [] []
              [Handled (Accepted (t0 + 6 * Second) "A");
               Handled (subscribe_request (t0 + 7 * Second) 0 "trades"
                          ["AAPL"]);
               Pumped true true 0%nat] s)
  end; vm_compute; reflexivity.
Defined.

End schedule_runs.

(** ** Reference counts and the upstream subscribe frame *)

Section counting.

(** X15. [subscribeToPolygon] with the upstream session connected and
    authenticated and its transport open. It sends upstream, in one
    subscribe frame, exactly the listed symbols that had no reference
    count, each once however often it is listed, and sends nothing when
    there is none. It leaves the counts of the other symbols alone and
    raises the count of a listed symbol by the number of times it is
    listed, starting from zero for a new one: the counts count
    requests, so a session that asks twice for a symbol holds two
    references to it. *)
Theorem subscribeToPolygon_counts (symbols : list string) (s : Server)
    (pc : PolygonClient.t) (c : Conn) :
  polygonClient s = Some pc →
  PolygonClient.IsConnected pc = true →
  PolygonClient.ws pc = Some c →
  closed c = false →
  ∃ s' new,
    subscribeToPolygon symbols s = Some s'
    ∧ NoDup new
    ∧ (∀ x, x ∈ new ↔ x ∈ symbols ∧ polygonSymbols s !! x = None)
    ∧ upstream_frames s'
      = Some (written c
              ++ match new with
                 | [] => []
                 | _ =>
                     [{| Action := "subscribe";
                         Params :=
                           PolygonClient.Join
                             (flat_map PolygonClient.tokens new) "," |}]
                 end)
    ∧ (∀ x, x ∉ symbols → polygonSymbols s' !! x = polygonSymbols s !! x)
    ∧ (∀ x, x ∈ symbols →
            - 2 ^ 63 ≤ default 0 (polygonSymbols s !! x) →
            default 0 (polygonSymbols s !! x)
            + Z.of_nat (length symbols) < 2 ^ 63 →
            polygonSymbols s' !! x
            = Some (default 0 (polygonSymbols s !! x)
                    + Z.of_nat (length (filter (x =.) symbols)))).
Proof.
  intros Hpc Hconn Hws Hopen. unfold subscribeToPolygon.
  rewrite Hpc, Hconn. cbn [negb].
  pose proof (acquire_NoDup symbols (polygonSymbols s) []
                (NoDup_nil_2 (A:=string))) as Hnd.
  pose proof (acquire_new symbols (polygonSymbols s) []) as Hnew.
  pose proof (acquire_unlisted symbols (polygonSymbols s) []) as Hun.
  pose proof (acquire_count symbols (polygonSymbols s) []) as Hcount.
  destruct (fold_left acquire symbols (polygonSymbols s, []))
    as [counts new]. cbn [fst snd] in *.
  assert (Hnd' : NoDup new).
  { apply Hnd. intros x Hx. by apply elem_of_nil in Hx. }
  assert (Hnew' : ∀ x, x ∈ new
                       ↔ x ∈ symbols ∧ polygonSymbols s !! x = None).
  { intros x. rewrite Hnew. split; [|by right].
    intros [Hx|?]; [by apply elem_of_nil in Hx|done]. }
  unfold PolygonClient.IsConnected in Hconn.
  apply andb_true_iff in Hconn as [Hco Hau].
  destruct new as [|y new].
  - eexists _, []. split; [reflexivity|]. split; [done|]. split; [done|].
    split; [|split; [done|intros x Hx Hl Hh; by apply Hcount]].
    unfold upstream_frames. simpl. rewrite Hws. simpl.
    by rewrite app_nil_r.
  - change (0 <? Z.of_nat (length (y :: new))) with true. cbn match.
    unfold PolygonClient.Subscribe. rewrite Hco, Hau. cbn [negb orb].
    rewrite subscribe_loop_spec. unfold PolygonClient.write. simpl.
    rewrite Hws. simpl. unfold WriteMessage. rewrite Hopen. simpl.
    eexists _, (y :: new). split; [reflexivity|].
    split; [done|]. split; [done|]. split; [done|]. split; [done|].
    intros x Hx Hl Hh. by apply Hcount.
Qed.

Lemma subscribeToPolygon_counts_witness :
  ∃ s' new,
    subscribeToPolygon ["AAPL"; "AAPL"; "MSFT"] slow_and_fast = Some s'
    ∧ NoDup new
    ∧ (∀ x, x ∈ new
            ↔ x ∈ ["AAPL"; "AAPL"; "MSFT"]
              ∧ polygonSymbols slow_and_fast !! x = None)
    ∧ upstream_frames s'
      = Some (written {| closed := false; written := [] |}
              ++ match new with
                 | [] => []
                 | _ =>
                     [{| Action := "subscribe";
                         Params :=
                           PolygonClient.Join
                             (flat_map PolygonClient.tokens new) "," |}]
                 end)
    ∧ (∀ x, x ∉ ["AAPL"; "AAPL"; "MSFT"] →
            polygonSymbols s' !! x = polygonSymbols slow_and_fast !! x)
    ∧ (∀ x, x ∈ ["AAPL"; "AAPL"; "MSFT"] →
            - 2 ^ 63 ≤ default 0 (polygonSymbols slow_and_fast !! x) →
            default 0 (polygonSymbols slow_and_fast !! x)
            + Z.of_nat (length ["AAPL"; "AAPL"; "MSFT"]) < 2 ^ 63 →
            polygonSymbols s' !! x
            = Some (default 0 (polygonSymbols slow_and_fast !! x)
                    + Z.of_nat (length (filter (x =.)
                                          ["AAPL"; "AAPL"; "MSFT"])))).
Proof.
  apply (subscribeToPolygon_counts ["AAPL"; "AAPL"; "MSFT"] slow_and_fast
           ready_upstream {| closed := false; written := [] |});
    reflexivity.
Defined.

End counting.

(** ** The broadcast queue and the sweeper *)

Section broadcast_queue.

Lemma broadcast_fold (now : Z) (out : list PolygonMessage) (s : Server) :
  (length (broadcast s) ≤ 1000)%nat →
  broadcast (fold_left (handlePolygonMessage now) out s)
  = take 1000 (broadcast s ++ map (TransformPolygonMessage now) out).
Proof.
  revert s. induction out as [|pm out IH]; intros s Hlen;
    cbn [fold_left map].
  - by rewrite app_nil_r, firstn_all2.
  - unfold handlePolygonMessage at 2. unfold broadcastMessage.
    destruct (Z.ltb_spec (Z.of_nat (length (broadcast s)))
                broadcast_capacity) as [Hroom|Hfull];
      unfold broadcast_capacity in *.
    + rewrite IH; cbn [broadcast set_broadcast].
      * by rewrite <- app_assoc.
      * rewrite length_app. cbn [length]. lia.
    + rewrite IH by done. rewrite !take_app_le by lia. done.
Qed.

(** X16. One upstream frame, on the way to the broadcaster. The data
    records of the batch are transformed and put on the broadcast queue
    in the order of the batch, behind what is already waiting; the
    queue takes 1000 messages, and the records that find it full are
    dropped, the newest first, while nothing already queued is lost or
    reordered. *)
Theorem upstream_batch_broadcast (now : Z)
    (records : list (option PolygonRecord)) (s : Server)
    (pc : PolygonClient.t) :
  polygonClient s = Some pc →
  (length (broadcast s) ≤ 1000)%nat →
  broadcast (polygon_frame now (Some records) s)
  = take 1000 (broadcast s
               ++ map (TransformPolygonMessage now)
                    (flat_map forwarded records)).
Proof.
  intros Hpc Hlen. unfold polygon_frame. rewrite Hpc.
  rewrite handleMessage_fold. by rewrite broadcast_fold.
Qed.

Lemma upstream_batch_broadcast_witness :
  broadcast
    (polygon_frame (t0 + 1)
       (Some [status_record "success" "subscribed";
              Some {| Ev := "T"; Status := ""; StatusText := "";
                      Decoded := Some trade_AAPL |};
              Some {| Ev := "Q"; Status := ""; StatusText := "";
                      Decoded := None |}])
       slow_and_fast)
  = take 1000
      (broadcast slow_and_fast
       ++ map (TransformPolygonMessage (t0 + 1))
            (flat_map forwarded
               [status_record "success" "subscribed";
                Some {| Ev := "T"; Status := ""; StatusText := "";
                        Decoded := Some trade_AAPL |};
                Some {| Ev := "Q"; Status := ""; StatusText := "";
                        Decoded := None |}])).
Proof.
  apply (upstream_batch_broadcast (t0 + 1) _ slow_and_fast ready_upstream);
    [reflexivity|vm_compute; lia].
Defined.






End broadcast_queue.

(** ** Releasing references *)

Section releasing.

Lemma subscribeToPolygon_one (x : string) (s : Server)
    (pc : PolygonClient.t) (c : Conn) :
  polygonClient s = Some pc →
  PolygonClient.IsConnected pc = true →
  PolygonClient.ws pc = Some c →
  closed c = false →
  subscribeToPolygon [x] s
  = Some match polygonSymbols s !! x with
         | Some count =>
             set_polygon s (<[x := wrap64 (count + 1)]> (polygonSymbols s))
               (Some pc)
         | None =>
             set_polygon s (<[x := 1]> (polygonSymbols s))
               (Some (PolygonClient.set_subscriptions
                        (PolygonClient.set_ws pc
                           (Some {| closed := false;
                                    written :=
                                      written c
                                      ++ [{| Action := "subscribe";
                                             Params :=
                                               PolygonClient.Join
                                                 (PolygonClient.tokens x) "," |}] |}))
                        (PolygonClient.subscriptions pc ∪ {[x]})))
         end.
Proof.
  intros Hpc Hconn Hws Hopen. unfold subscribeToPolygon.
  rewrite Hpc, Hconn. cbn [negb fold_left].
  destruct (polygonSymbols s !! x) as [count|] eqn:Hx.
  - by rewrite (acquire_held _ _ _ _ Hx).
  - rewrite (acquire_fresh _ _ _ Hx).
    change (0 <? Z.of_nat (length ([] ++ [x]))) with true. cbn match.
    unfold PolygonClient.IsConnected in Hconn.
    apply andb_true_iff in Hconn as [Hco Hau].
    unfold PolygonClient.Subscribe. rewrite Hco, Hau. cbn [negb orb].
    rewrite subscribe_loop_spec. unfold PolygonClient.write. simpl.
    rewrite Hws. simpl. unfold WriteMessage. rewrite Hopen. simpl.
    replace (PolygonClient.subscriptions pc ∪ ({[x]} ∪ ∅))
      with (PolygonClient.subscriptions pc ∪ {[x]}) by set_solver.
    reflexivity.
Qed.

Lemma unsubscribeFromPolygon_one (x : string) (s : Server)
    (pc : PolygonClient.t) (c : Conn) :
  polygonClient s = Some pc →
  PolygonClient.IsConnected pc = true →
  PolygonClient.ws pc = Some c →
  closed c = false →
  unsubscribeFromPolygon [x] s
  = Some match polygonSymbols s !! x with
         | Some count =>
             if count <=? 1
             then
               set_polygon s (delete x (polygonSymbols s))
                 (Some (PolygonClient.set_subscriptions
                          (PolygonClient.set_ws pc
                             (Some {| closed := false;
                                      written :=
                                        written c
                                        ++ [{| Action := "unsubscribe";
                                               Params :=
                                                 PolygonClient.Join
                                                   (PolygonClient.tokens x)
                                                   "," |}] |}))
                          (PolygonClient.subscriptions pc ∖ {[x]})))
             else
               set_polygon s (<[x := wrap64 (count - 1)]> (polygonSymbols s))
                 (Some pc)
         | None => set_polygon s (polygonSymbols s) (Some pc)
         end.
Proof.
  intros Hpc Hconn Hws Hopen. unfold unsubscribeFromPolygon.
  rewrite Hpc, Hconn. cbn [negb fold_left].
  destruct (polygonSymbols s !! x) as [count|] eqn:Hx.
  - destruct (Z.leb_spec count 1) as [Hlast|Hheld].
    + rewrite (release_last _ _ _ _ Hx) by done.
      change (0 <? Z.of_nat (length ([] ++ [x]))) with true. cbn match.
      unfold PolygonClient.IsConnected in Hconn.
      apply andb_true_iff in Hconn as [Hco Hau].
      unfold PolygonClient.Unsubscribe. rewrite Hco. cbn [negb].
      rewrite unsubscribe_loop_spec. unfold PolygonClient.write. simpl.
      rewrite Hws. simpl. unfold WriteMessage. rewrite Hopen. simpl.
      replace (PolygonClient.subscriptions pc ∖ ({[x]} ∪ ∅))
        with (PolygonClient.subscriptions pc ∖ {[x]}) by set_solver.
      reflexivity.
    + by rewrite (release_held _ _ _ _ Hx) by done.
  - by rewrite (release_absent _ _ _ Hx).
Qed.

(** X18. Reference counting as [subscribeToPolygon] and
    [unsubscribeFromPolygon] implement it, for a symbol that has no
    count and an upstream session that is connected and authenticated
    with its transport open. Two acquisitions followed by two releases
    write exactly one subscribe frame, at the first acquisition, and
    one unsubscribe frame, at the last release; the count goes to one,
    two, one and then its entry is deleted, so the counts end as they
    began; and the upstream session records the symbol as subscribed
    until the last release and not after it. *)
Theorem reference_count_round_trip (x : string) (s : Server)
    (pc : PolygonClient.t) (c : Conn) :
  polygonClient s = Some pc →
  PolygonClient.IsConnected pc = true →
  PolygonClient.ws pc = Some c →
  closed c = false →
  polygonSymbols s !! x = None →
  ∃ s1 s2 s3 s4 pc3 pc4,
    subscribeToPolygon [x] s = Some s1
    ∧ subscribeToPolygon [x] s1 = Some s2
    ∧ unsubscribeFromPolygon [x] s2 = Some s3
    ∧ unsubscribeFromPolygon [x] s3 = Some s4
    ∧ polygonSymbols s1 !! x = Some 1
    ∧ polygonSymbols s2 !! x = Some 2
    ∧ polygonSymbols s3 !! x = Some 1
    ∧ polygonSymbols s4 = polygonSymbols s
    ∧ polygonClient s3 = Some pc3
    ∧ x ∈ PolygonClient.subscriptions pc3
    ∧ PolygonClient.ws pc3
      = Some {| closed := false;
                written :=
                  written c
                  ++ [{| Action := "subscribe";
                         Params :=
                           PolygonClient.Join (PolygonClient.tokens x) "," |}] |}
    ∧ polygonClient s4 = Some pc4
    ∧ (x ∉ PolygonClient.subscriptions pc4)
    ∧ PolygonClient.ws pc4
      = Some {| closed := false;
                written :=
                  written c
                  ++ [{| Action := "subscribe";
                         Params :=
                           PolygonClient.Join (PolygonClient.tokens x) "," |};
                      {| Action := "unsubscribe";
                         Params :=
                           PolygonClient.Join (PolygonClient.tokens x) "," |}] |}.
Proof.
  intros Hpc Hconn Hws Hopen Hx.
  set (sub := {| Action := "subscribe";
                 Params := PolygonClient.Join (PolygonClient.tokens x) "," |}).
  set (unsub := {| Action := "unsubscribe";
                   Params := PolygonClient.Join (PolygonClient.tokens x) "," |}).
  set (c1 := {| closed := false; written := written c ++ [sub] |}).
  set (pc1 := PolygonClient.set_subscriptions
                (PolygonClient.set_ws pc (Some c1))
                (PolygonClient.subscriptions pc ∪ {[x]})).
  set (pc4 := PolygonClient.set_subscriptions
                (PolygonClient.set_ws pc1
                   (Some {| closed := false;
                            written := written c1 ++ [unsub] |}))
                (PolygonClient.subscriptions pc1 ∖ {[x]})).
  set (s1 := set_polygon s (<[x := 1]> (polygonSymbols s)) (Some pc1)).
  set (s2 := set_polygon s1 (<[x := 2]> (polygonSymbols s1)) (Some pc1)).
  set (s3 := set_polygon s2 (<[x := 1]> (polygonSymbols s2)) (Some pc1)).
  set (s4 := set_polygon s3 (delete x (polygonSymbols s3)) (Some pc4)).
  assert (Hconn1 : PolygonClient.IsConnected pc1 = true) by exact Hconn.
  assert (H1 : polygonSymbols s1 !! x = Some 1)
    by (subst s1; simpl; by rewrite lookup_insert_eq).
  assert (H2 : polygonSymbols s2 !! x = Some 2)
    by (subst s2; simpl; by rewrite lookup_insert_eq).
  assert (H3 : polygonSymbols s3 !! x = Some 1)
    by (subst s3; simpl; by rewrite lookup_insert_eq).
  exists s1, s2, s3, s4, pc1, pc4.
  split; [by rewrite (subscribeToPolygon_one x s pc c), Hx|].
  split; [by rewrite (subscribeToPolygon_one x s1 pc1 c1), H1|].
  split; [by rewrite (unsubscribeFromPolygon_one x s2 pc1 c1), H2|].
  split; [by rewrite (unsubscribeFromPolygon_one x s3 pc1 c1), H3|].
  split; [done|]. split; [done|]. split; [done|].
  split.
  { simpl. apply map_eq. intros k. destruct (decide (k = x)) as [->|Hne].
    - by rewrite lookup_delete_eq, Hx.
    - by rewrite lookup_delete_ne, !lookup_insert_ne. }
  split; [done|]. split; [simpl; set_solver|]. split; [done|].
  split; [done|]. split; [simpl; set_solver|].
  simpl. by rewrite <- app_assoc.
Qed.

Lemma reference_count_round_trip_witness :
  ∃ s1 s2 s3 s4 pc3 pc4,
    subscribeToPolygon ["AAPL"] slow_and_fast = Some s1
    ∧ subscribeToPolygon ["AAPL"] s1 = Some s2
    ∧ unsubscribeFromPolygon ["AAPL"] s2 = Some s3
    ∧ unsubscribeFromPolygon ["AAPL"] s3 = Some s4
    ∧ polygonSymbols s1 !! "AAPL" = Some 1
    ∧ polygonSymbols s2 !! "AAPL" = Some 2
    ∧ polygonSymbols s3 !! "AAPL" = Some 1
    ∧ polygonSymbols s4 = polygonSymbols slow_and_fast
    ∧ polygonClient s3 = Some pc3
    ∧ "AAPL" ∈ PolygonClient.subscriptions pc3
    ∧ PolygonClient.ws pc3
      = Some {| closed := false;
                written :=
                  written {| closed := false; written := [] |}
                  ++ [{| Action := "subscribe";
                         Params :=
                           PolygonClient.Join
                             (PolygonClient.tokens "AAPL") "," |}] |}
    ∧ polygonClient s4 = Some pc4
    ∧ ("AAPL" ∉ PolygonClient.subscriptions pc4)
    ∧ PolygonClient.ws pc4
      = Some {| closed := false;
                written :=
                  written {| closed := false; written := [] |}
                  ++ [{| Action := "subscribe";
                         Params :=
                           PolygonClient.Join
                             (PolygonClient.tokens "AAPL") "," |};
                      {| Action := "unsubscribe";
                         Params :=
                           PolygonClient.Join
                             (PolygonClient.tokens "AAPL") "," |}] |}.
Proof.
  apply (reference_count_round_trip "AAPL" slow_and_fast ready_upstream
           {| closed := false; written := [] |});
    reflexivity.
Defined.

End releasing.

(** ** Configuration, identifiers and the side channels *)

Section helpers.

(** X19. The origin check of the upgrader. With ALLOWED_ORIGINS unset,
    empty or "*", every request is admitted, whatever its Origin
    header and also without one; with any other value a request is
    admitted exactly when its Origin header equals the whole value. *)
Theorem CheckOrigin_spec (env : gmap string string) (origin : string) :
  CheckOrigin env origin = true
  ↔ env !! "ALLOWED_ORIGINS" = None
    ∨ env !! "ALLOWED_ORIGINS" = Some ""
    ∨ env !! "ALLOWED_ORIGINS" = Some "*"
    ∨ env !! "ALLOWED_ORIGINS" = Some origin.
Proof.
  unfold CheckOrigin, getEnv, Getenv.
  destruct (env !! "ALLOWED_ORIGINS") as [value|]; simpl.
  - destruct (String.eqb_spec value "") as [->|Hempty]; simpl.
    + split; [intros _; right; by left|done].
    + destruct (String.eqb_spec value "*") as [->|Hstar].
      * split; [intros _; right; right; by left|done].
      * destruct (String.eqb_spec origin value) as [->|Hne].
        -- split; [intros _; by do 3 right|done].
        -- split; [done|]. intros [?|[?|[?|?]]]; congruence.
  - split; [by left|done].
Qed.

Lemma get_letters (i : nat) :
  (i < 36)%nat →
  ∃ b, String.get i letters = Some b ∧ contains letters b = true.
Proof.
  intros Hi. do 36 (destruct i as [|i]; [by eexists|]). lia.
Qed.

(** X20. The random part of a client identifier is read off the clock.
    With clock readings at or after the epoch, [randString] returns a
    string with one byte per reading, and the byte for a reading is the
    letter of the 36-letter alphabet at the index of the reading modulo
    36: equal readings give equal bytes. A reading that leaves a
    negative remainder makes the index panic. *)
Theorem randString_spec (clock : list Z) :
  (Forall (fun now => 0 ≤ now) clock →
   ∃ s, randString clock = Some s
        ∧ String.length s = length clock
        ∧ ∀ i now, clock !! i = Some now →
                   String.get i s
                   = String.get (Z.to_nat (now mod 36)) letters
                   ∧ ∃ b, String.get i s = Some b
                          ∧ contains letters b = true)
  ∧ (Exists (fun now => Z.rem now 36 < 0) clock → randString clock = None).
Proof.
  split.
  - induction clock as [|now clock IH]; intros Hall.
    + exists "". split; [done|]. split; [done|]. intros i now Hi.
      by rewrite lookup_nil in Hi.
    + apply Forall_cons in Hall as [Hnow Hall].
      destruct (IH Hall) as (tail & Htail & Hlen & Hget).
      cbn [randString].
      change (Z.of_nat (String.length letters)) with 36.
      rewrite Z.rem_mod_nonneg by lia.
      destruct (Z.ltb_spec (now mod 36) 0) as [Hneg|_];
        [pose proof (Z.mod_pos_bound now 36); lia|].
      destruct (get_letters (Z.to_nat (now mod 36))) as (b & Hb & Hin).
      { pose proof (Z.mod_pos_bound now 36). lia. }
      rewrite Hb, Htail. simpl. exists (String b tail).
      split; [done|]. split; [simpl; by rewrite Hlen|].
      intros [|i] now' Hi; simpl in Hi.
      * injection Hi as <-. simpl. split; [done|by exists b].
      * simpl. by apply Hget.
  - induction 1 as [now clock Hneg|now clock Hex IH]; cbn [randString].
    + change (Z.of_nat (String.length letters)) with 36.
      by destruct (Z.ltb_spec (Z.rem now 36) 0); [|lia].
    + rewrite IH. case_match; [done|].
      by destruct (String.get _ letters).
Qed.

(** X21. The two side channels of [handlePolygonMessage] take the same
    records. With the cache ready and the database up, a record is
    written to the cache exactly when it is written to the database:
    when it names a symbol and is a trade with a positive price, a
    quote, or an aggregate. The database gets at most one row per
    record; neither gets anything for a record without a symbol; and a
    trade goes onto the flow list of its symbol, trimmed to 100 entries
    and kept for an hour, only when its size is positive. *)
Theorem dual_write_agrees (tradeCount : PolygonMessage → Z)
    (pm : PolygonMessage) :
  (cache_writes true pm = [] ↔ db_writes tradeCount true pm = [])
  ∧ (length (db_writes tradeCount true pm) ≤ 1)%nat
  ∧ (Symbol pm = "" →
     cache_writes true pm = [] ∧ db_writes tradeCount true pm = [])
  ∧ (LTRIM ("flow:" +:+ Symbol pm) 0 99 ∈ cache_writes true pm
     ↔ Symbol pm ≠ "" ∧ EventType pm = "T"
       ∧ positive (Price pm) = true ∧ 0 < Size pm)
  ∧ (EXPIRE ("flow:" +:+ Symbol pm) (3600 * Second) ∈ cache_writes true pm
     ↔ LTRIM ("flow:" +:+ Symbol pm) 0 99 ∈ cache_writes true pm).
Proof.
  unfold cache_writes, db_writes, CachePrice, CacheTrade, CacheFlow,
    CacheQuote, CacheAggregate, CacheSet, CacheLPush.
  change (wrap64 (100 - 1)) with 99.
  change (wrap64 (TTL_FLOW * Second)) with (3600 * Second).
  generalize (wrap64 (TTL_PRICE * Second)) (wrap64 (TTL_METRICS * Second)).
  intros ttl_price ttl_metrics.
  destruct (String.eqb_spec (Symbol pm) "") as [Hsym|Hsym];
    cbn [andb negb app].
  { repeat match goal with |- _ ∧ _ => split end;
      try done; try (set_unfold; naive_solver).
    all: repeat (case_match; cbn); try done; cbn [length]; lia. }
  generalize (EventType pm). intros ev.
  destruct (String.eqb_spec ev "T") as [->|HT];
    [|destruct (String.eqb_spec ev "Q") as [->|HQ];
      [|destruct (String.eqb_spec ev "A") as [->|HA];
        [|destruct (String.eqb_spec ev "AM") as [->|HAM]]]];
    cbn; try destruct (positive (Price pm)); cbn;
    try destruct (Z.ltb_spec 0 (Size pm)); cbn;
    repeat match goal with |- _ ∧ _ => split end;
    try done; try lia; set_unfold; naive_solver lia.
Qed.

End helpers.

(** ** Start-up, eviction and the browser client *)

Section edges.

(** A [Connect] that succeeds leaves the session connected and
    authenticated on a fresh transport that has got the auth frame. *)
Lemma Connect_success (arrivals : list PolygonClient.Batch)
    (pc pc' : PolygonClient.t) (out : list PolygonMessage) :
  PolygonClient.Connect true arrivals pc = Some (pc', out, None) →
  PolygonClient.connected pc' = true
  ∧ PolygonClient.authenticated pc' = true
  ∧ PolygonClient.subscriptions pc' = PolygonClient.subscriptions pc
  ∧ PolygonClient.ws pc'
    = Some {| closed := false;
              written := [{| Action := "auth";
                             Params := PolygonClient.apiKey pc |}] |}.
Proof.
  unfold PolygonClient.Connect, PolygonClient.authenticate,
    PolygonClient.write. simpl.
  match goal with |- context [PolygonClient.read_loop arrivals ?q] =>
    pose proof (read_loop_only_auth arrivals q) as [b Hb];
    destruct (PolygonClient.read_loop arrivals q) as [pc1 out1]
  end.
  simpl in Hb. subst pc1. simpl.
  destruct b; simpl; [|done]. by intros [= <- <-].
Qed.

(** X26. Start-up of the upstream session. When [initPolygon] leaves an
    upstream session behind, that session is connected and
    authenticated, its transport has got the auth frame with the key
    and one subscribe frame for the six default symbols, and these are
    its subscribed symbols; but the reference counts are untouched, so
    the default symbols are subscribed without a count. *)
Theorem initPolygon_defaults (now : Z) (key : string)
    (arrivals : list PolygonClient.Batch) (s s' : Server)
    (pc : PolygonClient.t) :
  polygonClient s = None →
  initPolygon now key true arrivals s = Some s' →
  polygonClient s' = Some pc →
  PolygonClient.IsConnected pc = true
  ∧ PolygonClient.subscriptions pc = list_to_set defaultSymbols
  ∧ PolygonClient.ws pc
    = Some {| closed := false;
              written :=
                [{| Action := "auth"; Params := key |};
                 {| Action := "subscribe";
                    Params :=
                      PolygonClient.Join
                        (flat_map PolygonClient.tokens defaultSymbols) "," |}] |}
  ∧ polygonSymbols s' = polygonSymbols s.
Proof.
  intros Hnone. unfold initPolygon.
  destruct (key =? "")%string; [intros [= <-]; congruence|].
  destruct (PolygonClient.Connect true arrivals
              (PolygonClient.NewPolygonClient key))
    as [[[pc1 out] err]|] eqn:Hconn; [|done].
  cbn [mbind option_bind].
  destruct (broadcast_upstream now out s) as [Hcounts _].
  destruct err as [err|]; [by intros [= <-]|].
  destruct (Connect_success _ _ _ _ Hconn) as (Hco & Hau & Hsubs & Hws).
  unfold PolygonClient.Subscribe. rewrite Hco, Hau. cbn [negb orb].
  rewrite subscribe_loop_spec. unfold PolygonClient.write.
  cbn [PolygonClient.ws PolygonClient.set_subscriptions].
  rewrite Hws. cbn [mbind option_bind]. unfold WriteMessage.
  cbn [closed written]. cbn [mbind option_bind].
  intros [= <-]. cbn [polygonClient set_polygon]. intros [= <-].
  unfold PolygonClient.IsConnected.
  cbn [PolygonClient.connected PolygonClient.authenticated
       PolygonClient.subscriptions PolygonClient.ws
       PolygonClient.set_ws PolygonClient.set_subscriptions
       polygonSymbols set_polygon].
  rewrite Hco, Hau, Hsubs.
  split; [done|]. split; [apply union_empty_l_L|]. split; [done|].
  exact Hcounts.
Qed.

Lemma initPolygon_defaults_witness :
  ∃ s' pc,
    initPolygon t0 "key" true [auth_success] initial = Some s'
    ∧ polygonClient s' = Some pc
    ∧ PolygonClient.IsConnected pc = true
    ∧ PolygonClient.subscriptions pc
      = list_to_set ["SPY"; "QQQ"; "DIA"; "AAPL"; "TSLA"; "NVDA"]
    ∧ PolygonClient.ws pc
      = Some {| closed := false; written := startup_frames |}
    ∧ polygonSymbols s' = ∅.
Proof.
  eexists _, _. split; [vm_compute; reflexivity|].
  split; [vm_compute; reflexivity|].
  match goal with |- PolygonClient.IsConnected ?pc = true ∧ _ =>
    destruct (initPolygon_defaults t0 "key" [auth_success] initial
                (default initial
                   (initPolygon t0 "key" true [auth_success] initial))
                pc eq_refl) as (Hco & Hsubs & Hws & Hcounts);
      [vm_compute; reflexivity|vm_compute; reflexivity|]
  end.
  split; [exact Hco|]. split; [exact Hsubs|].
  split; [rewrite Hws; vm_compute; reflexivity|].
  vm_compute. reflexivity.
Defined.

Lemma includes_singleton (y : string) (l : list string) :
  existsb (includes [y]) l = true ↔ y ∈ l.
Proof.
  rewrite existsb_exists. unfold includes. simpl. split.
  - intros (x & Hx & Heq). rewrite orb_false_r in Heq.
    apply String.eqb_eq in Heq as ->. by apply list_elem_of_In.
  - intros Hy. exists y. split; [by apply list_elem_of_In|].
    by rewrite String.eqb_refl.
Qed.

(** X28. The matching rule of the browser client, on what the gateway
    broadcasts. A market-data message made by
    [TransformPolygonMessage] matches a subscription of the client
    exactly when the channel of the subscription is the channel of the
    kind of the record and the subscription lists no symbol or lists
    the symbol of the record. *)
Theorem client_matching (now : Z) (pm : PolygonMessage)
    (sub : Subscription) :
  messageMatchesSubscription (on_wire (TransformPolygonMessage now pm)) sub
  = true
  ↔ SubChannel sub = Channel (TransformPolygonMessage now pm)
    ∧ (SubSymbols sub = [] ∨ Symbol pm ∈ SubSymbols sub).
Proof.
  unfold messageMatchesSubscription, on_wire.
  assert (Hch : (Channel (TransformPolygonMessage now pm) =? "")%string
                = false).
  { unfold TransformPolygonMessage. simpl. by repeat case_match. }
  rewrite Hch. cbn [WChannel WSymbols].
  change (Symbols (TransformPolygonMessage now pm)) with [Symbol pm].
  cbn match.
  generalize (Channel (TransformPolygonMessage now pm)). intros ch.
  destruct (decide (Some ch = Some (SubChannel sub))) as [Heq|Hne].
  - rewrite (bool_decide_eq_true_2 _ Heq). cbn [negb].
    injection Heq as ->.
    destruct (SubSymbols sub) as [|x l] eqn:Hl.
    + simpl. split; [intros _; split; [done|by left]|done].
    + change (0 <? Z.of_nat (length (x :: l))) with true. cbn [andb].
      destruct (existsb (includes [Symbol pm]) (x :: l)) eqn:Hex; cbn.
      * apply includes_singleton in Hex.
        split; [intros _; split; [done|by right]|done].
      * split; [done|]. intros [_ [?|Hin]]; [done|].
        apply includes_singleton in Hin. congruence.
  - rewrite (bool_decide_eq_false_2 _ Hne). cbn [negb].
    split; [done|]. intros [Heq _]. exfalso. apply Hne.
    by rewrite Heq.
Qed.

End edges.

(** ** Requests handled side by side *)

Section interleaving.

Lemma play_none (moves : list move) :
  fold_left (fun acc m => acc ≫= fun s => move_step s m) moves None = None.
Proof. by induction moves. Qed.

Lemma play_cons (m : move) (moves : list move) (s : Server) :
  play (m :: moves) s = move_step s m ≫= play moves.
Proof.
  unfold play. simpl. destruct (move_step s m); [done|]. apply play_none.
Qed.

Lemma play_app (a b : list move) (s : Server) :
  play (a ++ b) s = play a s ≫= play b.
Proof.
  revert s. induction a as [|m a IH]; intros s; [done|].
  rewrite <- app_comm_cons, !play_cons.
  destruct (move_step s m) as [s1|]; [apply IH|done].
Qed.

(** A run in which every handler runs from its start to its end is a
    run by sections. *)
Lemma play_turns (turns : list turn) (s : Server) :
  play (map Turn turns) s = run turns s.
Proof.
  revert s. induction turns as [|t turns IH]; intros s; [done|].
  cbn [map]. rewrite play_cons, run_cons. cbn [move_step].
  destruct (turn_step s t); [apply IH|done].
Qed.

















(** A queue that has been closed stops the inner loop of the
    broadcaster with a panic. *)
Lemma deliver_closed (data : Message) (targets : list nat)
    (h : gmap nat Client.t) (p : nat) (c : Client.t) :
  p ∈ targets →
  h !! p = Some c →
  Client.send_closed c = true →
  deliver data targets h = None.
Proof.
  revert h. induction targets as [|a targets IH]; intros h Hp Hc Hcl;
    [by apply elem_of_nil in Hp|].
  simpl. destruct (decide (a = p)) as [->|Hne].
  - rewrite Hc. simpl. unfold Client.trySend. by rewrite Hcl.
  - destruct (h !! a) as [ca|]; [|done]. simpl.
    destruct (Client.trySend ca data) as [ca'|]; [|done]. simpl.
    apply IH; [|by rewrite lookup_insert_ne|done].
    apply elem_of_cons in Hp as [->|Hp]; done.
Qed.

(** X23. [unregisterClient] closes the queue of the session before it
    takes the lock of the registry. A message on a channel of the
    session that the broadcaster takes between the two, while the
    session is still filed, is sent on the closed queue: the
    broadcaster panics. When the two sections of [unregisterClient] run
    with nothing in between, the session is out of the registry entry
    and the same iteration of the broadcaster runs to its end. *)
Theorem broadcast_in_teardown_window (p : nat) (s : Server) (c : Client.t)
    (msg : Message) (rest : list Message) (subscribed : gset nat) :
  p ∈ clients s →
  heap s !! p = Some c →
  Client.send_closed c = false →
  Channel msg ∈ Client.subscriptions c →
  broadcast s = msg :: rest →
  subscriptions s !! Channel msg = Some subscribed →
  p ∈ subscribed →
  (∀ q, q ∈ subscribed →
        ∃ cq, heap s !! q = Some cq ∧ Client.send_closed cq = false) →
  (∃ s1, unregister_close p s = Some (true, s1)
         ∧ handleMessages s1 = None)
  ∧ (∃ s2, unregisterClient p s = Some s2
           ∧ (p ∉ default ∅ (subscriptions s2 !! Channel msg))
           ∧ is_Some (handleMessages s2)).
Proof.
  intros Hp Hc Hopen Hkey Hb Hsub Hin Hothers. split.
  - unfold unregister_close. rewrite decide_True by done.
    rewrite Hc. cbn [mbind option_bind]. rewrite Hopen.
    eexists. split; [done|].
    unfold handleMessages. cbn [broadcast set_heap set_clients].
    rewrite Hb. cbn [subscriptions set_broadcast set_heap set_clients heap].
    rewrite Hsub.
    erewrite deliver_closed; [done|by apply elem_of_elements| |];
      [apply lookup_insert_eq|done].
  - unfold unregisterClient. rewrite decide_True by done.
    rewrite Hc. cbn [mbind option_bind]. rewrite Hopen.
    eexists. split; [done|].
    cbn [subscriptions set_subscriptions set_heap set_clients heap].
    assert (Hnew : fold_left (remove_subscriber p)
                     (elements (Client.subscriptions c)) (subscriptions s)
                   !! Channel msg = Some (subscribed ∖ {[p]})).
    { rewrite remove_subscriber_fold, decide_True
        by (by apply elem_of_elements).
      by rewrite Hsub. }
    split; [rewrite Hnew; cbn; set_solver|].
    unfold handleMessages. cbn [broadcast set_subscriptions set_heap
                                set_clients].
    rewrite Hb. cbn [subscriptions set_broadcast set_subscriptions set_heap
                     set_clients heap].
    rewrite Hnew.
    destruct (deliver_spec msg (elements (subscribed ∖ {[p]}))
                (<[p := Client.set_send c (Client.send c) true]> (heap s)))
      as (h' & Hrun & _).
    { apply NoDup_elements. }
    { intros q [Hq Hne]%elem_of_elements%elem_of_difference.
      rewrite lookup_insert_ne by set_solver. by apply Hothers. }
    cbn [heap set_broadcast set_subscriptions set_heap].
    rewrite Hrun. by eexists.
Qed.

Lemma broadcast_in_teardown_window_witness :
  ∃ s1, unregister_close 1
          (broadcastMessage market_data_AAPL slow_and_fast) = Some (true, s1)
        ∧ handleMessages s1 = None.
Proof.
  apply (broadcast_in_teardown_window 1
           (broadcastMessage market_data_AAPL slow_and_fast) fast_client
           market_data_AAPL [] {[ 0%nat; 1%nat ]}).
  - apply elem_of_union_r. by apply elem_of_singleton.
  - reflexivity.
  - reflexivity.
  - apply elem_of_elements. vm_compute. by left.
  - reflexivity.
  - reflexivity.
  - apply elem_of_union_r. by apply elem_of_singleton.
  - intros q Hq.
    apply elem_of_union in Hq as [Hq|Hq]; apply elem_of_singleton in Hq;
      subst q; eexists; split; reflexivity.
Defined.

(** X8. A subscribe request and an unsubscribe request of one session
    for one channel, handled side by side with the unsubscribe
    overtaking the subscribe between its two sections, leave the
    session filed in the registry under a channel that the session
    itself does not hold. The exit of its read loop, which removes the
    session from the registry entries of the channels it holds, then
    leaves it filed there with its queue closed, and the next message
    that the broadcaster takes on that channel makes the broadcaster
    panic. *)
Theorem overtaken_subscribe_leaves_entry (now : Z) (p : nat)
    (channel : string) (s : Server) (c : Client.t) :
  p ∈ clients s →
  heap s !! p = Some c →
  Client.send_closed c = false →
  ∃ s1 c1 s2,
    play (overtaken now p channel) s = Some s1
    ∧ heap s1 !! p = Some c1
    ∧ (channel ∉ Client.subscriptions c1)
    ∧ p ∈ default ∅ (subscriptions s1 !! channel)
    ∧ readPump_exit p s1 = Some s2
    ∧ (p ∉ clients s2)
    ∧ p ∈ default ∅ (subscriptions s2 !! channel)
    ∧ ∀ msg rest, broadcast s2 = msg :: rest →
                  Channel msg = channel →
                  handleMessages s2 = None.
Proof.
  intros Hp Hc Hopen. unfold overtaken.
  rewrite play_cons. cbn [move_step]. unfold subscribe_keys. rewrite Hc.
  cbn [mbind option_bind].
  rewrite play_cons. cbn [move_step]. unfold unsubscribe_keys.
  cbn [heap set_heap]. rewrite lookup_insert_eq. cbn [mbind option_bind].
  rewrite insert_insert_eq.
  set (ca := Client.set_subscriptions (Client.set_subscriptions c _) _).
  assert (Hca : channel ∉ Client.subscriptions ca) by (subst ca; set_solver).
  assert (Hoa : Client.send_closed ca = false) by done.
  clearbody ca.
  set (sa := set_heap (set_heap s _) _).
  assert (Hsa : clients sa = clients s ∧ heap sa !! p = Some ca).
  { subst sa. split; [done|]. simpl. apply lookup_insert_eq. }
  destruct Hsa as [Hcla Hha]. clearbody sa.
  rewrite play_cons. cbn [move_step mbind option_bind].
  set (sb := unsubscribe_registry p channel sa).
  assert (Hsb : clients sb = clients sa ∧ heap sb = heap sa).
  { subst sb. unfold unsubscribe_registry. by case_match. }
  destruct Hsb as [Hclb Hhb]. clearbody sb.
  rewrite play_cons. cbn [move_step].
  destruct (sendMessage p (unsubscribedMessage now channel) sb)
    as [sc|] eqn:Hsend1; last first.
  { exfalso. revert Hsend1. unfold sendMessage. rewrite Hhb, Hha.
    cbn [mbind option_bind].
    destruct (trySend_total ca (unsubscribedMessage now channel) Hoa)
      as [c' ->]. done. }
  cbn [mbind option_bind].
  destruct (sendMessage_at _ _ _ _ Hsend1) as (cb & cc & Hcb & Htry1 & ->).
  assert (cb = ca) as -> by congruence.
  rewrite play_cons. cbn [move_step mbind option_bind].
  set (sd := subscribe_registry p channel _).
  assert (Hsd : clients sd = clients s ∧ heap sd !! p = Some cc
                ∧ p ∈ default ∅ (subscriptions sd !! channel)).
  { subst sd. unfold subscribe_registry. simpl.
    split; [congruence|]. split; [apply lookup_insert_eq|].
    rewrite lookup_insert_eq. simpl. set_solver. }
  destruct Hsd as (Hcld & Hhd & Hfd).
  assert (Hcc : Client.subscriptions cc = Client.subscriptions ca
                ∧ Client.send_closed cc = false).
  { split; [by eapply trySend_keeps_subscriptions|by eapply trySend_open]. }
  destruct Hcc as [Hkc Hoc]. clearbody sd.
  rewrite play_cons. cbn [move_step].
  destruct (sendMessage p (subscribedMessage now channel []) sd)
    as [s1|] eqn:Hsend2; last first.
  { exfalso. revert Hsend2. unfold sendMessage. rewrite Hhd.
    cbn [mbind option_bind].
    destruct (trySend_total cc (subscribedMessage now channel []) Hoc)
      as [c' ->]. done. }
  cbn [mbind option_bind play fold_left].
  destruct (sendMessage_at _ _ _ _ Hsend2) as (cd & c1 & Hcd & Htry2 & ->).
  assert (cd = cc) as -> by congruence.
  assert (Hk1 : Client.subscriptions c1 = Client.subscriptions cc
                ∧ Client.send_closed c1 = false).
  { split; [by eapply trySend_keeps_subscriptions|by eapply trySend_open]. }
  destruct Hk1 as [Hk1 Ho1].
  eexists _, c1, _. split; [reflexivity|].
  split; [simpl; apply lookup_insert_eq|].
  split; [by rewrite Hk1, Hkc|]. split; [exact Hfd|].
  unfold readPump_exit, unregisterClient.
  cbn [clients set_heap heap]. rewrite decide_True by (by rewrite Hcld).
  rewrite lookup_insert_eq. cbn [mbind option_bind]. rewrite Ho1.
  cbn [mbind option_bind heap set_subscriptions set_heap set_clients].
  rewrite lookup_insert_eq. cbn [mbind option_bind].
  split; [reflexivity|].
  cbn [clients set_heap set_subscriptions set_clients subscriptions].
  split; [set_solver|].
  assert (Hkept : fold_left (remove_subscriber p)
                    (elements (Client.subscriptions c1)) (subscriptions sd)
                  !! channel = subscriptions sd !! channel).
  { rewrite remove_subscriber_fold, decide_False; [done|].
    rewrite elem_of_elements, Hk1, Hkc. done. }
  split; [by rewrite Hkept|].
  intros msg rest Hb Hch. unfold handleMessages.
  cbn [broadcast set_heap set_subscriptions set_clients] in Hb |- *.
  rewrite Hb. cbn [subscriptions set_broadcast set_heap set_subscriptions
                   set_clients heap].
  rewrite Hch, Hkept.
  destruct (subscriptions sd !! channel) as [subscribed|] eqn:Hsub;
    [|by apply not_elem_of_empty in Hfd].
  cbn [default from_option id] in Hfd.
  erewrite deliver_closed; [done|by apply elem_of_elements| |];
    [apply lookup_insert_eq|done].
Qed.

Lemma overtaken_subscribe_leaves_entry_witness :
  ∃ s1 c1 s2,
    play (overtaken (t0 + 1) 0 "trades") one_session = Some s1
    ∧ heap s1 !! 0%nat = Some c1
    ∧ ("trades" ∉ Client.subscriptions c1)
    ∧ 0%nat ∈ default ∅ (subscriptions s1 !! "trades")
    ∧ readPump_exit 0 s1 = Some s2
    ∧ (0%nat ∉ clients s2)
    ∧ 0%nat ∈ default ∅ (subscriptions s2 !! "trades")
    ∧ ∀ msg rest, broadcast s2 = msg :: rest →
                  Channel msg = "trades" →
                  handleMessages s2 = None.
Proof.
  apply (overtaken_subscribe_leaves_entry (t0 + 1) 0 "trades" one_session
           {| Client.conn_closed := false; Client.readDeadline := None;
              Client.send := []; Client.send_closed := false;
              Client.subscriptions := ∅; Client.id := "A";
              Client.lastSeen := t0 |}).
  - apply elem_of_elements. vm_compute. by left.
  - vm_compute. reflexivity.
  - reflexivity.
Defined.

End interleaving.
